(** * G-code generator: the move-document engine of [gcode_generator.py]

    A shallow embedding of the engine part of [src/gcode_generator.py]
    (number formatting, the X/Y line parser, merge-on-append, snapshot and
    undo, loop expansion, import and export), followed by the properties
    proved about it.

    Conventions of the embedding:
    - a Python [str] is a [string]; a character is a code point below 256;
      the methods of [str] the program calls are in the module [Str];
    - a Python [float] is an IEEE 754 binary64 value, [spec_float] of the
      standard library, with the operations of [SpecFloat] at precision 53
      and maximal exponent 1024; [float(s)], [int(v)], [str(v)] and the
      format [.6f] are in the module [Flt], all correctly rounded;
    - a Python [int] is a [Z];
    - a call that may raise returns a [result]; [try ... except ValueError]
      is [catch_value_error];
    - the two module globals [gcode_lines] and [last_snapshot] form the
      record [state], threaded explicitly; the list box, which mirrors
      [gcode_lines], and the plot are not modelled;
    - what a handler reads from the widgets and dialogs (entry texts, the
      selection, the answers to the yes/no questions, the lines of the file)
      is passed to it as arguments, and it returns the state it leaves
      with an [outcome];
    - the unbounded [while True] of [loop_block] runs on fuel, one unit per
      group attempted. *)

From Stdlib Require Import ZArith List String Ascii Bool Lia.
From Stdlib Require Import Numbers.DecimalString.
From Stdlib Require Import Floats.SpecFloat.
Import ListNotations.

Local Open Scope list_scope.
Local Open Scope string_scope.
Local Open Scope bool_scope.

(* ===================================================================== *)
(** * Exceptions *)

Inductive exn : Type := ValueError | OverflowError | IndexError.

Inductive result (A : Type) : Type :=
| Ok (a : A)
| Raise (e : exn).
Arguments Ok {A} a.
Arguments Raise {A} e.

Definition bind {A B : Type} (r : result A) (k : A -> result B) : result B :=
  match r with
  | Ok a => k a
  | Raise e => Raise e
  end.

Notation "x <- c ;; k" := (bind c (fun x => k))
  (at level 61, c at next level, right associativity).

(** [try: body except ValueError: handler] *)
Definition catch_value_error {A : Type} (body : result A) (handler : result A)
  : result A :=
  match body with
  | Raise ValueError => handler
  | r => r
  end.

(** [try: body except Exception: handler]; every [exn] is an [Exception]. *)
Definition catch_exception {A : Type} (body : result A) (handler : result A)
  : result A :=
  match body with
  | Raise _ => handler
  | r => r
  end.

(* ===================================================================== *)
(** * Python strings *)

Module Str.

Definition code (c : ascii) : nat := nat_of_ascii c.

(** [str.isspace] on one code point below 256. *)
Definition is_space (c : ascii) : bool :=
  let n := code c in
  ((9 <=? n)%nat && (n <=? 13)%nat)
  || ((28 <=? n)%nat && (n <=? 32)%nat)
  || (n =? 133)%nat || (n =? 160)%nat.

Definition is_digit (c : ascii) : bool :=
  let n := code c in (48 <=? n)%nat && (n <=? 57)%nat.

Definition is_lower (c : ascii) : bool :=
  let n := code c in (97 <=? n)%nat && (n <=? 122)%nat.

Definition is_upper (c : ascii) : bool :=
  let n := code c in (65 <=? n)%nat && (n <=? 90)%nat.

(** [str.upper] and [str.lower], letter by letter.  Only the ASCII
    letters are mapped: no other code point maps to an ASCII letter or
    digit, and the program only compares the result with ASCII text. *)
Definition upper_char (c : ascii) : ascii :=
  if is_lower c then ascii_of_nat (code c - 32) else c.

Definition lower_char (c : ascii) : ascii :=
  if is_upper c then ascii_of_nat (code c + 32) else c.

Fixpoint map (f : ascii -> ascii) (s : string) : string :=
  match s with
  | EmptyString => EmptyString
  | String c r => String (f c) (map f r)
  end.

Definition upper : string -> string := map upper_char.
Definition lower : string -> string := map lower_char.

(** [s.startswith(p)] *)
Fixpoint startswith (s p : string) {struct p} : bool :=
  match p with
  | EmptyString => true
  | String b p' =>
      match s with
      | EmptyString => false
      | String a s' => Ascii.eqb a b && startswith s' p'
      end
  end.

(** [c in s] for a one-character [c] *)
Fixpoint contains_char (c : ascii) (s : string) : bool :=
  match s with
  | EmptyString => false
  | String a r => Ascii.eqb a c || contains_char c r
  end.

(** [p in s] *)
Fixpoint contains (p s : string) : bool :=
  startswith s p
  || match s with
     | EmptyString => false
     | String _ r => contains p r
     end.

(** [s.split(sep, 1)] for a one-character [sep] *)
Fixpoint split_once (sep : ascii) (s : string) : list string :=
  match s with
  | EmptyString => [EmptyString]
  | String a r =>
      if Ascii.eqb a sep then [EmptyString; r]
      else match split_once sep r with
           | x :: rest => String a x :: rest
           | [] => []
           end
  end.

(** [l[0]] *)
Definition item0 (l : list string) : result string :=
  match l with
  | x :: _ => Ok x
  | [] => Raise IndexError
  end.

(** [s.lstrip(chars)]; [p] tells the characters to strip. *)
Fixpoint lstrip_by (p : ascii -> bool) (s : string) : string :=
  match s with
  | EmptyString => EmptyString
  | String a r => if p a then lstrip_by p r else s
  end.

(** [s.rstrip(chars)] *)
Fixpoint rstrip_by (p : ascii -> bool) (s : string) : string :=
  match s with
  | EmptyString => EmptyString
  | String a r =>
      match rstrip_by p r with
      | EmptyString => if p a then EmptyString else String a EmptyString
      | r' => String a r'
      end
  end.

(** [s.strip()] *)
Definition strip (s : string) : string :=
  rstrip_by is_space (lstrip_by is_space s).

(** [s.rstrip(c)] for a one-character [c] *)
Definition rstrip_char (c : ascii) (s : string) : string :=
  rstrip_by (Ascii.eqb c) s.

(** [s.replace(a, b)] for one-character [a] and [b] *)
Definition replace_char (a b : ascii) (s : string) : string :=
  map (fun c => if Ascii.eqb c a then b else c) s.

(** [s.split()]: the maximal runs of characters that are not
    whitespace.  [cur] is the run being read. *)
Fixpoint split_from (cur : string) (s : string) : list string :=
  match s with
  | EmptyString =>
      match cur with EmptyString => [] | _ => [cur] end
  | String a r =>
      if is_space a then
        match cur with
        | EmptyString => split_from EmptyString r
        | _ => cur :: split_from EmptyString r
        end
      else split_from (cur ++ String a EmptyString) r
  end.

Definition split (s : string) : list string := split_from EmptyString s.

(** [s[1:]] *)
Definition tail (s : string) : string :=
  match s with
  | EmptyString => EmptyString
  | String _ r => r
  end.

(** [sep.join(l)] *)
Fixpoint join (sep : string) (l : list string) : string :=
  match l with
  | [] => EmptyString
  | [x] => x
  | x :: rest => x ++ sep ++ join sep rest
  end.

Fixpoint repeat (c : ascii) (n : nat) : string :=
  match n with
  | O => EmptyString
  | S k => String c (repeat c k)
  end.

Definition is_empty (s : string) : bool :=
  match s with EmptyString => true | _ => false end.

End Str.

(* ===================================================================== *)
(** * Python numbers: [float] (binary64) and [int] *)

Module Flt.

Local Open Scope Z_scope.

Definition float : Type := spec_float.

Definition prec : Z := 53.
Definition emax : Z := 1024.

Definition add : float -> float -> float := SFadd prec emax.
Definition sub : float -> float -> float := SFsub prec emax.
Definition mul : float -> float -> float := SFmul prec emax.
Definition abs : float -> float := SFabs.
(** [a < b], [a <= b], [a > b]: false as soon as one side is NaN. *)
Definition ltb (a b : float) : bool := SFltb a b.
Definition leb (a b : float) : bool := SFleb a b.
Definition gtb (a b : float) : bool := SFltb b a.

Definition is_nan (v : float) : bool :=
  match v with S754_nan => true | _ => false end.
Definition is_inf (v : float) : bool :=
  match v with S754_infinity _ => true | _ => false end.

Definition same (a b : float) : bool :=
  match a, b with
  | S754_zero s, S754_zero t => Bool.eqb s t
  | S754_infinity s, S754_infinity t => Bool.eqb s t
  | S754_nan, S754_nan => true
  | S754_finite s m e, S754_finite t n f =>
      Bool.eqb s t && Pos.eqb m n && Z.eqb e f
  | _, _ => false
  end.

(** ** Rounding an exact value to the nearest binary64, ties to even *)

(** The positive rational [n / d], with sign [sx]. The quotient is
    computed with at least 63 significant bits and the remainder kept as
    the location of the exact value between two quotients. *)
Definition round_ratio (sx : bool) (n d : positive) : float :=
  let s := Z.max 0 (64 + Zpos (digits2_pos d) - Zpos (digits2_pos n)) in
  let '(q, r) := Z.div_eucl (Zpos n * 2 ^ s) (Zpos d) in
  binary_round_aux prec emax sx q (- s) (new_location (Zpos d) r).

(** The decimal [m * 10 ^ e10], [m >= 0], with sign [sx]. *)
Definition of_decimal (sx : bool) (m e10 : Z) : float :=
  match m with
  | Zpos p =>
      if 0 <=? e10
      then binary_round prec emax sx (Z.to_pos (Zpos p * 10 ^ e10)) 0
      else round_ratio sx p (Z.to_pos (10 ^ (- e10)))
  | _ => S754_zero sx
  end.

(** ** [float(s)] for a [str] *)

Fixpoint span (p : ascii -> bool) (s : string) : string * string :=
  match s with
  | EmptyString => (EmptyString, EmptyString)
  | String a r =>
      if p a then let '(x, y) := span p r in (String a x, y)
      else (EmptyString, s)
  end.

Definition digit_val (c : ascii) : Z := Z.of_nat (Str.code c - 48).

Fixpoint digits_val_from (acc : Z) (s : string) : Z :=
  match s with
  | EmptyString => acc
  | String a r => digits_val_from (10 * acc + digit_val a) r
  end.

Definition digits_val : string -> Z := digits_val_from 0.

Definition is_underscore (c : ascii) : bool := Ascii.eqb c "_".

(** An underscore is accepted only between two digits. *)
Fixpoint underscores_ok (prev : option ascii) (s : string) : bool :=
  match s with
  | EmptyString =>
      match prev with Some p => negb (is_underscore p) | None => true end
  | String a r =>
      (if is_underscore a
       then match prev with Some p => Str.is_digit p | None => false end
       else match prev with
            | Some p => negb (is_underscore p) || Str.is_digit a
            | None => true
            end)
      && underscores_ok (Some a) r
  end.

Fixpoint remove_underscores (s : string) : string :=
  match s with
  | EmptyString => EmptyString
  | String a r =>
      if is_underscore a then remove_underscores r
      else String a (remove_underscores r)
  end.

Definition split_sign (s : string) : bool * string :=
  match s with
  | String "-" r => (true, r)
  | String "+" r => (false, r)
  | _ => (false, s)
  end.

(** What may follow the mantissa: nothing, or [e] or [E], an optional
    sign and at least one digit. *)
Definition parse_exponent (s : string) : option Z :=
  match s with
  | EmptyString => Some 0
  | String c r =>
      if Ascii.eqb c "e" || Ascii.eqb c "E" then
        let '(neg, r1) := split_sign r in
        let '(ds, rest) := span Str.is_digit r1 in
        if Str.is_empty ds || negb (Str.is_empty rest) then None
        else Some (if neg then - digits_val ds else digits_val ds)
      else None
  end.

(** Digits, an optional point and digits, at least one digit in all,
    then the exponent: the integer mantissa and the power of ten. *)
Definition parse_decimal (s : string) : option (Z * Z) :=
  let '(ip, r1) := span Str.is_digit s in
  let '(fp, r2) :=
    match r1 with
    | String "." r => span Str.is_digit r
    | _ => (EmptyString, r1)
    end in
  if Str.is_empty ip && Str.is_empty fp then None
  else match parse_exponent r2 with
       | Some e =>
           Some (digits_val (ip ++ fp), e - Z.of_nat (String.length fp))
       | None => None
       end.

(** The whitespace that [float(s)] passes over at both ends of [s]: tab
    to carriage return and the blank, and the two whitespace code points
    above 127, next line and no-break space, which it first turns into
    blanks.  It does not pass over the separators 28 to 31, which
    [str.strip] removes. *)
Definition is_float_space (c : ascii) : bool :=
  let n := Str.code c in
  ((9 <=? n)%nat && (n <=? 13)%nat)
  || (n =? 32)%nat || (n =? 133)%nat || (n =? 160)%nat.

Definition float_strip (s : string) : string :=
  Str.rstrip_by is_float_space (Str.lstrip_by is_float_space s).

Definition of_string (s : string) : result float :=
  let t := float_strip s in
  if negb (underscores_ok None t) then Raise ValueError
  else
    let '(sx, body) := split_sign (remove_underscores t) in
    let low := Str.lower body in
    if String.eqb low "inf" || String.eqb low "infinity"
    then Ok (S754_infinity sx)
    else if String.eqb low "nan" then Ok S754_nan
    else match parse_decimal body with
         | Some (m, e10) => Ok (of_decimal sx m e10)
         | None => Raise ValueError
         end.

(** ** [int] and [float] *)

(** [float(k)] for an [int], as in [d * k]: correctly rounded. *)
Definition of_int (k : Z) : result float :=
  match binary_normalize prec emax k 0 false with
  | S754_infinity _ => Raise OverflowError
  | v => Ok v
  end.

(** [int(v)]: truncation toward zero. *)
Definition to_int (v : float) : result Z :=
  match v with
  | S754_nan => Raise ValueError
  | S754_infinity _ => Raise OverflowError
  | S754_zero _ => Ok 0
  | S754_finite s m e =>
      let a := if 0 <=? e then Zpos m * 2 ^ e else Zpos m / 2 ^ (- e) in
      Ok (if s then - a else a)
  end.

(** [str(k)] for an [int] *)
Definition str_int (k : Z) : string := NilZero.string_of_int (Z.to_int k).

(** ** [f"{v:.6f}"] *)

Definition sign_text (s : bool) : string := if s then "-" else "".

(** The integer nearest to [n / d], ties to even ([n >= 0], [d > 0]). *)
Definition round_half_even (n d : Z) : Z :=
  let q := n / d in
  match 2 * (n mod d) ?= d with
  | Lt => q
  | Gt => q + 1
  | Eq => if Z.even q then q else q + 1
  end.

Definition pad_left (w : nat) (s : string) : string :=
  Str.repeat "0" (w - String.length s) ++ s.

Definition fixed6 (v : float) : string :=
  match v with
  | S754_nan => "nan"
  | S754_infinity s => sign_text s ++ "inf"
  | S754_zero s => sign_text s ++ "0.000000"
  | S754_finite s m e =>
      let u :=
        if 0 <=? e then Zpos m * 2 ^ e * 10 ^ 6
        else round_half_even (Zpos m * 10 ^ 6) (2 ^ (- e)) in
      sign_text s ++ str_int (u / 10 ^ 6) ++ "."
                  ++ pad_left 6 (str_int (u mod 10 ^ 6))
  end.

(** ** [str(v)] for a [float]: the shortest decimal text that reads back
    as [v] *)

(** [10 ^ k <= n / d] *)
Definition pow10_le (k n d : Z) : bool :=
  if 0 <=? k then 10 ^ k * d <=? n else d <=? n * 10 ^ (- k).

(** The position of the decimal point: the [k] with
    [10 ^ (k - 1) <= n / d < 10 ^ k], found next to the estimate drawn
    from the binary magnitude [b], where [2 ^ (b - 1) <= n / d < 2 ^ b]. *)
Definition decimal_point (n d b : Z) : Z :=
  let k0 := ((b - 1) * 30103) / 100000 in
  if negb (pow10_le (k0 - 1) n d) then k0 - 1
  else if negb (pow10_le k0 n d) then k0
  else if negb (pow10_le (k0 + 1) n d) then k0 + 1
  else k0 + 2.

(** The two integers around [n / d * 10 ^ j], and which one is nearer
    ([Lt]: the lower one). *)
Definition neighbours (n d j : Z) : Z * comparison :=
  let '(a, b) := if 0 <=? j then (n * 10 ^ j, d) else (n, d * 10 ^ (- j)) in
  (a / b, 2 * (a mod b) ?= b).

(** With [p] significant digits, then [p + 1], ...: the first precision
    at which a neighbour reads back as [v]; 17 digits always do.  When
    both neighbours read back as [v], the nearer one is taken, the even
    one when [v] is half-way.
    The result is the digits as an integer and its power of ten. *)
Fixpoint shortest (fuel : nat) (p : Z) (v : float) (n d k : Z) : Z * Z :=
  let '(lo, side) := neighbours n d (p - k) in
  let hi := lo + 1 in
  let nearest := match side with
                 | Gt => hi
                 | Lt => lo
                 | Eq => if Z.even lo then lo else hi
                 end in
  match fuel with
  | O => (nearest, k - p)
  | S fuel' =>
      let ok_lo := same (of_decimal false lo (k - p)) v in
      let ok_hi := same (of_decimal false hi (k - p)) v in
      if ok_lo && ok_hi then (nearest, k - p)
      else if ok_lo then (lo, k - p)
      else if ok_hi then (hi, k - p)
      else shortest fuel' (p + 1) v n d k
  end.

Definition two_digits (k : Z) : string := pad_left 2 (str_int k).

(** The layout of [repr]: [ds] are the significant digits, without
    trailing zeros, and the value is [0.ds * 10 ^ k]. *)
Definition layout (ds : string) (k : Z) : string :=
  let n := Z.of_nat (String.length ds) in
  if (-4 <? k) && (k <=? 16) then
    if k <=? 0 then "0." ++ Str.repeat "0" (Z.to_nat (- k)) ++ ds
    else if n <=? k then ds ++ Str.repeat "0" (Z.to_nat (k - n)) ++ ".0"
    else String.substring 0 (Z.to_nat k) ds ++ "."
         ++ String.substring (Z.to_nat k) (Z.to_nat (n - k)) ds
  else
    let e := k - 1 in
    String.substring 0 1 ds
    ++ (if 1 <? n then "." ++ String.substring 1 (Z.to_nat (n - 1)) ds
        else "")
    ++ "e" ++ (if e <? 0 then "-" else "+") ++ two_digits (Z.abs e).

Definition repr (v : float) : string :=
  match v with
  | S754_nan => "nan"
  | S754_infinity s => sign_text s ++ "inf"
  | S754_zero s => sign_text s ++ "0.0"
  | S754_finite s m e =>
      let '(n, d) := if 0 <=? e then (Zpos m * 2 ^ e, 1)
                     else (Zpos m, 2 ^ (- e)) in
      let k := decimal_point n d (Zpos (digits2_pos m) + e) in
      let '(c, e10) := shortest 16 1 (S754_finite false m e) n d k in
      let text := str_int c in
      sign_text s
      ++ layout (Str.rstrip_char "0" text)
                (Z.of_nat (String.length text) + e10)
  end.

End Flt.

(* ===================================================================== *)
(** * The program *)

Definition float : Type := Flt.float.

(** What a handler ends with: it ran to its end with a result ([Done]),
    returned early after a warning or an error box ([Warned], [Failed],
    with the title of the box), returned early in silence ([Skipped]), let
    an exception escape ([Raised]), or was still looping when the fuel ran
    out ([OutOfFuel]). *)
Inductive outcome (A : Type) : Type :=
| Done (a : A)
| Warned (title : string)
| Failed (title : string)
| Skipped
| Raised (e : exn)
| OutOfFuel.
Arguments Done {A} a.
Arguments Warned {A} title.
Arguments Failed {A} title.
Arguments Skipped {A}.
Arguments Raised {A} e.
Arguments OutOfFuel {A}.

(** A loop body either goes on with a new loop state or returns. *)
Inductive flow (S R : Type) : Type :=
| Next (s : S)
| Return (r : R).
Arguments Next {S R} s.
Arguments Return {S R} r.

(** ** helpers *)

(** [TOL = 1e-9] *)
Definition TOL : float := Flt.of_decimal false 1 (-9).

Definition fmt_number (s : string) : result string :=
  let s := Str.strip s in
  if Str.is_empty s then Ok ""
  else
    catch_value_error
      (v <- Flt.of_string s ;;
       i <- Flt.to_int v ;;
       fi <- Flt.of_int i ;;
       if Flt.ltb (Flt.abs (Flt.sub v fi)) (Flt.of_decimal false 1 (-9))
       then (j <- Flt.to_int v ;; Ok (Flt.str_int j))
       else Ok (Str.rstrip_char "." (Str.rstrip_char "0" (Flt.fixed6 v))))
      (Ok "").

(** [parse_float(s, default)].  The callers pass [None] for the limits and
    [0.0] for the offsets; [inj] places the float read in the type of the
    default: [Some] for the former, the identity for the latter. *)
Definition parse_float {A : Type} (inj : float -> A) (s : string)
           (default : A) : result A :=
  catch_exception (v <- Flt.of_string s ;; Ok (inj v)) (Ok default).

(** [if c in line: line = line.split(c, 1)[0]] *)
Definition cut_at (c : ascii) (line : string) : result string :=
  if Str.contains_char c line then Str.item0 (Str.split_once c line)
  else Ok line.

Definition xy_vals : Type := option float * option float.

(** The body of the token loop of [parse_g1_xy]. *)
Definition scan_token (token : string) (vals : xy_vals)
  : result (flow xy_vals (option (float * float))) :=
  let t := Str.upper token in
  if Str.startswith t "X" then
    catch_value_error
      (v <- Flt.of_string (Str.tail token) ;; Ok (Next (Some v, snd vals)))
      (Ok (Return None))
  else if Str.startswith t "Y" then
    catch_value_error
      (v <- Flt.of_string (Str.tail token) ;; Ok (Next (fst vals, Some v)))
      (Ok (Return None))
  else Ok (Next vals).

Fixpoint scan_tokens (tokens : list string) (vals : xy_vals)
  : result (flow xy_vals (option (float * float))) :=
  match tokens with
  | [] => Ok (Next vals)
  | token :: rest =>
      step <- scan_token token vals ;;
      match step with
      | Next vals' => scan_tokens rest vals'
      | Return r => Ok (Return r)
      end
  end.

Definition parse_g1_xy (line : string) : result (option (float * float)) :=
  line <- cut_at ";" line ;;
  line <- cut_at "#" line ;;
  let line := Str.strip line in
  if Str.is_empty line then Ok None
  else
    let U := Str.upper line in
    if Str.startswith U "M3" || Str.startswith U "M5" then Ok None
    else
      step <- scan_tokens (Str.split (Str.replace_char "," " " line))
                          (None, None) ;;
      match step with
      | Return r => Ok r
      | Next (Some x_val, Some y_val) => Ok (Some (x_val, y_val))
      | Next _ => Ok None
      end.

(** [_eq(a, b)]; every call leaves [tol] at its default, [TOL]. *)
Definition _eq (a b : float) : bool := Flt.leb (Flt.abs (Flt.sub a b)) TOL.

(** ** global state *)

Record state : Type := mkState {
  gcode_lines : list string;
  last_snapshot : option (list string)
}.

Definition snapshot (st : state) : state :=
  mkState (gcode_lines st) (Some (gcode_lines st)).

Definition restore_snapshot (st : state) : state :=
  match last_snapshot st with
  | None => st
  | Some saved => mkState saved (Some saved)
  end.

(** ** core add/merge *)

(** [l[-k]], [k >= 1] *)
Definition item_from_end (l : list string) (k : nat) : result string :=
  if (k <=? List.length l)%nat
  then match nth_error l (List.length l - k) with
       | Some x => Ok x
       | None => Raise IndexError
       end
  else Raise IndexError.

(** [l[-1] = x] *)
Definition set_last (l : list string) (x : string) : result (list string) :=
  match l with
  | [] => Raise IndexError
  | _ => Ok (removelast l ++ [x])%list
  end.

(** The local [new_text] of [add_or_merge_line]:
    [f"G1 X{fmt_number(str(xn))} Y{fmt_number(str(yn))}"] *)
Definition new_text (xn yn : float) : result string :=
  fx <- fmt_number (Flt.repr xn) ;;
  fy <- fmt_number (Flt.repr yn) ;;
  Ok ("G1 X" ++ fx ++ " Y" ++ fy).

Definition add_or_merge_line (xn yn : float) (lines : list string)
  : result (list string) :=
  text <- new_text xn yn ;;
  last_xy <- (if (1 <=? List.length lines)%nat
              then (l <- item_from_end lines 1 ;; parse_g1_xy l)
              else Ok None) ;;
  prev_xy <- (if (2 <=? List.length lines)%nat
              then (l <- item_from_end lines 2 ;; parse_g1_xy l)
              else Ok None) ;;
  match last_xy, prev_xy with
  | Some last, Some prev =>
      if _eq (snd last) yn && _eq (snd prev) yn
      then set_last lines text
      else if _eq (fst last) xn && _eq (fst prev) xn
      then set_last lines text
      else Ok (lines ++ [text])%list
  | _, _ => Ok (lines ++ [text])%list
  end.

(** [for xn, yn in moves: add_or_merge_line(xn, yn)]: the lines reached,
    and the exception that stopped the loop, if any. *)
Fixpoint add_all (moves : list (float * float)) (lines : list string)
  : list string * option exn :=
  match moves with
  | [] => (lines, None)
  | (xn, yn) :: rest =>
      match add_or_merge_line xn yn lines with
      | Ok lines' => add_all rest lines'
      | Raise e => (lines, Some e)
      end
  end.

(** ** actions *)

(** [x_var] and [y_var] are the texts of the two entries. *)
Definition submit_line (x_var y_var : string) (st : state)
  : state * outcome unit :=
  match fmt_number x_var with
  | Raise e => (st, Raised e)
  | Ok x_txt =>
      match fmt_number y_var with
      | Raise e => (st, Raised e)
      | Ok y_txt =>
          if Str.is_empty x_txt || Str.is_empty y_txt
          then (st, Warned "Missing values")
          else
            let st1 := snapshot st in
            match (xn <- Flt.of_string x_txt ;;
                   yn <- Flt.of_string y_txt ;;
                   add_or_merge_line xn yn (gcode_lines st1)) with
            | Raise e => (st1, Raised e)
            | Ok lines => (mkState lines (last_snapshot st1), Done tt)
            end
      end
  end.

Definition undo_last (st : state) : state := restore_snapshot st.

(** [del l[idx]] *)
Definition del_item (l : list string) (idx : nat) : result (list string) :=
  if (idx <? List.length l)%nat
  then Ok (firstn idx l ++ skipn (S idx) l)%list
  else Raise IndexError.

(** [for idx in reversed(sel): del gcode_lines[idx]] *)
Fixpoint del_items (idxs : list nat) (lines : list string)
  : list string * option exn :=
  match idxs with
  | [] => (lines, None)
  | idx :: rest =>
      match del_item lines idx with
      | Ok lines' => del_items rest lines'
      | Raise e => (lines, Some e)
      end
  end.

(** [sel] is the selection of the list box, in increasing order. *)
Definition remove_selected (sel : list nat) (st : state)
  : state * outcome unit :=
  match sel with
  | [] => (st, Skipped)
  | _ =>
      let st1 := snapshot st in
      match del_items (rev sel) (gcode_lines st1) with
      | (lines, Some e) => (mkState lines (last_snapshot st1), Raised e)
      | (lines, None) => (mkState lines (last_snapshot st1), Done tt)
      end
  end.

(** [confirm] is the answer to the yes/no question. *)
Definition clear_all_lines (confirm : bool) (st : state)
  : state * outcome unit :=
  match gcode_lines st with
  | [] => (st, Skipped)
  | _ =>
      if negb confirm then (st, Skipped)
      else let st1 := snapshot st in
           (mkState [] (last_snapshot st1), Done tt)
  end.

(** [" F" not in first and "\tF" not in first] *)
Definition no_feed (first : string) : bool :=
  negb (Str.contains " F" first)
  && negb (Str.contains (String (ascii_of_nat 9) "F") first).

Definition lines_to_save (lines : list string) : list string :=
  match lines with
  | [] => []
  | first :: rest =>
      let first := if no_feed first then first ++ " F200" else first in
      (["M3"; first] ++ rest ++ ["M5"])%list
  end.

(** [path] is the answer of the file dialog, empty when it was closed;
    [writable] tells whether the file could be written.  The result is the
    path and the text written to it. *)
Definition save_gcode (path : string) (writable : bool) (st : state)
  : outcome (string * string) :=
  match gcode_lines st with
  | [] => Warned "Nothing to save"
  | _ =>
      let out := lines_to_save (gcode_lines st) in
      if Str.is_empty path then Skipped
      else if writable
      then Done (path, Str.join (String (ascii_of_nat 10) "") out
                       ++ String (ascii_of_nat 10) "")
      else Failed "Error"
  end.

(** The first loop of [load_gcode]: the moves found and the number of
    lines skipped. *)
Fixpoint parse_lines (raw_lines : list string)
         (parsed : list (float * float)) (skipped : nat)
  : result (list (float * float) * nat) :=
  match raw_lines with
  | [] => Ok (parsed, skipped)
  | ln :: rest =>
      xy <- parse_g1_xy ln ;;
      match xy with
      | None => parse_lines rest parsed (S skipped)
      | Some m => parse_lines rest (parsed ++ [m])%list skipped
      end
  end.

(** [raw_lines] are the lines read from the chosen file and [do_replace]
    the answer to the question asked before importing.  The result is the
    pair of numbers shown at the end: lines imported, lines skipped. *)
Definition load_gcode (raw_lines : list string) (do_replace : bool)
           (st : state) : state * outcome (nat * nat) :=
  match parse_lines raw_lines [] 0 with
  | Raise e => (st, Raised e)
  | Ok (parsed, skipped) =>
      match parsed with
      | [] => (st, Warned "No X/Y found")
      | _ =>
          let st1 := snapshot st in
          let lines := if do_replace then [] else gcode_lines st1 in
          match add_all parsed lines with
          | (lines', Some e) => (mkState lines' (last_snapshot st1), Raised e)
          | (lines', None) =>
              (mkState lines' (last_snapshot st1),
               Done (List.length parsed, skipped))
          end
      end
  end.

(** [bound is not None and v > bound] *)
Definition exceeds (bound : option float) (v : float) : bool :=
  match bound with
  | Some b => Flt.gtb v b
  | None => false
  end.

(** The inner [for] loop of [loop_block] for one [k]: whether a bound was
    violated, and the group built up to there. *)
Fixpoint build_group (base_block : list (float * float)) (dx dy : float)
         (k : Z) (max_x max_y : option float)
         (next_group : list (float * float))
  : result (bool * list (float * float)) :=
  match base_block with
  | [] => Ok (false, next_group)
  | (x0, y0) :: rest =>
      kx <- Flt.of_int k ;;
      let xn := Flt.add x0 (Flt.mul dx kx) in
      ky <- Flt.of_int k ;;
      let yn := Flt.add y0 (Flt.mul dy ky) in
      if exceeds max_x xn then Ok (true, next_group)
      else if exceeds max_y yn then Ok (true, next_group)
      else build_group rest dx dy k max_x max_y
                       (next_group ++ [(xn, yn)])%list
  end.

Definition is_nil {A : Type} (l : list A) : bool :=
  match l with [] => true | _ => false end.

(** The [while True] loop of [loop_block], one unit of fuel per turn. *)
Fixpoint loop_groups (fuel : nat) (base_block : list (float * float))
         (dx dy : float) (max_x max_y : option float)
         (k : Z) (appended : nat) (lines : list string)
  : list string * outcome nat :=
  match fuel with
  | O => (lines, OutOfFuel)
  | S fuel' =>
      match build_group base_block dx dy k max_x max_y [] with
      | Raise e => (lines, Raised e)
      | Ok (violates, next_group) =>
          if violates || is_nil next_group then (lines, Done appended)
          else
            match add_all next_group lines with
            | (lines', Some e) => (lines', Raised e)
            | (lines', None) =>
                loop_groups fuel' base_block dx dy max_x max_y
                            (k + 1) (S appended) lines'
            end
      end
  end.

(** The loop that fills [base_block]: the line that does not parse stops
    it. *)
Fixpoint parse_base (lines : list string) (base_block : list (float * float))
  : result (flow (list (float * float)) string) :=
  match lines with
  | [] => Ok (Next base_block)
  | line :: rest =>
      xy <- parse_g1_xy line ;;
      match xy with
      | None => Ok (Return line)
      | Some m => parse_base rest (base_block ++ [m])%list
      end
  end.

(** The four texts are those of the Max X, Max Y, delta X and delta Y
    entries.  The result is [appended], the number of groups appended. *)
Definition loop_block (fuel : nat)
           (max_x_var max_y_var dx_var dy_var : string) (st : state)
  : state * outcome nat :=
  match gcode_lines st with
  | [] => (st, Warned "Nothing to loop")
  | _ =>
      match (max_x <- parse_float Some max_x_var None ;;
             max_y <- parse_float Some max_y_var None ;;
             dx <- parse_float id dx_var (S754_zero false) ;;
             dy <- parse_float id dy_var (S754_zero false) ;;
             Ok (max_x, max_y, dx, dy)) with
      | Raise e => (st, Raised e)
      | Ok (max_x, max_y, dx, dy) =>
          match max_x, max_y with
          | None, None => (st, Warned "No limits")
          | _, _ =>
              match parse_base (gcode_lines st) [] with
              | Raise e => (st, Raised e)
              | Ok (Return _) => (st, Failed "Parse error")
              | Ok (Next base_block) =>
                  let st1 := snapshot st in
                  let '(lines, out) :=
                    loop_groups fuel base_block dx dy max_x max_y
                                1%Z 0%nat (gcode_lines st1) in
                  (mkState lines (last_snapshot st1), out)
              end
          end
      end
  end.


(** ** preview and plot: the line shown before a submit, the points drawn *)

Definition build_preview_line (x y : string) : result string :=
  x <- fmt_number x ;;
  y <- fmt_number y ;;
  if negb (Str.is_empty x) && negb (Str.is_empty y)
  then Ok ("G1 X" ++ x ++ " Y" ++ y)
  else if negb (Str.is_empty x) then Ok ("G1 X" ++ x ++ " Y?")
  else if negb (Str.is_empty y) then Ok ("G1 X? Y" ++ y)
  else Ok "G1 X? Y?".



(** ** reading a text file back *)

(** [f.readlines()] on a file opened for reading in text mode, as
    [load_gcode] opens it: universal newlines, so that a line ends at a
    line feed, at a carriage return followed by a line feed, or at a
    carriage return alone, and is handed over with a line feed at its end
    in the three cases; a last line without a line end is handed over as
    it is.  [cur] is the line being read. *)
Fixpoint readlines_from (cur : string) (text : string) : list string :=
  match text with
  | EmptyString => if Str.is_empty cur then [] else [cur]
  | String a r =>
      if Ascii.eqb a (ascii_of_nat 10)
      then (cur ++ String (ascii_of_nat 10) "") :: readlines_from "" r
      else if Ascii.eqb a (ascii_of_nat 13)
      then match r with
           | String b r' =>
               if Ascii.eqb b (ascii_of_nat 10)
               then (cur ++ String (ascii_of_nat 10) "")
                      :: readlines_from "" r'
               else (cur ++ String (ascii_of_nat 10) "")
                      :: readlines_from "" r
           | EmptyString => [cur ++ String (ascii_of_nat 10) ""]
           end
      else readlines_from (cur ++ String a "") r
  end.

Definition readlines (text : string) : list string := readlines_from "" text.
(* ===================================================================== *)
(** * The vocabulary of the specification *)

Definition is_some {A : Type} (o : option A) : bool :=
  match o with Some _ => true | None => false end.

(** ** The parser *)

(** The text before the first [c]. *)
Fixpoint take_until (c : ascii) (s : string) : string :=
  match s with
  | EmptyString => EmptyString
  | String a r => if Ascii.eqb a c then EmptyString
                  else String a (take_until c r)
  end.

(** A comment starts at the first [;] or [#]. *)
Definition comment_start (c : ascii) : bool :=
  Ascii.eqb c ";" || Ascii.eqb c "#".

Fixpoint strip_comment (line : string) : string :=
  match line with
  | EmptyString => EmptyString
  | String a r => if comment_start a then EmptyString
                  else String a (strip_comment r)
  end.

(** The line without its comment, trimmed. *)
Definition body_of (line : string) : string :=
  Str.strip (strip_comment line).

(** Case-insensitively, the text begins with [M3] or [M5]. *)
Definition spindle (s : string) : bool :=
  match s with
  | String a (String b _) =>
      (Ascii.eqb a "M" || Ascii.eqb a "m")
      && (Ascii.eqb b "3" || Ascii.eqb b "5")
  | _ => false
  end.

(** Tokens are separated by whitespace and commas. *)
Definition is_separator (c : ascii) : bool :=
  Str.is_space c || Ascii.eqb c ",".

Fixpoint tokens_from (cur : string) (s : string) : list string :=
  match s with
  | EmptyString =>
      match cur with EmptyString => [] | _ => [cur] end
  | String a r =>
      if is_separator a then
        match cur with
        | EmptyString => tokens_from EmptyString r
        | _ => cur :: tokens_from EmptyString r
        end
      else tokens_from (cur ++ String a EmptyString) r
  end.

Definition tokens (s : string) : list string := tokens_from EmptyString s.

(** The first letter of the token is [X] (or [Y]), in either case. *)
Definition is_x_token (t : string) : bool :=
  match t with
  | String a _ => Ascii.eqb a "X" || Ascii.eqb a "x"
  | EmptyString => false
  end.

Definition is_y_token (t : string) : bool :=
  match t with
  | String a _ => Ascii.eqb a "Y" || Ascii.eqb a "y"
  | EmptyString => false
  end.

Definition is_xy_token (t : string) : bool := is_x_token t || is_y_token t.

(** [float] reads the remainder of the token, after its letter. *)
Definition reads_as_float (t : string) : Prop :=
  exists v, Flt.of_string (Str.tail t) = Ok v.

(** ** Merge on append *)

(** The float of an integer literal, as in [add_or_merge_line(5, 0)]. *)
Definition num (k : Z) : float :=
  binary_normalize Flt.prec Flt.emax k 0 false.

(** The record holds a move whose Y (whose X) equals the given value
    within the tolerance. *)
Definition has_y (record : string) (y : float) : Prop :=
  exists x' y', parse_g1_xy record = Ok (Some (x', y')) /\ _eq y' y = true.

Definition has_x (record : string) (x : float) : Prop :=
  exists x' y', parse_g1_xy record = Ok (Some (x', y')) /\ _eq x' x = true.

(** The document holds at least two records and its last two share the
    given Y (the given X). *)
Definition horizontal_run (lines : list string) (y : float) : Prop :=
  exists pre a b, lines = (pre ++ [a; b])%list /\ has_y a y /\ has_y b y.

Definition vertical_run (lines : list string) (x : float) : Prop :=
  exists pre a b, lines = (pre ++ [a; b])%list /\ has_x a x /\ has_x b x.

(** The decision taken on the last two records. *)
Definition merge_test (xn yn : float) (a b : string) : bool :=
  match parse_g1_xy b, parse_g1_xy a with
  | Ok (Some last), Ok (Some prev) =>
      (_eq (snd last) yn && _eq (snd prev) yn)
      || (_eq (fst last) xn && _eq (fst prev) xn)
  | _, _ => false
  end.


(** ** Loop expansion *)

(** The base sequence shifted by [(dx * kf, dy * kf)], in its order. *)
Definition shifted (base_block : list (float * float)) (dx dy kf : float)
  : list (float * float) :=
  List.map (fun p => (Flt.add (fst p) (Flt.mul dx kf),
                      Flt.add (snd p) (Flt.mul dy kf))) base_block.

(** The move exceeds no bound that is set. *)
Definition within (max_x max_y : option float) (p : float * float) : bool :=
  negb (exceeds max_x (fst p)) && negb (exceeds max_y (snd p)).

(** The [k]-th candidate group. *)
Definition candidate (base_block : list (float * float)) (dx dy : float)
           (k : Z) : result (list (float * float)) :=
  kf <- Flt.of_int k ;; Ok (shifted base_block dx dy kf).

Definition accepted (max_x max_y : option float)
           (base_block : list (float * float)) (dx dy : float) (k : Z) : Prop :=
  exists g, candidate base_block dx dy k = Ok g
            /\ forallb (within max_x max_y) g = true.

Definition rejected (max_x max_y : option float)
           (base_block : list (float * float)) (dx dy : float) (k : Z) : Prop :=
  exists g, candidate base_block dx dy k = Ok g
            /\ forallb (within max_x max_y) g = false.

(** The whole groups [k], [k + 1], ..., [n] of them, appended move by move
    with [add_or_merge_line]; no result when an append raises. *)
Fixpoint append_groups (base_block : list (float * float)) (dx dy : float)
         (n : nat) (k : Z) (lines : list string) : option (list string) :=
  match n with
  | O => Some lines
  | S n' =>
      match candidate base_block dx dy k with
      | Ok g =>
          match add_all g lines with
          | (lines', None) =>
              append_groups base_block dx dy n' (k + 1) lines'
          | (_, Some _) => None
          end
      | Raise _ => None
      end
  end.

(** The offset is zero, of either sign. *)
Definition is_zero (v : float) : bool :=
  match v with S754_zero _ => true | _ => false end.


(** ** Handlers *)

(** The handler returned early, with or without a message. *)
Definition rejection {A : Type} (o : outcome A) : bool :=
  match o with
  | Warned _ | Failed _ | Skipped => true
  | _ => false
  end.

Definition is_done {A : Type} (o : outcome A) : bool :=
  match o with Done _ => true | _ => false end.

(** [float(s)] raises. *)
Definition unparsable (s : string) : Prop :=
  exists e, Flt.of_string s = Raise e.

(** What every handler keeps to, from the state [st] it starts in to the
    pair [r] of the state and outcome it ends with: a handler that returns
    early has changed nothing, neither the records nor the snapshot; one
    that runs to its end has left in the snapshot the records it started
    from. *)
Definition validates_then_snapshots {A : Type} (st : state)
           (r : state * outcome A) : Prop :=
  (rejection (snd r) = true -> fst r = st)
  /\ (is_done (snd r) = true -> last_snapshot (fst r) = Some (gcode_lines st)).

(** ** Export *)

Definition tab : ascii := ascii_of_nat 9.
Definition newline : ascii := ascii_of_nat 10.

(** The record has a feed field: an [F] preceded by whitespace, a blank or
    a tab. *)
Definition has_feed_field (record : string) : Prop :=
  exists pre c post,
    record = pre ++ String c ("F" ++ post) /\ (c = " "%char \/ c = tab).

(** ** Canonical numbers *)

(** The test of [fmt_number] for a value next to its integer part. *)
Definition near_int (v fi : float) : bool :=
  Flt.ltb (Flt.abs (Flt.sub v fi)) (Flt.of_decimal false 1 (-9)).

(** Every character of the text satisfies [p]. *)
Fixpoint all_chars (p : ascii -> bool) (s : string) : bool :=
  match s with
  | EmptyString => true
  | String a r => p a && all_chars p r
  end.

(** A decimal numeral: an optional minus sign, at least one digit, and
    possibly a point followed by at least one digit. *)
Definition decimal_text (s : string) : Prop :=
  exists sg ip fp,
    s = Flt.sign_text sg ++ ip
        ++ (if Str.is_empty fp then "" else String "." fp)
    /\ Str.is_empty ip = false
    /\ all_chars Str.is_digit ip = true
    /\ all_chars Str.is_digit fp = true.

(** The record written for two canonical texts. *)
Definition record_of (fx fy : string) : string :=
  "G1 X" ++ fx ++ " Y" ++ fy.

(** The characters of a decimal numeral. *)
Definition numeral_char (c : ascii) : bool :=
  Str.is_digit c || Ascii.eqb c "-" || Ascii.eqb c ".".

(** ** Vocabulary for the handlers as a whole *)

(** The moves read from the lines that parse, in their order. *)
Fixpoint moves_of (lines : list string) : list (float * float) :=
  match lines with
  | [] => []
  | l :: rest =>
      match parse_g1_xy l with
      | Ok (Some m) => m :: moves_of rest
      | _ => moves_of rest
      end
  end.

(** The number of lines from which no move is read. *)
Fixpoint unread (lines : list string) : nat :=
  match lines with
  | [] => O
  | l :: rest =>
      match parse_g1_xy l with
      | Ok (Some _) => unread rest
      | _ => S (unread rest)
      end
  end.

(** The records whose position, counted from [i], is not selected. *)
Fixpoint unselected (sel : list nat) (i : nat) (lines : list string)
  : list string :=
  match lines with
  | [] => []
  | l :: rest =>
      if existsb (Nat.eqb i) sel then unselected sel (S i) rest
      else l :: unselected sel (S i) rest
  end.

(** A selection as the list box gives it: strictly increasing. *)
Fixpoint increasing (sel : list nat) : Prop :=
  match sel with
  | [] => True
  | i :: rest => (forall k, In k rest -> (i < k)%nat) /\ increasing rest
  end.

(** The same, read from the highest index down. *)
Fixpoint decreasing (sel : list nat) : Prop :=
  match sel with
  | [] => True
  | i :: rest => (forall k, In k rest -> (k < i)%nat) /\ decreasing rest
  end.

(** The last token that satisfies [p]. *)
Fixpoint last_with (p : string -> bool) (ts : list string) : option string :=
  match ts with
  | [] => None
  | t :: rest =>
      match last_with p rest with
      | Some u => Some u
      | None => if p t then Some t else None
      end
  end.

(** The value read after the letter of a token, when there is one. *)
Definition token_value (t : option string) (default : option float)
  : option float :=
  match t with
  | Some t =>
      match Flt.of_string (Str.tail t) with
      | Ok v => Some v
      | Raise _ => None
      end
  | None => default
  end.

(** A line as [readlines] gives it back: with its newline. *)
Definition with_newline (l : string) : string := l ++ String newline "".

(** The offset text gives the offset 0: it does not read as a float, so
    that [parse_float] falls back on [0.0], or it reads as a zero. *)
Definition zero_offset (s : string) : Prop :=
  unparsable s \/ exists v, Flt.of_string s = Ok v /\ is_zero v = true.

(** From [old] to [new] every record but the last one is where it was,
    and none has gone. *)
Definition keeps_records (old new : list string) : Prop :=
  firstn (List.length old - 1) new = firstn (List.length old - 1) old
  /\ (List.length old <= List.length new)%nat.

(** The move read from the body of a line: what [parse_g1_xy] does once
    the comment is cut and the line trimmed. *)
Definition move_of_body (s : string) : result (option (float * float)) :=
  if Str.is_empty s then Ok None
  else if spindle s then Ok None
  else
    step <- scan_tokens (tokens s) (None, None) ;;
    match step with
    | Return r => Ok r
    | Next (Some x_val, Some y_val) => Ok (Some (x_val, y_val))
    | Next _ => Ok None
    end.

(** A word that the parser passes over: no separator and no comment sign
    in it, and no [X] or [Y] at its head. *)
Definition inert_word (w : string) : Prop :=
  all_chars (fun c => negb (is_separator c) && negb (comment_start c)) w
  = true
  /\ is_xy_token w = false.

(** A character at which a text file breaks its lines. *)
Definition is_line_end (c : ascii) : bool :=
  Ascii.eqb c newline || Ascii.eqb c (ascii_of_nat 13).

(** The record holds no line end. *)
Definition one_line (l : string) : bool :=
  all_chars (fun c => negb (is_line_end c)) l.

(** A limit that no coordinate exceeds: none, NaN or plus infinity. *)
Definition unreachable (bound : option float) : bool :=
  match bound with
  | None => true
  | Some S754_nan => true
  | Some (S754_infinity false) => true
  | Some _ => false
  end.

(** A number in the proper sense: not NaN and not infinite. *)
Definition is_finite (v : float) : bool :=
  negb (Flt.is_nan v) && negb (Flt.is_inf v).

(** ** Trimming, in the words of the specification *)

(** [t] is [s] trimmed: what is left of [s] once the whitespace at its two
    ends is taken away.  Said without the function that does it: [s] is
    [t] between two runs of whitespace, and [t] neither begins nor ends
    with whitespace. *)
Definition trimmed (s t : string) : Prop :=
  exists l r,
    s = l ++ t ++ r
    /\ all_chars Str.is_space l = true
    /\ all_chars Str.is_space r = true
    /\ (forall c u, t = String c u -> Str.is_space c = false)
    /\ (forall u c, t = u ++ String c "" -> Str.is_space c = false).

(** ** Numerals, in the words of the specification *)

(** The ten digits. *)
Definition digit (c : ascii) : bool :=
  existsb (Ascii.eqb c)
          ["0"; "1"; "2"; "3"; "4"; "5"; "6"; "7"; "8"; "9"]%char.

(** A run of digits, possibly empty. *)
Definition digits (s : string) : Prop := all_chars digit s = true.

(** Nothing, a plus or a minus. *)
Definition sign_mark (s : string) : Prop := s = "" \/ s = "+" \/ s = "-".

(** Digits with at most one point among them, before, between or after
    them, and at least one digit. *)
Definition mantissa (s : string) : Prop :=
  exists ip fp,
    digits ip /\ digits fp
    /\ ((s = ip /\ ip <> "")
        \/ (s = ip ++ String "." fp /\ (ip <> "" \/ fp <> ""))).

(** Nothing, or [e] or [E], a sign mark and at least one digit. *)
Definition exponent_part (s : string) : Prop :=
  s = ""
  \/ exists c sg ds,
      s = String c (sg ++ ds)
      /\ (c = "e"%char \/ c = "E"%char)
      /\ sign_mark sg /\ digits ds /\ ds <> "".

(** A real number written in decimal: a sign mark, a mantissa and an
    exponent part.  This is the well-formed numeric text of the
    specification. *)
Definition real_numeral (s : string) : Prop :=
  exists sg m ex,
    s = sg ++ m ++ ex /\ sign_mark sg /\ mantissa m /\ exponent_part ex.

(** The capital of a small letter. *)
Definition capital (a : ascii) : ascii :=
  ascii_of_nat (nat_of_ascii a - 32).

(** [s] is the word [w], written in small letters, in any mix of small
    letters and capitals. *)
Fixpoint spells (w s : string) : bool :=
  match w, s with
  | EmptyString, EmptyString => true
  | String a w', String b s' =>
      (Ascii.eqb b a || Ascii.eqb b (capital a)) && spells w' s'
  | _, _ => false
  end.

(** What [float] reads besides the real numbers: a sign mark and one of
    the words [inf], [infinity] and [nan]. *)
Definition special_value (s : string) : Prop :=
  exists sg w,
    s = sg ++ w /\ sign_mark sg
    /\ (spells "inf" w = true \/ spells "infinity" w = true
        \/ spells "nan" w = true).

Fixpoint without_underscores (s : string) : string :=
  match s with
  | EmptyString => EmptyString
  | String a r =>
      if Ascii.eqb a "_" then without_underscores r
      else String a (without_underscores r)
  end.

(** Every underscore of the text stands between two digits. *)
Definition underscores_between_digits (s : string) : Prop :=
  forall a b,
    s = a ++ String "_" b ->
    (exists a' d, a = a' ++ String d "" /\ digit d = true)
    /\ (exists d b', b = String d b' /\ digit d = true).

(** The texts that [float] reads: a real numeral or a special value, in
    which underscores may stand between digits. *)
Definition float_literal (s : string) : Prop :=
  underscores_between_digits s
  /\ (real_numeral (without_underscores s)
      \/ special_value (without_underscores s)).

(** ** The parser, in the words of the specification *)

(** The token without its first letter. *)
Definition remainder (t : string) : string :=
  match t with
  | EmptyString => EmptyString
  | String _ r => r
  end.

(** The condition under which a line yields a move, for a given notion
    [numeric] of a well-formed numeric remainder: once the comment is cut
    and the line trimmed, it does not begin with M3 or M5, the remainder of
    every X and Y token is numeric, and there are an X and a Y token. *)
Definition yields_move_with (numeric : string -> Prop) (line : string)
  : Prop :=
  exists s,
    trimmed (strip_comment line) s
    /\ spindle s = false
    /\ (forall t, In t (tokens s) -> is_xy_token t = true ->
                  numeric (remainder t))
    /\ (exists t, In t (tokens s) /\ is_x_token t = true)
    /\ (exists t, In t (tokens s) /\ is_y_token t = true).

(** As the specification states it: the remainders are real numbers. *)
Definition claimed_move : string -> Prop := yields_move_with real_numeral.

(** As the code has it: the remainders are what [float] reads. *)
Definition yields_move : string -> Prop := yields_move_with float_literal.

(** ** The reader of [float], step by step *)

(** The head of the text does not satisfy [p]. *)
Definition head_not (p : ascii -> bool) (s : string) : Prop :=
  match s with
  | EmptyString => True
  | String c _ => p c = false
  end.

(** The test of the reader for the special values. *)
Definition special_test (body : string) : bool :=
  String.eqb (Str.lower body) "inf"
  || String.eqb (Str.lower body) "infinity"
  || String.eqb (Str.lower body) "nan".

(** What the reader accepts once the underscores are removed. *)
Definition plain_test (u : string) : bool :=
  let body := snd (Flt.split_sign u) in
  special_test body
  || match Flt.parse_decimal body with Some _ => true | None => false end.

(** The underscores of [t] stand between digits, [prev] being the
    character before [t], if any. *)
Definition underscores_after (prev : option ascii) (t : string) : Prop :=
  (prev = Some "_"%char -> exists d b', t = String d b' /\ digit d = true)
  /\ forall a b,
      t = a ++ String "_" b ->
      match a with
      | EmptyString => exists p, prev = Some p /\ digit p = true
      | _ => exists a' d, a = a' ++ String d "" /\ digit d = true
      end
      /\ (exists d b', b = String d b' /\ digit d = true).
(* ===================================================================== *)
(** * Properties *)

(** ** Exceptions of the helpers *)

Lemma of_string_raises_value_error (s : string) (e : exn) :
  Flt.of_string s = Raise e -> e = ValueError.
Proof.
  unfold Flt.of_string.
  destruct (negb (Flt.underscores_ok None (Flt.float_strip s))); [congruence|].
  destruct (Flt.split_sign _) as [sx body].
  destruct (_ || _); [discriminate|].
  destruct (String.eqb _ _); [discriminate|].
  destruct (Flt.parse_decimal body) as [[m e10]|]; congruence.
Qed.

Lemma split_once_nonempty (c : ascii) (s : string) :
  exists x rest, Str.split_once c s = x :: rest.
Proof.
  induction s as [|a r IH]; simpl; [eauto|].
  destruct (Ascii.eqb a c); [eauto|].
  destruct IH as (x & rest & ->); eauto.
Qed.

Lemma cut_at_ok (c : ascii) (line : string) :
  exists l, cut_at c line = Ok l.
Proof.
  unfold cut_at. destruct (Str.contains_char c line); [|eauto].
  destruct (split_once_nonempty c line) as (x & rest & ->); simpl; eauto.
Qed.

Lemma scan_token_ok (token : string) (vals : xy_vals) :
  exists step, scan_token token vals = Ok step.
Proof.
  unfold scan_token.
  destruct (Str.startswith _ "X");
    [|destruct (Str.startswith _ "Y"); [|eauto]];
    (destruct (Flt.of_string (Str.tail token)) as [v|e] eqn:E; simpl;
     [eauto | rewrite (of_string_raises_value_error _ _ E); eauto]).
Qed.

Lemma scan_tokens_ok (tokens : list string) :
  forall vals, exists step, scan_tokens tokens vals = Ok step.
Proof.
  induction tokens as [|t rest IH]; intros vals; simpl; [eauto|].
  destruct (scan_token_ok t vals) as (step & ->); simpl.
  destruct step as [vals'|r]; [apply IH | eauto].
Qed.

Lemma parse_g1_xy_ok (line : string) :
  exists r, parse_g1_xy line = Ok r.
Proof.
  unfold parse_g1_xy.
  destruct (cut_at_ok ";" line) as (l1 & ->); simpl.
  destruct (cut_at_ok "#" l1) as (l2 & ->); simpl.
  destruct (Str.is_empty (Str.strip l2)); [eauto|].
  destruct (_ || _); [eauto|].
  destruct (scan_tokens_ok
              (Str.split (Str.replace_char "," " " (Str.strip l2)))
              (None, None)) as (step & ->); simpl.
  destruct step as [[[x|] [y|]]|r]; eauto.
Qed.

(** ** The parser against its specification *)

Lemma split_once_head (c : ascii) (s : string) :
  exists rest, Str.split_once c s = take_until c s :: rest.
Proof.
  induction s as [|a r IH]; simpl; [eauto|].
  destruct (Ascii.eqb a c); [eauto|].
  destruct IH as (rest & ->); eauto.
Qed.

Lemma take_until_absent (c : ascii) (s : string) :
  Str.contains_char c s = false -> take_until c s = s.
Proof.
  induction s as [|a r IH]; simpl; [reflexivity|].
  destruct (Ascii.eqb a c); simpl; [discriminate|].
  intros H; now rewrite IH.
Qed.

Lemma cut_at_take_until (c : ascii) (line : string) :
  cut_at c line = Ok (take_until c line).
Proof.
  unfold cut_at. destruct (Str.contains_char c line) eqn:E.
  - destruct (split_once_head c line) as (rest & ->); reflexivity.
  - now rewrite take_until_absent.
Qed.

Lemma take_until_twice (s : string) :
  take_until "#" (take_until ";" s) = strip_comment s.
Proof.
  induction s as [|a r IH]; simpl; [reflexivity|].
  unfold comment_start.
  destruct (Ascii.eqb a ";") eqn:E1; simpl; [reflexivity|].
  destruct (Ascii.eqb a "#") eqn:E2; simpl; [reflexivity|].
  now rewrite IH.
Qed.

Lemma split_replace_from (s : string) :
  forall cur,
    Str.split_from cur (Str.replace_char "," " " s) = tokens_from cur s.
Proof.
  induction s as [|a r IH]; intros cur; simpl; [reflexivity|].
  unfold is_separator.
  destruct (Ascii.eqb a ",") eqn:E; simpl.
  - rewrite orb_true_r. unfold Str.replace_char in IH.
    destruct cur; now rewrite IH.
  - rewrite orb_false_r. unfold Str.replace_char in IH.
    destruct (Str.is_space a); [destruct cur|]; now rewrite IH.
Qed.

Lemma split_replace (s : string) :
  Str.split (Str.replace_char "," " " s) = tokens s.
Proof. apply split_replace_from. Qed.

Ltac by_bits a :=
  let b0 := fresh in let b1 := fresh in let b2 := fresh in
  let b3 := fresh in let b4 := fresh in let b5 := fresh in
  let b6 := fresh in let b7 := fresh in
  destruct a as [b0 b1 b2 b3 b4 b5 b6 b7];
  destruct b0, b1, b2, b3, b4, b5, b6, b7; reflexivity.

Lemma upper_char_X (a : ascii) :
  Ascii.eqb (Str.upper_char a) "X" = Ascii.eqb a "X" || Ascii.eqb a "x".
Proof. by_bits a. Qed.

Lemma upper_char_Y (a : ascii) :
  Ascii.eqb (Str.upper_char a) "Y" = Ascii.eqb a "Y" || Ascii.eqb a "y".
Proof. by_bits a. Qed.

Lemma upper_char_M (a : ascii) :
  Ascii.eqb (Str.upper_char a) "M" = Ascii.eqb a "M" || Ascii.eqb a "m".
Proof. by_bits a. Qed.

Lemma upper_char_3 (a : ascii) :
  Ascii.eqb (Str.upper_char a) "3" = Ascii.eqb a "3".
Proof. by_bits a. Qed.

Lemma upper_char_5 (a : ascii) :
  Ascii.eqb (Str.upper_char a) "5" = Ascii.eqb a "5".
Proof. by_bits a. Qed.

Lemma startswith_upper_X (t : string) :
  Str.startswith (Str.upper t) "X" = is_x_token t.
Proof.
  destruct t as [|a r]; simpl; [reflexivity|].
  now rewrite upper_char_X, andb_true_r.
Qed.

Lemma startswith_upper_Y (t : string) :
  Str.startswith (Str.upper t) "Y" = is_y_token t.
Proof.
  destruct t as [|a r]; simpl; [reflexivity|].
  now rewrite upper_char_Y, andb_true_r.
Qed.

Lemma startswith_upper_spindle (s : string) :
  Str.startswith (Str.upper s) "M3" || Str.startswith (Str.upper s) "M5"
  = spindle s.
Proof.
  destruct s as [|a [|b r]]; simpl.
  - reflexivity.
  - now rewrite !andb_false_r.
  - rewrite upper_char_M, upper_char_3, upper_char_5, !andb_true_r.
    now rewrite <- andb_orb_distrib_r.
Qed.

(** One token of the loop, by the kind of the token. *)
Lemma scan_token_other (t : string) (vals : xy_vals) :
  is_xy_token t = false -> scan_token t vals = Ok (Next vals).
Proof.
  unfold is_xy_token, scan_token.
  rewrite startswith_upper_X, startswith_upper_Y.
  intros H. apply orb_false_elim in H as [-> ->]. reflexivity.
Qed.

Lemma scan_token_x (t : string) (vals : xy_vals) :
  is_x_token t = true ->
  scan_token t vals =
    match Flt.of_string (Str.tail t) with
    | Ok v => Ok (Next (Some v, snd vals))
    | Raise _ => Ok (Return None)
    end.
Proof.
  unfold scan_token. rewrite startswith_upper_X. intros ->.
  destruct (Flt.of_string (Str.tail t)) as [v|e] eqn:E; simpl; [reflexivity|].
  now rewrite (of_string_raises_value_error _ _ E).
Qed.

Lemma is_x_not_y (t : string) : is_x_token t = true -> is_y_token t = false.
Proof.
  destruct t as [|a r]; simpl; [discriminate|]. revert a.
  intros [[] [] [] [] [] [] [] []]; simpl; congruence.
Qed.

Lemma scan_token_y (t : string) (vals : xy_vals) :
  is_y_token t = true ->
  scan_token t vals =
    match Flt.of_string (Str.tail t) with
    | Ok v => Ok (Next (fst vals, Some v))
    | Raise _ => Ok (Return None)
    end.
Proof.
  unfold scan_token. rewrite startswith_upper_X, startswith_upper_Y.
  intros H. destruct (is_x_token t) eqn:X.
  - apply is_x_not_y in X. congruence.
  - rewrite H.
    destruct (Flt.of_string (Str.tail t)) as [v|e] eqn:E; simpl; [reflexivity|].
    now rewrite (of_string_raises_value_error _ _ E).
Qed.

(** The token loop goes through exactly when every X or Y token has a
    numeric remainder, and then it has a value for X (for Y) when it had
    one before or met an X (a Y) token. *)
Lemma scan_tokens_next (ts : list string) :
  forall vals vx vy,
    scan_tokens ts vals = Ok (Next (vx, vy)) ->
    (forall t, In t ts -> is_xy_token t = true -> reads_as_float t)
    /\ is_some vx = is_some (fst vals) || existsb is_x_token ts
    /\ is_some vy = is_some (snd vals) || existsb is_y_token ts.
Proof.
  induction ts as [|t rest IH]; intros [x y] vx vy; simpl.
  - intros [= <- <-]. rewrite !orb_false_r. repeat split. intros t [].
  - destruct (is_x_token t) eqn:X; [|destruct (is_y_token t) eqn:Y].
    + rewrite (scan_token_x _ _ X). pose proof (is_x_not_y _ X) as Y.
      destruct (Flt.of_string (Str.tail t)) as [v|e] eqn:E; simpl;
        [|discriminate].
      intros H. apply IH in H as (Hall & Hx & Hy). simpl in Hx, Hy.
      rewrite Y. rewrite Hx, Hy, !orb_true_r. simpl. repeat split.
      intros t' [<-|Hin] Hxy; [exists v; exact E | now apply Hall].
    + rewrite (scan_token_y _ _ Y).
      destruct (Flt.of_string (Str.tail t)) as [v|e] eqn:E; simpl;
        [|discriminate].
      intros H. apply IH in H as (Hall & Hx & Hy). simpl in Hx, Hy.
      rewrite Hx, Hy, !orb_true_r. simpl. repeat split.
      intros t' [<-|Hin] Hxy; [exists v; exact E | now apply Hall].
    + rewrite scan_token_other by (unfold is_xy_token; now rewrite X, Y).
      simpl. intros H. apply IH in H as (Hall & Hx & Hy). simpl in Hx, Hy.
      rewrite Hx, Hy. repeat split.
      intros t' [<-|Hin] Hxy; [|now apply Hall].
      unfold is_xy_token in Hxy. rewrite X, Y in Hxy. discriminate.
Qed.

Lemma scan_tokens_return (ts : list string) :
  forall vals r,
    scan_tokens ts vals = Ok (Return r) ->
    r = None
    /\ exists t, In t ts /\ is_xy_token t = true /\ ~ reads_as_float t.
Proof.
  induction ts as [|t rest IH]; intros vals r; simpl; [discriminate|].
  destruct (is_x_token t) eqn:X; [|destruct (is_y_token t) eqn:Y].
  - rewrite (scan_token_x _ _ X).
    destruct (Flt.of_string (Str.tail t)) as [v|e] eqn:E; simpl.
    + intros H. apply IH in H as (-> & t' & Hin & Hxy & Hn). eauto 6.
    + intros [= <-]. split; [reflexivity|]. exists t.
      unfold is_xy_token. rewrite X. repeat split; auto.
      intros (v & Hv). congruence.
  - rewrite (scan_token_y _ _ Y).
    destruct (Flt.of_string (Str.tail t)) as [v|e] eqn:E; simpl.
    + intros H. apply IH in H as (-> & t' & Hin & Hxy & Hn). eauto 6.
    + intros [= <-]. split; [reflexivity|]. exists t.
      unfold is_xy_token. rewrite X, Y. repeat split; auto.
      intros (v & Hv). congruence.
  - rewrite scan_token_other by (unfold is_xy_token; now rewrite X, Y).
    simpl. intros H. apply IH in H as (-> & t' & Hin & Hxy & Hn). eauto 6.
Qed.

(** [parse_g1_xy] through the vocabulary of the specification. *)
Lemma parse_g1_xy_body (line : string) :
  parse_g1_xy line =
    let s := body_of line in
    if Str.is_empty s then Ok None
    else if spindle s then Ok None
    else
      step <- scan_tokens (tokens s) (None, None) ;;
      match step with
      | Return r => Ok r
      | Next (Some x_val, Some y_val) => Ok (Some (x_val, y_val))
      | Next _ => Ok None
      end.
Proof.
  unfold parse_g1_xy, body_of.
  rewrite cut_at_take_until. cbn [bind].
  rewrite cut_at_take_until. cbn [bind].
  rewrite take_until_twice, startswith_upper_spindle, split_replace.
  reflexivity.
Qed.

(** ** Merge on append *)

Lemma item_from_end_last (pre : list string) (b : string) :
  item_from_end (pre ++ [b])%list 1 = Ok b.
Proof.
  unfold item_from_end. rewrite length_app. cbn [List.length].
  replace (1 <=? List.length pre + 1)%nat with true
    by (symmetry; apply Nat.leb_le; lia).
  rewrite nth_error_app2 by lia.
  now replace (List.length pre + 1 - 1 - List.length pre)%nat with 0%nat by lia.
Qed.

Lemma item_from_end_before_last (pre : list string) (a b : string) :
  item_from_end (pre ++ [a; b])%list 2 = Ok a.
Proof.
  unfold item_from_end. rewrite length_app. cbn [List.length].
  replace (2 <=? List.length pre + 2)%nat with true
    by (symmetry; apply Nat.leb_le; lia).
  rewrite nth_error_app2 by lia.
  now replace (List.length pre + 2 - 2 - List.length pre)%nat with 0%nat by lia.
Qed.

Lemma set_last_app (pre : list string) (b t : string) :
  set_last (pre ++ [b])%list t = Ok (pre ++ [t])%list.
Proof.
  unfold set_last. rewrite removelast_last.
  destruct (pre ++ [b])%list eqn:E; [|reflexivity].
  now destruct pre.
Qed.

Lemma last_two_cases (l : list string) :
  l = [] \/ (exists a, l = [a])
  \/ exists pre a b, l = (pre ++ [a; b])%list.
Proof.
  destruct l as [|x l] using rev_ind; [auto|].
  destruct l as [|y l _] using rev_ind.
  - right. left. exists x. reflexivity.
  - right. right. exists l, y, x. now rewrite <- app_assoc.
Qed.

Lemma last_two_inj (pre pre' : list string) (a b a' b' : string) :
  (pre ++ [a; b])%list = (pre' ++ [a'; b'])%list ->
  pre = pre' /\ a = a' /\ b = b'.
Proof.
  change [a; b] with ([a] ++ [b])%list.
  change [a'; b'] with ([a'] ++ [b'])%list.
  rewrite !app_assoc. intros H.
  apply app_inj_tail in H as [H ->].
  apply app_inj_tail in H as [-> ->]. auto.
Qed.

Lemma merge_test_true (xn yn : float) (a b : string) :
  merge_test xn yn a b = true <->
  (has_y a yn /\ has_y b yn) \/ (has_x a xn /\ has_x b xn).
Proof.
  unfold merge_test, has_y, has_x.
  destruct (parse_g1_xy b) as [[[bx by_]|]|e];
    destruct (parse_g1_xy a) as [[[ax ay]|]|e']; simpl;
    try (split; [discriminate|];
         intros [[(? & ? & H1 & _) (? & ? & H2 & _)]
                |[(? & ? & H1 & _) (? & ? & H2 & _)]]; discriminate).
  rewrite orb_true_iff, !andb_true_iff. split.
  - intros [[H1 H2]|[H1 H2]]; [left|right]; eauto 8.
  - intros [[(? & ? & [= <- <-] & H1) (? & ? & [= <- <-] & H2)]
           |[(? & ? & [= <- <-] & H1) (? & ? & [= <- <-] & H2)]]; auto.
Qed.

Lemma add_or_merge_line_short (xn yn : float) (t : string)
      (lines : list string) :
  new_text xn yn = Ok t ->
  (List.length lines < 2)%nat ->
  add_or_merge_line xn yn lines = Ok (lines ++ [t])%list.
Proof.
  intros Ht Hlen. unfold add_or_merge_line. rewrite Ht. cbn [bind].
  destruct lines as [|a [|b l]]; simpl in Hlen; try lia.
  - reflexivity.
  - change (item_from_end [a] 1) with (item_from_end ([] ++ [a])%list 1).
    rewrite item_from_end_last. simpl.
    destruct (parse_g1_xy_ok a) as ([m|] & ->); reflexivity.
Qed.

Lemma add_or_merge_line_long (xn yn : float) (t : string)
      (pre : list string) (a b : string) :
  new_text xn yn = Ok t ->
  add_or_merge_line xn yn (pre ++ [a; b])%list =
    if merge_test xn yn a b then Ok (pre ++ [a; t])%list
    else Ok ((pre ++ [a; b]) ++ [t])%list.
Proof.
  intros Ht. unfold add_or_merge_line, merge_test. rewrite Ht. cbn [bind].
  assert (H1 : (1 <=? List.length (pre ++ [a; b])%list)%nat = true)
    by (apply Nat.leb_le; rewrite length_app; simpl; lia).
  assert (H2 : (2 <=? List.length (pre ++ [a; b])%list)%nat = true)
    by (apply Nat.leb_le; rewrite length_app; simpl; lia).
  rewrite H1, H2, item_from_end_before_last.
  change [a; b] with ([a] ++ [b])%list at 1. rewrite app_assoc.
  rewrite item_from_end_last. cbn [bind].
  assert (Hset : set_last (pre ++ [a; b])%list t = Ok (pre ++ [a; t])%list).
  { change [a; b] with ([a] ++ [b])%list.
    change [a; t] with ([a] ++ [t])%list.
    rewrite !app_assoc. apply set_last_app. }
  rewrite <- app_assoc. simpl app at 1.
  destruct (parse_g1_xy_ok b) as ([last|] & ->); cbn [bind];
    destruct (parse_g1_xy_ok a) as ([prev|] & ->); cbn [bind];
    try reflexivity.
  rewrite Hset.
  destruct (_eq (snd last) yn && _eq (snd prev) yn); simpl; [reflexivity|].
  destruct (_eq (fst last) xn && _eq (fst prev) xn); reflexivity.
Qed.

(** ** Loop expansion *)

Section Loop.

Variables (base_block : list (float * float)) (dx dy : float).
Variables (max_x max_y : option float).
Hypothesis base_not_empty : base_block <> [].

Lemma build_group_shifted (k : Z) (kf : float) :
  Flt.of_int k = Ok kf ->
  forall base acc,
    (forallb (within max_x max_y) (shifted base dx dy kf) = true ->
     build_group base dx dy k max_x max_y acc
     = Ok (false, (acc ++ shifted base dx dy kf)%list))
    /\ (forallb (within max_x max_y) (shifted base dx dy kf) = false ->
        exists part,
          build_group base dx dy k max_x max_y acc = Ok (true, part)).
Proof.
  intros Hk base. induction base as [|[x0 y0] rest IH]; intros acc.
  - simpl. rewrite app_nil_r. split; [reflexivity | discriminate].
  - simpl. rewrite Hk. cbn [bind]. unfold within at 1 3. cbn [fst snd].
    destruct (exceeds max_x _); simpl; [split; [discriminate | eauto]|].
    destruct (exceeds max_y _); simpl; [split; [discriminate | eauto]|].
    destruct (IH (acc ++ [(Flt.add x0 (Flt.mul dx kf),
                           Flt.add y0 (Flt.mul dy kf))])%list) as [H1 H2].
    split; [|exact H2].
    intros H. rewrite (H1 H), <- app_assoc. reflexivity.
Qed.

Lemma build_group_raise (k : Z) (e : exn) (acc : list (float * float)) :
  Flt.of_int k = Raise e ->
  build_group base_block dx dy k max_x max_y acc = Raise e.
Proof.
  intros Hk. destruct base_block as [|[x0 y0] rest]; [contradiction|].
  simpl. now rewrite Hk.
Qed.

Lemma shifted_not_nil (kf : float) :
  is_nil (shifted base_block dx dy kf) = false.
Proof.
  destruct base_block; [contradiction | reflexivity].
Qed.

(** One turn of the [while] loop, by the fate of the candidate group. *)
Lemma loop_groups_rejected (fuel : nat) (k : Z) (a : nat)
      (lines : list string) :
  rejected max_x max_y base_block dx dy k ->
  loop_groups (S fuel) base_block dx dy max_x max_y k a lines
  = (lines, Done a).
Proof.
  intros (g & Hg & Hno). unfold candidate in Hg.
  destruct (Flt.of_int k) as [kf|e] eqn:Hk; [|discriminate].
  injection Hg as <-.
  destruct (build_group_shifted k kf Hk base_block []) as [_ H].
  destruct (H Hno) as (part & Hb). simpl. now rewrite Hb.
Qed.

Lemma loop_groups_accepted (fuel : nat) (k : Z) (a : nat)
      (lines : list string) (g : list (float * float)) :
  candidate base_block dx dy k = Ok g ->
  forallb (within max_x max_y) g = true ->
  loop_groups (S fuel) base_block dx dy max_x max_y k a lines
  = match add_all g lines with
    | (lines', Some e) => (lines', Raised e)
    | (lines', None) =>
        loop_groups fuel base_block dx dy max_x max_y (k + 1) (S a) lines'
    end.
Proof.
  intros Hg Hyes. unfold candidate in Hg.
  destruct (Flt.of_int k) as [kf|e] eqn:Hk; [|discriminate].
  injection Hg as <-.
  destruct (build_group_shifted k kf Hk base_block []) as [H _].
  simpl. rewrite (H Hyes). simpl. now rewrite shifted_not_nil.
Qed.

Lemma candidate_cases (k : Z) :
  (exists e, Flt.of_int k = Raise e)
  \/ accepted max_x max_y base_block dx dy k
  \/ rejected max_x max_y base_block dx dy k.
Proof.
  unfold accepted, rejected, candidate.
  destruct (Flt.of_int k) as [kf|e]; [|eauto].
  right. cbn [bind].
  destruct (forallb (within max_x max_y) (shifted base_block dx dy kf)) eqn:E;
    eauto.
Qed.

Lemma accepted_not_rejected (k : Z) :
  accepted max_x max_y base_block dx dy k ->
  rejected max_x max_y base_block dx dy k -> False.
Proof.
  intros (g & Hg & H1) (g' & Hg' & H2). congruence.
Qed.

Lemma loop_groups_done (fuel : nat) :
  forall k a lines lines' r,
    loop_groups fuel base_block dx dy max_x max_y k a lines
    = (lines', Done r) ->
    exists n,
      r = (a + n)%nat /\ (n < fuel)%nat
      /\ (forall i, (i < n)%nat ->
                    accepted max_x max_y base_block dx dy (k + Z.of_nat i))
      /\ rejected max_x max_y base_block dx dy (k + Z.of_nat n)
      /\ append_groups base_block dx dy n k lines = Some lines'.
Proof.
  induction fuel as [|fuel IH]; intros k a lines lines' r; [discriminate|].
  destruct (candidate_cases k) as [(e & Hk)|[Hacc|Hrej]].
  - simpl. rewrite (build_group_raise _ _ _ Hk). discriminate.
  - destruct Hacc as (g & Hg & Hyes).
    rewrite (loop_groups_accepted _ _ _ _ _ Hg Hyes).
    destruct (add_all g lines) as [l1 [e|]] eqn:Hadd; [discriminate|].
    intros H. apply IH in H as (n & -> & Hlt & Hall & Hrej & Happ).
    exists (S n). repeat split.
    + lia.
    + lia.
    + intros [|i] Hi.
      * rewrite Z.add_0_r. exists g. auto.
      * replace (k + Z.of_nat (S i))%Z with (k + 1 + Z.of_nat i)%Z by lia.
        apply Hall. lia.
    + now replace (k + Z.of_nat (S n))%Z with (k + 1 + Z.of_nat n)%Z by lia.
    + simpl. now rewrite Hg, Hadd.
  - rewrite (loop_groups_rejected _ _ _ _ Hrej). intros [= <- <-].
    exists 0%nat. rewrite Z.add_0_r. repeat split; auto; lia.
Qed.

Lemma loop_groups_enough_fuel (n : nat) :
  forall fuel k a lines lines',
    (n < fuel)%nat ->
    (forall i, (i < n)%nat ->
               accepted max_x max_y base_block dx dy (k + Z.of_nat i)) ->
    rejected max_x max_y base_block dx dy (k + Z.of_nat n) ->
    append_groups base_block dx dy n k lines = Some lines' ->
    loop_groups fuel base_block dx dy max_x max_y k a lines
    = (lines', Done (a + n)%nat).
Proof.
  induction n as [|n IH]; intros fuel k a lines lines' Hlt Hall Hrej Happ;
    (destruct fuel as [|fuel]; [lia|]).
  - rewrite Z.add_0_r in Hrej. injection Happ as <-.
    rewrite Nat.add_0_r. now apply loop_groups_rejected.
  - destruct (Hall 0%nat ltac:(lia)) as (g & Hg & Hyes).
    rewrite Z.add_0_r in Hg.
    rewrite (loop_groups_accepted _ _ _ _ _ Hg Hyes).
    simpl in Happ. rewrite Hg in Happ.
    destruct (add_all g lines) as [l1 [e|]]; [discriminate|].
    replace (a + S n)%nat with (S a + n)%nat by lia.
    apply IH; [lia| | |exact Happ].
    + intros i Hi.
      replace (k + 1 + Z.of_nat i)%Z with (k + Z.of_nat (S i))%Z by lia.
      apply Hall. lia.
    + now replace (k + 1 + Z.of_nat n)%Z with (k + Z.of_nat (S n))%Z by lia.
Qed.

End Loop.

(** ** The handlers *)

Lemma parse_float_ok {A : Type} (inj : float -> A) (s : string) (d : A) :
  exists r, parse_float inj s d = Ok r.
Proof.
  unfold parse_float. destruct (Flt.of_string s); simpl; eauto.
Qed.

Lemma parse_float_unparsable {A : Type} (inj : float -> A) (s : string)
      (d : A) :
  unparsable s -> parse_float inj s d = Ok d.
Proof.
  intros (e & H). unfold parse_float. now rewrite H.
Qed.

Lemma parse_base_ok (lines : list string) :
  forall acc, exists r, parse_base lines acc = Ok r.
Proof.
  induction lines as [|l rest IH]; intros acc; simpl; [eauto|].
  destruct (parse_g1_xy_ok l) as ([m|] & ->); cbn [bind]; eauto.
Qed.

(** [loop_block] once its checks are passed: the snapshot, then the
    [while] loop on the records. *)
Lemma loop_block_runs (fuel : nat) (max_x_var max_y_var dx_var dy_var : string)
      (st : state) (base : list (float * float))
      (max_x max_y : option float) (dx dy : float) :
  gcode_lines st <> [] ->
  parse_float Some max_x_var None = Ok max_x ->
  parse_float Some max_y_var None = Ok max_y ->
  is_some max_x || is_some max_y = true ->
  parse_float id dx_var (S754_zero false) = Ok dx ->
  parse_float id dy_var (S754_zero false) = Ok dy ->
  parse_base (gcode_lines st) [] = Ok (Next base) ->
  loop_block fuel max_x_var max_y_var dx_var dy_var st
  = (mkState (fst (loop_groups fuel base dx dy max_x max_y 1 0
                               (gcode_lines st)))
             (Some (gcode_lines st)),
     snd (loop_groups fuel base dx dy max_x max_y 1 0 (gcode_lines st))).
Proof.
  intros Hne Hmx Hmy Hset Hdx Hdy Hbase. unfold loop_block.
  destruct (gcode_lines st) as [|l0 ls] eqn:Hl; [contradiction|].
  rewrite Hmx, Hmy, Hdx, Hdy. cbn [bind].
  assert (Hgo : forall (X : Type) (a b : X),
             match max_x, max_y with None, None => a | _, _ => b end = b).
  { intros X a b. destruct max_x, max_y; try reflexivity; discriminate. }
  rewrite Hgo, Hbase. cbn [snapshot gcode_lines last_snapshot].
  rewrite Hl. now destruct (loop_groups _ _ _ _ _ _ _ _ _).
Qed.

(** ** Offsets that are both zero *)

Lemma gtb_add_mul_zero (x0 d kf b : float) :
  is_zero d = true ->
  Flt.gtb (Flt.add x0 (Flt.mul d kf)) b = true -> Flt.gtb x0 b = true.
Proof.
  destruct d as [s| | |]; try discriminate. intros _.
  unfold Flt.gtb, Flt.add, Flt.mul, SFltb.
  destruct kf as [t|t| |t m e]; simpl;
    destruct x0 as [u|u| |u n f]; simpl; try (destruct b; discriminate);
    try (intros H; exact H);
    destruct u, (xorb s t); simpl; try (intros H; exact H);
    destruct b; auto.
Qed.

Lemma within_shifted_zero (max_x max_y : option float) (dx dy kf : float)
      (base : list (float * float)) :
  is_zero dx = true -> is_zero dy = true ->
  forallb (within max_x max_y) base = true ->
  forallb (within max_x max_y) (shifted base dx dy kf) = true.
Proof.
  intros Hx Hy. induction base as [|[x0 y0] rest IH]; simpl; [reflexivity|].
  intros H. apply andb_true_iff in H as [Hp Hrest].
  rewrite (IH Hrest), andb_true_r.
  unfold within in *. cbn [fst snd] in *.
  apply andb_true_iff in Hp as [H1 H2]. apply andb_true_iff. split.
  - destruct max_x as [b|]; [|reflexivity]. simpl in *.
    destruct (Flt.gtb (Flt.add x0 (Flt.mul dx kf)) b) eqn:E; [|reflexivity].
    apply gtb_add_mul_zero in E; [|exact Hx]. now rewrite E in H1.
  - destruct max_y as [b|]; [|reflexivity]. simpl in *.
    destruct (Flt.gtb (Flt.add y0 (Flt.mul dy kf)) b) eqn:E; [|reflexivity].
    apply gtb_add_mul_zero in E; [|exact Hy]. now rewrite E in H2.
Qed.

(** With both offsets zero and a base inside the bounds, no candidate group
    is ever rejected, so the loop never ends with a count. *)
Lemma loop_groups_zero_offsets (base : list (float * float)) (dx dy : float)
      (max_x max_y : option float) :
  base <> [] ->
  is_zero dx = true -> is_zero dy = true ->
  forallb (within max_x max_y) base = true ->
  forall fuel k a lines lines' r,
    loop_groups fuel base dx dy max_x max_y k a lines <> (lines', Done r).
Proof.
  intros Hne Hx Hy Hin fuel k a lines lines' r H.
  apply (loop_groups_done base dx dy max_x max_y Hne) in H
    as (n & _ & _ & _ & (g & Hg & Hno) & _).
  unfold candidate in Hg.
  destruct (Flt.of_int (k + Z.of_nat n)) as [kf|e]; [|discriminate].
  injection Hg as <-.
  now rewrite (within_shifted_zero max_x max_y dx dy kf base Hx Hy Hin) in Hno.
Qed.

Lemma loop_groups_outcome (fuel : nat) :
  forall base dx dy max_x max_y k a lines,
    let out := snd (loop_groups fuel base dx dy max_x max_y k a lines) in
    out = OutOfFuel \/ (exists e, out = Raised e) \/ (exists r, out = Done r).
Proof.
  induction fuel as [|fuel IH]; intros base dx dy max_x max_y k a lines;
    simpl; [auto|].
  destruct (build_group _ _ _ _ _ _ _) as [[violates g]|e]; simpl; [|eauto].
  destruct (violates || is_nil g); simpl; [eauto|].
  destruct (add_all g lines) as [l1 [e|]]; simpl; [eauto|]. apply IH.
Qed.

(** ** Stripping *)

Lemma rstrip_by_idem (p : ascii -> bool) (s : string) :
  Str.rstrip_by p (Str.rstrip_by p s) = Str.rstrip_by p s.
Proof.
  induction s as [|a r IH]; simpl; [reflexivity|].
  destruct (Str.rstrip_by p r) as [|b r'] eqn:E.
  - destruct (p a) eqn:Pa; simpl; [reflexivity | now rewrite Pa].
  - simpl in *. now rewrite IH.
Qed.

Lemma lstrip_by_head (p : ascii -> bool) (s : string) :
  match Str.lstrip_by p s with
  | EmptyString => True
  | String a _ => p a = false
  end.
Proof.
  induction s as [|a r IH]; simpl; [exact I|].
  destruct (p a) eqn:Pa; [exact IH | exact Pa].
Qed.

Lemma lstrip_by_rstrip_by (p : ascii -> bool) (t : string) :
  match t with EmptyString => True | String a _ => p a = false end ->
  Str.lstrip_by p (Str.rstrip_by p t) = Str.rstrip_by p t.
Proof.
  destruct t as [|a r]; simpl; [reflexivity|]. intros Pa.
  destruct (Str.rstrip_by p r); rewrite ?Pa; simpl; now rewrite Pa.
Qed.

Lemma strip_idem (s : string) : Str.strip (Str.strip s) = Str.strip s.
Proof.
  unfold Str.strip.
  rewrite lstrip_by_rstrip_by by apply lstrip_by_head.
  apply rstrip_by_idem.
Qed.

(** [float] passes over less whitespace than [str.strip] removes. *)
Lemma float_space_is_space (c : ascii) :
  Flt.is_float_space c = true -> Str.is_space c = true.
Proof.
  destruct c as [b0 b1 b2 b3 b4 b5 b6 b7];
    destruct b0, b1, b2, b3, b4, b5, b6, b7; simpl; intros H;
    try reflexivity; discriminate H.
Qed.

Lemma rstrip_by_weaker (p q : ascii -> bool) (s : string) :
  (forall c, q c = true -> p c = true) ->
  Str.rstrip_by q (Str.rstrip_by p s) = Str.rstrip_by p s.
Proof.
  intros Hq. induction s as [|a r IH]; simpl; [reflexivity|].
  destruct (Str.rstrip_by p r) as [|b r'] eqn:E.
  - destruct (p a) eqn:Pa; simpl; [reflexivity|].
    destruct (q a) eqn:Qa; [|reflexivity].
    apply Hq in Qa. congruence.
  - simpl in *. now rewrite IH.
Qed.

(** A text trimmed by [str.strip] has nothing left for [float] to pass
    over. *)
Lemma float_strip_strip (s : string) :
  Flt.float_strip (Str.strip s) = Str.strip s.
Proof.
  unfold Flt.float_strip.
  assert (H : Str.lstrip_by Flt.is_float_space (Str.strip s) = Str.strip s).
  { pose proof (lstrip_by_head Str.is_space (Str.strip s)) as Hh.
    unfold Str.strip in Hh at 1.
    rewrite lstrip_by_rstrip_by in Hh by apply lstrip_by_head.
    fold (Str.strip s) in Hh.
    destruct (Str.strip s) as [|a r]; [reflexivity|]. simpl.
    destruct (Flt.is_float_space a) eqn:F; [|reflexivity].
    apply float_space_is_space in F. congruence. }
  rewrite H. unfold Str.strip.
  apply rstrip_by_weaker, float_space_is_space.
Qed.

(** ** [fmt_number] *)

Lemma to_int_raises (v : float) (e : exn) :
  Flt.to_int v = Raise e -> e = ValueError \/ e = OverflowError.
Proof. destruct v; simpl; intros [= <-]; auto. Qed.

Lemma of_int_raises (k : Z) (e : exn) :
  Flt.of_int k = Raise e -> e = OverflowError.
Proof.
  unfold Flt.of_int. destruct (binary_normalize _ _ _ _ _); congruence.
Qed.

Lemma catch_value_error_raises {A : Type} (body : result A) (x : A) (e : exn) :
  catch_value_error body (Ok x) = Raise e -> body = Raise e /\ e <> ValueError.
Proof.
  destruct body as [a|[]]; simpl; try discriminate;
    intros [= <-]; split; congruence.
Qed.

Lemma fmt_number_raises (s : string) (e : exn) :
  fmt_number s = Raise e -> e = OverflowError.
Proof.
  unfold fmt_number. destruct (Str.is_empty (Str.strip s)); [discriminate|].
  intros H. apply catch_value_error_raises in H as [H Hne].
  destruct (Flt.of_string (Str.strip s)) as [v|e1] eqn:E; cbn [bind] in H.
  2:{ injection H as <-. now apply of_string_raises_value_error in E. }
  destruct (Flt.to_int v) as [i|e2] eqn:Ei; cbn [bind] in H.
  2:{ injection H as <-. apply to_int_raises in Ei as [->| ->]; congruence. }
  destruct (Flt.of_int i) as [fi|e3] eqn:Ef; cbn [bind] in H.
  2:{ injection H as <-. now apply of_int_raises in Ef. }
  destruct (Flt.ltb _ _); discriminate.
Qed.

Lemma fmt_number_unparsable (s : string) :
  unparsable (Str.strip s) -> fmt_number s = Ok "".
Proof.
  intros (e & He). unfold fmt_number.
  destruct (Str.is_empty (Str.strip s)); [reflexivity|].
  rewrite He. cbn [bind].
  now rewrite (of_string_raises_value_error _ _ He).
Qed.

(** ** Validation, snapshot, change: the order in every handler *)

Lemma submit_line_order (x_var y_var : string) (st : state) :
  validates_then_snapshots st (submit_line x_var y_var st).
Proof.
  unfold validates_then_snapshots, submit_line.
  destruct (fmt_number x_var) as [x_txt|e]; [|split; discriminate].
  destruct (fmt_number y_var) as [y_txt|e]; [|split; discriminate].
  destruct (Str.is_empty x_txt || Str.is_empty y_txt);
    [split; [reflexivity | discriminate]|].
  destruct (bind _ _) as [lines|e]; split; simpl; try discriminate;
    reflexivity.
Qed.

Lemma remove_selected_order (sel : list nat) (st : state) :
  validates_then_snapshots st (remove_selected sel st).
Proof.
  unfold validates_then_snapshots, remove_selected.
  destruct sel as [|i sel]; [split; [reflexivity | discriminate]|].
  destruct (del_items _ _) as [lines [e|]]; split; simpl;
    try discriminate; reflexivity.
Qed.

Lemma clear_all_lines_order (confirm : bool) (st : state) :
  validates_then_snapshots st (clear_all_lines confirm st).
Proof.
  unfold validates_then_snapshots, clear_all_lines.
  destruct (gcode_lines st) as [|l ls] eqn:E;
    [split; [reflexivity | discriminate]|].
  destruct confirm; simpl; split; try discriminate; try reflexivity.
  now rewrite E.
Qed.

Lemma load_gcode_order (raw_lines : list string) (do_replace : bool)
      (st : state) :
  validates_then_snapshots st (load_gcode raw_lines do_replace st).
Proof.
  unfold validates_then_snapshots, load_gcode.
  destruct (parse_lines raw_lines [] 0) as [[parsed skipped]|e];
    [|split; discriminate].
  destruct parsed as [|m parsed]; [split; [reflexivity | discriminate]|].
  destruct (add_all _ _) as [lines [e|]]; split; simpl;
    try discriminate; reflexivity.
Qed.

Lemma loop_block_order (fuel : nat)
      (max_x_var max_y_var dx_var dy_var : string) (st : state) :
  validates_then_snapshots
    st (loop_block fuel max_x_var max_y_var dx_var dy_var st).
Proof.
  unfold validates_then_snapshots, loop_block.
  destruct (gcode_lines st) as [|l0 ls] eqn:Hl;
    [split; [reflexivity | discriminate]|].
  destruct (parse_float_ok Some max_x_var None) as (max_x & ->).
  destruct (parse_float_ok Some max_y_var None) as (max_y & ->).
  destruct (parse_float_ok id dx_var (S754_zero false)) as (dx & ->).
  destruct (parse_float_ok id dy_var (S754_zero false)) as (dy & ->).
  cbn [bind].
  assert (Hrun :
    forall base,
      let r := let '(lines, out) :=
                 loop_groups fuel base dx dy max_x max_y 1 0
                             (gcode_lines (snapshot st)) in
               (mkState lines (last_snapshot (snapshot st)), out) in
      (rejection (snd r) = true -> fst r = st)
      /\ (is_done (snd r) = true ->
          last_snapshot (fst r) = Some (l0 :: ls))).
  { intros base.
    pose proof (loop_groups_outcome fuel base dx dy max_x max_y 1 0
                  (gcode_lines (snapshot st))) as H. cbv zeta in H.
    destruct (loop_groups _ _ _ _ _ _ _ _ _) as [lines out].
    simpl in *. rewrite Hl. split; [|reflexivity].
    destruct H as [->|[(e & ->)|(n & ->)]]; discriminate. }
  destruct (parse_base_ok (l0 :: ls) []) as ([base|bad] & ->).
  - destruct max_x, max_y; try apply Hrun.
    split; [reflexivity | discriminate].
  - destruct max_x, max_y; split; try reflexivity; discriminate.
Qed.

(** ** Substrings *)

Lemma startswith_spec (p : string) :
  forall s, Str.startswith s p = true <-> exists post, s = p ++ post.
Proof.
  induction p as [|b p IH]; intros s; simpl.
  - split; [eauto | reflexivity].
  - destruct s as [|a s]; [split; [discriminate | intros (post & H); discriminate]|].
    rewrite andb_true_iff, Ascii.eqb_eq, IH. split.
    + intros [-> (post & ->)]. eauto.
    + intros (post & [= -> ->]). eauto.
Qed.

Lemma contains_spec (p s : string) :
  Str.contains p s = true <-> exists pre post, s = pre ++ p ++ post.
Proof.
  induction s as [|a s IH]; simpl.
  - rewrite orb_false_r, startswith_spec. split.
    + intros (post & H). exists "", post. exact H.
    + intros ([|c pre] & post & H); [eauto | discriminate].
  - rewrite orb_true_iff, startswith_spec, IH. split.
    + intros [(post & H)|(pre & post & ->)].
      * exists "", post. exact H.
      * exists (String a pre), post. reflexivity.
    + intros ([|c pre] & post & H); [left; eauto|].
      right. injection H as -> ->. eauto.
Qed.

Lemma no_feed_spec (first : string) :
  no_feed first = false <-> has_feed_field first.
Proof.
  unfold no_feed, has_feed_field.
  rewrite andb_false_iff, !negb_false_iff, !contains_spec. split.
  - intros [(pre & post & ->)|(pre & post & ->)];
      exists pre; eexists; exists post; simpl; auto.
  - intros (pre & c & post & -> & [-> | ->]); [left|right];
      exists pre, post; reflexivity.
Qed.

(** ** Decimal text of integers *)



Lemma is_empty_eq (s : string) : Str.is_empty s = true -> s = "".
Proof. destruct s; [reflexivity | discriminate]. Qed.

Lemma of_string_blank (s : string) :
  Str.strip s = "" -> Flt.of_string (Str.strip s) = Raise ValueError.
Proof. intros ->. reflexivity. Qed.

(** ** Every move appended by the loop is inside the bounds *)

Lemma add_all_app (a b : list (float * float)) :
  forall lines,
    add_all (a ++ b) lines
    = match add_all a lines with
      | (l1, None) => add_all b l1
      | (l1, Some e) => (l1, Some e)
      end.
Proof.
  induction a as [|[x y] a IH]; intros lines; simpl; [reflexivity|].
  destruct (add_or_merge_line x y lines) as [l1|e]; [apply IH | reflexivity].
Qed.

Lemma build_group_cases (base : list (float * float)) (dx dy : float)
      (max_x max_y : option float) (k : Z) :
  (exists e, build_group base dx dy k max_x max_y [] = Raise e)
  \/ (exists part, build_group base dx dy k max_x max_y [] = Ok (true, part))
  \/ (exists g, build_group base dx dy k max_x max_y [] = Ok (false, g)
                /\ forallb (within max_x max_y) g = true).
Proof.
  destruct (Flt.of_int k) as [kf|e] eqn:Hk.
  - destruct (build_group_shifted dx dy max_x max_y k kf Hk base [])
      as [H1 H2].
    destruct (forallb (within max_x max_y) (shifted base dx dy kf)) eqn:E.
    + right. right. eexists. split; [apply H1; reflexivity | exact E].
    + right. left. apply H2. reflexivity.
  - destruct base as [|[x0 y0] rest].
    + right. right. exists []. split; reflexivity.
    + left. exists e. simpl. now rewrite Hk.
Qed.

Lemma loop_groups_within (base : list (float * float)) (dx dy : float)
      (max_x max_y : option float) (fuel : nat) :
  forall k a lines,
  exists moves,
    forallb (within max_x max_y) moves = true
    /\ fst (loop_groups fuel base dx dy max_x max_y k a lines)
       = fst (add_all moves lines).
Proof.
  induction fuel as [|fuel IH]; intros k a lines.
  - exists []. split; reflexivity.
  - simpl.
    destruct (build_group_cases base dx dy max_x max_y k)
      as [(e & ->)|[(part & ->)|(g & -> & Hg)]].
    + exists []. split; reflexivity.
    + exists []. split; reflexivity.
    + simpl. destruct (is_nil g); [exists []; split; reflexivity|].
      destruct (add_all g lines) as [l1 [e|]] eqn:Hadd.
      * exists g. rewrite Hadd. split; [exact Hg | reflexivity].
      * destruct (IH (k + 1)%Z (S a) l1) as (moves & Hm & Heq).
        exists (g ++ moves)%list. split.
        -- rewrite forallb_app, Hg, Hm. reflexivity.
        -- now rewrite add_all_app, Hadd.
Qed.

(** ** The shape of a canonical number *)

Lemma all_chars_app (p : ascii -> bool) (a b : string) :
  all_chars p (a ++ b) = all_chars p a && all_chars p b.
Proof.
  induction a as [|c a IH]; simpl; [reflexivity|].
  now rewrite IH, andb_assoc.
Qed.

Lemma all_chars_weaken (p q : ascii -> bool) (s : string) :
  (forall c, p c = true -> q c = true) ->
  all_chars p s = true -> all_chars q s = true.
Proof.
  intros Hpq. induction s as [|c s IH]; simpl; [reflexivity|].
  intros H. apply andb_true_iff in H as [Hc Hs].
  now rewrite (Hpq _ Hc), IH.
Qed.

Lemma append_empty_r (s : string) : s ++ "" = s.
Proof. induction s as [|c s IH]; simpl; [reflexivity | now rewrite IH]. Qed.

Lemma append_assoc (a b c : string) : (a ++ b) ++ c = a ++ b ++ c.
Proof. induction a as [|x a IH]; simpl; [reflexivity | now rewrite IH]. Qed.

(** [rstrip] goes through a prefix none of whose characters it strips. *)
Lemma rstrip_by_keep (p : ascii -> bool) (x y : string) :
  all_chars (fun c => negb (p c)) x = true ->
  Str.rstrip_by p (x ++ y) = x ++ Str.rstrip_by p y.
Proof.
  induction x as [|c x IH]; simpl; [reflexivity|].
  intros H. apply andb_true_iff in H as [Hc Hx].
  apply negb_true_iff in Hc. rewrite (IH Hx), Hc.
  now destruct (x ++ Str.rstrip_by p y).
Qed.

(** [rstrip] stops at a character it does not strip. *)
Lemma rstrip_by_at (p : ascii -> bool) (c : ascii) (a b : string) :
  p c = false ->
  Str.rstrip_by p (a ++ String c b) = a ++ String c (Str.rstrip_by p b).
Proof.
  intros Hc. induction a as [|x a IH]; simpl.
  - rewrite Hc. now destruct (Str.rstrip_by p b).
  - rewrite IH. now destruct a.
Qed.

Lemma rstrip_by_all_chars (p q : ascii -> bool) (s : string) :
  all_chars q s = true -> all_chars q (Str.rstrip_by p s) = true.
Proof.
  induction s as [|c s IH]; simpl; [reflexivity|].
  intros H. apply andb_true_iff in H as [Hc Hs]. specialize (IH Hs).
  destruct (Str.rstrip_by p s).
  - destruct (p c); simpl; [reflexivity | now rewrite Hc].
  - simpl in *. now rewrite Hc, IH.
Qed.

Lemma lstrip_by_keep (p : ascii -> bool) (s : string) :
  match s with EmptyString => True | String a _ => p a = false end ->
  Str.lstrip_by p s = s.
Proof. destruct s as [|a r]; simpl; [reflexivity | now intros ->]. Qed.

Lemma string_of_uint_digits (u : Decimal.uint) :
  all_chars Str.is_digit (NilEmpty.string_of_uint u) = true.
Proof. induction u; simpl; auto. Qed.

Lemma str_int_nonneg (k : Z) :
  (0 <= k)%Z ->
  all_chars Str.is_digit (Flt.str_int k) = true
  /\ Str.is_empty (Flt.str_int k) = false.
Proof.
  intros Hk. unfold Flt.str_int.
  destruct k as [|p|p]; [split; reflexivity | | lia].
  simpl. unfold NilZero.string_of_uint.
  destruct (Pos.to_uint p) eqn:E; [split; reflexivity | ..];
    (split; [rewrite <- E; apply string_of_uint_digits | reflexivity]).
Qed.

Lemma str_int_text (k : Z) : decimal_text (Flt.str_int k).
Proof.
  destruct (Z.neg_nonneg_cases k) as [Hneg|Hpos].
  - destruct k as [|p|p]; try lia.
    destruct (str_int_nonneg (Zpos p)) as [Hd Hne]; [lia|].
    exists true, (Flt.str_int (Zpos p)), "". simpl.
    rewrite append_empty_r. auto.
  - destruct (str_int_nonneg k Hpos) as [Hd Hne].
    exists false, (Flt.str_int k), "". simpl.
    rewrite append_empty_r. auto.
Qed.

Lemma digit_differs (x c : ascii) :
  Str.is_digit x = false -> Str.is_digit c = true -> Ascii.eqb x c = false.
Proof.
  intros Hx Hc. destruct (Ascii.eqb_spec x c) as [->|]; congruence.
Qed.

Lemma repeat_zero_digits (n : nat) :
  all_chars Str.is_digit (Str.repeat "0" n) = true.
Proof. induction n; simpl; auto. Qed.

Lemma pad_left_digits (w : nat) (s : string) :
  all_chars Str.is_digit s = true ->
  all_chars Str.is_digit (Flt.pad_left w s) = true.
Proof.
  intros H. unfold Flt.pad_left.
  now rewrite all_chars_app, repeat_zero_digits, H.
Qed.

Lemma sign_text_no_point (sg : bool) :
  all_chars (fun c => negb (Ascii.eqb "." c)) (Flt.sign_text sg) = true.
Proof. now destruct sg. Qed.

Lemma digits_no_point (s : string) :
  all_chars Str.is_digit s = true ->
  all_chars (fun c => negb (Ascii.eqb "." c)) s = true.
Proof.
  apply all_chars_weaken. intros c Hc.
  now rewrite (digit_differs "." c eq_refl Hc).
Qed.

(** Sign, digits, point, digits: once the trailing zeros and then a trailing
    point are stripped, a decimal numeral is left. *)
Lemma stripped_fixed_text (sg : bool) (ip fp : string) :
  Str.is_empty ip = false ->
  all_chars Str.is_digit ip = true ->
  all_chars Str.is_digit fp = true ->
  decimal_text
    (Str.rstrip_char "."
       (Str.rstrip_char "0" (Flt.sign_text sg ++ ip ++ String "." fp))).
Proof.
  intros Hne Hip Hfp. unfold Str.rstrip_char.
  rewrite <- append_assoc.
  rewrite (rstrip_by_at (Ascii.eqb "0") "." _ fp eq_refl).
  pose proof (rstrip_by_all_chars (Ascii.eqb "0") _ fp Hfp) as Hfp'.
  destruct (Str.rstrip_by (Ascii.eqb "0") fp) as [|d fp'] eqn:E.
  - rewrite rstrip_by_keep
      by (rewrite all_chars_app, sign_text_no_point, digits_no_point; auto).
    simpl. rewrite append_empty_r.
    exists sg, ip, "". simpl. rewrite append_empty_r. auto.
  - simpl in Hfp'. apply andb_true_iff in Hfp' as [Hd Hrest].
    change (String "." (String d fp')) with ("." ++ String d fp').
    rewrite <- append_assoc.
    rewrite rstrip_by_at by (apply digit_differs; [reflexivity | exact Hd]).
    replace (Str.rstrip_by (Ascii.eqb ".") fp') with fp'.
    2:{ rewrite <- (append_empty_r fp') at 2.
        rewrite rstrip_by_keep by now apply digits_no_point.
        simpl. now rewrite append_empty_r. }
    exists sg, ip, (String d fp'). simpl. rewrite Hd, Hrest.
    split; [now rewrite !append_assoc | auto].
Qed.

Lemma round_half_even_nonneg (n d : Z) :
  (0 <= n)%Z -> (0 < d)%Z -> (0 <= Flt.round_half_even n d)%Z.
Proof.
  intros Hn Hd. unfold Flt.round_half_even.
  pose proof (Z.div_pos n d Hn Hd) as Hq.
  destruct (2 * (n mod d) ?= d)%Z; [destruct (Z.even _)| |]; lia.
Qed.

Lemma fixed6_stripped_text (v : float) :
  Flt.is_nan v = false -> Flt.is_inf v = false ->
  decimal_text (Str.rstrip_char "." (Str.rstrip_char "0" (Flt.fixed6 v))).
Proof.
  destruct v as [sg|sg| |sg m e]; try discriminate; intros _ _.
  - change (Flt.fixed6 (S754_zero sg))
      with (Flt.sign_text sg ++ "0" ++ String "." "000000").
    now apply stripped_fixed_text.
  - unfold Flt.fixed6.
    set (u := if (0 <=? e)%Z then (Zpos m * 2 ^ e * 10 ^ 6)%Z
              else Flt.round_half_even (Zpos m * 10 ^ 6) (2 ^ (- e))).
    assert (Hu : (0 <= u)%Z).
    { subst u. destruct (0 <=? e)%Z eqn:He.
      - apply Z.leb_le in He.
        pose proof (Z.pow_nonneg 2 e ltac:(lia)). lia.
      - apply Z.leb_gt in He. apply round_half_even_nonneg; [lia|].
        apply Z.pow_pos_nonneg; lia. }
    destruct (str_int_nonneg (u / 10 ^ 6)) as [Hd Hne];
      [apply Z.div_pos; lia|].
    destruct (str_int_nonneg (u mod 10 ^ 6)) as [Hd' _];
      [apply Z.mod_pos_bound; lia|].
    change ("." ++ Flt.pad_left 6 (Flt.str_int (u mod 10 ^ 6)))
      with (String "." (Flt.pad_left 6 (Flt.str_int (u mod 10 ^ 6)))).
    apply stripped_fixed_text; auto using pad_left_digits.
Qed.

(** What [fmt_number] returns, by the value read. *)
Lemma fmt_number_value (s out : string) (v : float) :
  fmt_number s = Ok out ->
  Flt.of_string (Str.strip s) = Ok v ->
  (Flt.is_nan v = true -> out = "")
  /\ (Flt.is_nan v = false ->
      Flt.is_inf v = false
      /\ exists i fi,
          Flt.to_int v = Ok i /\ Flt.of_int i = Ok fi
          /\ (near_int v fi = true -> out = Flt.str_int i)
          /\ (near_int v fi = false ->
              out = Str.rstrip_char "."
                      (Str.rstrip_char "0" (Flt.fixed6 v)))).
Proof.
  intros H Hv. unfold fmt_number in H.
  destruct (Str.is_empty (Str.strip s)) eqn:Hempty.
  { apply is_empty_eq, of_string_blank in Hempty. congruence. }
  rewrite Hv in H. cbn [bind] in H.
  destruct v as [sg|sg| |sg m e]; simpl Flt.to_int in *; cbn [bind] in H;
    [ | discriminate | | ].
  - split; [discriminate|]. intros _. split; [reflexivity|].
    destruct (Flt.of_int 0) as [fi|e0] eqn:Ef; cbn [bind] in H;
      [|apply of_int_raises in Ef as ->; discriminate].
    exists 0%Z, fi. fold (near_int (S754_zero sg) fi) in H.
    split; [reflexivity|]. split; [exact Ef|].
    split; intros Hn; rewrite Hn in H; simpl in H; now injection H as <-.
  - split; [intros _; simpl in H; congruence | discriminate].
  - split; [discriminate|]. intros _. split; [reflexivity|].
    match type of H with
    | context [Flt.of_int ?z] =>
        destruct (Flt.of_int z) as [fi|e0] eqn:Ef; cbn [bind] in H;
        [exists z, fi | apply of_int_raises in Ef as ->; discriminate]
    end.
    fold (near_int (S754_finite sg m e) fi) in H.
    split; [reflexivity|]. split; [exact Ef|].
    split; intros Hn; rewrite Hn in H; simpl in H; now injection H as <-.
Qed.

Lemma fmt_number_empty_or_read (s out : string) :
  fmt_number s = Ok out ->
  out = "" \/ exists v, Flt.of_string (Str.strip s) = Ok v.
Proof.
  intros H. destruct (Flt.of_string (Str.strip s)) as [v|e] eqn:E; [eauto|].
  left. rewrite fmt_number_unparsable in H by (exists e; exact E).
  congruence.
Qed.

(** A canonical number that is not empty is a decimal numeral. *)
Lemma fmt_number_text (s out : string) :
  fmt_number s = Ok out -> Str.is_empty out = false -> decimal_text out.
Proof.
  intros H Hne.
  destruct (fmt_number_empty_or_read s out H) as [->|(v & Hv)];
    [discriminate|].
  destruct (fmt_number_value s out v H Hv) as [Hnan Hnum].
  destruct (Flt.is_nan v) eqn:En.
  { rewrite Hnan in Hne by reflexivity. discriminate. }
  destruct (Hnum eq_refl) as (Hinf & i & fi & _ & _ & Hnear & Hfar).
  destruct (near_int v fi).
  - rewrite Hnear by reflexivity. apply str_int_text.
  - rewrite Hfar by reflexivity. now apply fixed6_stripped_text.
Qed.

(** ** Reading a decimal numeral *)

Lemma numeral_char_plain (c : ascii) :
  numeral_char c = true ->
  Str.is_space c = false /\ Flt.is_underscore c = false
  /\ is_separator c = false /\ comment_start c = false.
Proof.
  destruct c as [[] [] [] [] [] [] [] []]; intros H;
    try discriminate H; repeat split.
Qed.

Lemma decimal_text_chars (s : string) :
  decimal_text s -> all_chars numeral_char s = true.
Proof.
  intros (sg & ip & fp & -> & _ & Hip & Hfp).
  assert (Hd : forall t, all_chars Str.is_digit t = true ->
                         all_chars numeral_char t = true).
  { intros t. apply all_chars_weaken. intros c Hc.
    unfold numeral_char. now rewrite Hc. }
  rewrite !all_chars_app, (Hd _ Hip).
  destruct sg, fp as [|d fp]; simpl in *; rewrite ?(Hd _ Hfp); auto.
  - apply andb_true_iff in Hfp as [H1 H2].
    unfold numeral_char at 1. now rewrite H1, (Hd _ H2).
  - apply andb_true_iff in Hfp as [H1 H2].
    unfold numeral_char at 1. now rewrite H1, (Hd _ H2).
Qed.

Lemma decimal_text_not_empty (s : string) :
  decimal_text s -> Str.is_empty s = false.
Proof.
  intros (sg & [|d ip] & fp & -> & Hne & _); [discriminate|].
  now destruct sg.
Qed.

Lemma strip_plain (s : string) :
  all_chars (fun c => negb (Str.is_space c)) s = true -> Str.strip s = s.
Proof.
  intros H. unfold Str.strip. rewrite lstrip_by_keep.
  - rewrite <- (append_empty_r s) at 1.
    rewrite rstrip_by_keep by exact H. simpl. apply append_empty_r.
  - destruct s as [|a r]; [exact I|]. simpl in H.
    apply andb_true_iff in H as [H _]. now apply negb_true_iff.
Qed.

Lemma float_strip_plain (s : string) :
  all_chars (fun c => negb (Str.is_space c)) s = true ->
  Flt.float_strip s = s.
Proof.
  intros H. rewrite <- (strip_plain s H) at 1.
  rewrite float_strip_strip. now apply strip_plain.
Qed.

Lemma underscores_ok_plain (s : string) :
  all_chars (fun c => negb (Flt.is_underscore c)) s = true ->
  forall prev,
    match prev with Some p => Flt.is_underscore p = false | None => True end ->
    Flt.underscores_ok prev s = true.
Proof.
  induction s as [|a r IH]; simpl; intros H prev Hp.
  - destruct prev; [now rewrite Hp | reflexivity].
  - apply andb_true_iff in H as [Ha Hr]. apply negb_true_iff in Ha.
    rewrite Ha, (IH Hr (Some a) Ha), andb_true_r.
    destruct prev; [now rewrite Hp | reflexivity].
Qed.

Lemma remove_underscores_plain (s : string) :
  all_chars (fun c => negb (Flt.is_underscore c)) s = true ->
  Flt.remove_underscores s = s.
Proof.
  induction s as [|a r IH]; simpl; [reflexivity|]. intros H.
  apply andb_true_iff in H as [Ha Hr]. apply negb_true_iff in Ha.
  now rewrite Ha, IH.
Qed.

Lemma span_all (p : ascii -> bool) (a b : string) :
  all_chars p a = true ->
  Flt.span p (a ++ b) = (a ++ fst (Flt.span p b), snd (Flt.span p b)).
Proof.
  induction a as [|c a IH]; simpl; intros H.
  - now destruct (Flt.span p b).
  - apply andb_true_iff in H as [Hc Ha]. now rewrite Hc, (IH Ha).
Qed.

Lemma digit_first (d : ascii) (r : string) :
  Str.is_digit d = true ->
  Flt.split_sign (String d r) = (false, String d r)
  /\ String.eqb (Str.lower (String d r)) "inf" = false
  /\ String.eqb (Str.lower (String d r)) "infinity" = false
  /\ String.eqb (Str.lower (String d r)) "nan" = false.
Proof.
  destruct d as [[] [] [] [] [] [] [] []]; intros H;
    try discriminate H; repeat split.
Qed.

Lemma parse_decimal_digits (ip fp : string) :
  Str.is_empty ip = false ->
  all_chars Str.is_digit ip = true ->
  all_chars Str.is_digit fp = true ->
  Flt.parse_decimal (ip ++ (if Str.is_empty fp then "" else String "." fp))
  = Some (Flt.digits_val (ip ++ fp), (0 - Z.of_nat (String.length fp))%Z).
Proof.
  intros Hne Hip Hfp. unfold Flt.parse_decimal.
  rewrite (span_all _ ip _ Hip).
  destruct fp as [|d fp]; simpl Str.is_empty; cbv iota.
  - simpl. rewrite !append_empty_r, Hne. reflexivity.
  - simpl Flt.span at 1 2. cbn [fst snd]. rewrite append_empty_r.
    rewrite <- (append_empty_r (String d fp)) at 1.
    rewrite (span_all _ (String d fp) "" Hfp). simpl Flt.span.
    cbn [fst snd]. rewrite !append_empty_r, Hne. reflexivity.
Qed.

Lemma of_string_decimal_text (s : string) :
  decimal_text s -> exists v, Flt.of_string s = Ok v.
Proof.
  intros Ht. pose proof (decimal_text_chars s Ht) as Hc.
  destruct Ht as (sg & ip & fp & -> & Hne & Hip & Hfp).
  unfold Flt.of_string.
  rewrite float_strip_plain
    by (revert Hc; apply all_chars_weaken; intros c H;
        now destruct (numeral_char_plain c H) as (-> & _)).
  assert (Hu : all_chars (fun c => negb (Flt.is_underscore c))
                 (Flt.sign_text sg ++ ip
                  ++ (if Str.is_empty fp then "" else String "." fp)) = true).
  { revert Hc. apply all_chars_weaken. intros c H.
    now destruct (numeral_char_plain c H) as (_ & -> & _). }
  rewrite (underscores_ok_plain _ Hu None I), (remove_underscores_plain _ Hu).
  simpl negb. cbv iota.
  destruct ip as [|d ip]; [discriminate|].
  simpl in Hip. apply andb_true_iff in Hip as [Hd Hip'].
  assert (Hip : all_chars Str.is_digit (String d ip) = true)
    by (simpl; now rewrite Hd, Hip').
  destruct (digit_first d (ip ++ (if Str.is_empty fp then ""
                                  else String "." fp)) Hd)
    as (Hsign & H1 & H2 & H3).
  assert (Hbody :
    forall sx,
    exists v,
      (let low := Str.lower (String d ip ++ (if Str.is_empty fp then ""
                                            else String "." fp)) in
       if String.eqb low "inf" || String.eqb low "infinity"
       then Ok (S754_infinity sx)
       else if String.eqb low "nan" then Ok S754_nan
       else match Flt.parse_decimal
                    (String d ip ++ (if Str.is_empty fp then ""
                                     else String "." fp)) with
            | Some (m, e10) => Ok (Flt.of_decimal sx m e10)
            | None => Raise ValueError
            end) = Ok v).
  { intros sx. cbv zeta. simpl append at 1 2 3. rewrite H1, H2, H3.
    simpl orb. cbv iota.
    change (String d (ip ++ (if Str.is_empty fp then "" else String "." fp)))
      with (String d ip ++ (if Str.is_empty fp then "" else String "." fp)).
    rewrite (parse_decimal_digits (String d ip) fp eq_refl Hip Hfp). eauto. }
  destruct sg.
  - change (Flt.split_sign (Flt.sign_text true ++ String d ip ++ _))
      with (true, String d ip
                  ++ (if Str.is_empty fp then "" else String "." fp)).
    apply Hbody.
  - change (Flt.sign_text false ++ String d ip
            ++ (if Str.is_empty fp then "" else String "." fp))
      with (String d (ip ++ (if Str.is_empty fp then ""
                             else String "." fp))).
    rewrite Hsign. apply Hbody.
Qed.

(** ** A record written from two decimal numerals parses *)

Lemma tokens_from_word (w : string) :
  all_chars (fun c => negb (is_separator c)) w = true ->
  forall cur rest, tokens_from cur (w ++ rest) = tokens_from (cur ++ w) rest.
Proof.
  induction w as [|c w IH]; simpl; intros H cur rest.
  - now rewrite append_empty_r.
  - apply andb_true_iff in H as [Hc Hw]. apply negb_true_iff in Hc.
    rewrite Hc, (IH Hw), append_assoc. reflexivity.
Qed.

Lemma strip_comment_plain (s : string) :
  all_chars (fun c => negb (comment_start c)) s = true -> strip_comment s = s.
Proof.
  induction s as [|c s IH]; simpl; [reflexivity|]. intros H.
  apply andb_true_iff in H as [Hc Hs]. apply negb_true_iff in Hc.
  now rewrite Hc, IH.
Qed.

Section Record.

Variables fx fy : string.
Hypothesis fx_text : decimal_text fx.
Hypothesis fy_text : decimal_text fy.

Lemma numeral_plain (p : ascii -> bool) (s : string) :
  (forall c, numeral_char c = true -> p c = false) ->
  decimal_text s ->
  all_chars (fun c => negb (p c)) s = true.
Proof.
  intros Hp Hs. apply decimal_text_chars in Hs. revert Hs.
  apply all_chars_weaken. intros c Hc. now rewrite (Hp c Hc).
Qed.

Lemma record_body : body_of (record_of fx fy) = record_of fx fy.
Proof.
  unfold body_of. rewrite strip_comment_plain.
  - unfold Str.strip, record_of. rewrite lstrip_by_keep by reflexivity.
    change ("G1 X" ++ fx ++ " Y" ++ fy)
      with ("G1 X" ++ fx ++ " " ++ String "Y" fy).
    rewrite <- !append_assoc.
    rewrite (rstrip_by_at Str.is_space "Y" _ fy eq_refl).
    replace (Str.rstrip_by Str.is_space fy) with fy; [reflexivity|].
    rewrite <- (append_empty_r fy) at 2.
    rewrite rstrip_by_keep.
    + simpl. now rewrite append_empty_r.
    + apply numeral_plain; [|exact fy_text].
      intros c Hc. now destruct (numeral_char_plain c Hc) as (-> & _).
  - unfold record_of. rewrite !all_chars_app.
    rewrite (numeral_plain comment_start fx), (numeral_plain comment_start fy);
      auto; intros c Hc; now destruct (numeral_char_plain c Hc) as (_ & _ & _ & ->).
Qed.

Lemma record_tokens :
  tokens (record_of fx fy) = ["G1"; String "X" fx; String "Y" fy].
Proof.
  assert (Hsep : forall s, decimal_text s ->
                   all_chars (fun c => negb (is_separator c)) s = true).
  { intros s. apply numeral_plain. intros c Hc.
    now destruct (numeral_char_plain c Hc) as (_ & _ & -> & _). }
  unfold tokens, record_of. simpl.
  rewrite (tokens_from_word fx (Hsep _ fx_text)). simpl.
  rewrite <- (append_empty_r fy).
  rewrite (tokens_from_word fy (Hsep _ fy_text)). simpl.
  now rewrite append_empty_r.
Qed.

Lemma record_parses :
  exists x' y',
    Flt.of_string fx = Ok x' /\ Flt.of_string fy = Ok y'
    /\ parse_g1_xy (record_of fx fy) = Ok (Some (x', y')).
Proof.
  destruct (of_string_decimal_text fx fx_text) as (x' & Hx).
  destruct (of_string_decimal_text fy fy_text) as (y' & Hy).
  exists x', y'. split; [exact Hx|]. split; [exact Hy|].
  rewrite parse_g1_xy_body, record_body. cbv zeta.
  rewrite record_tokens.
  change (Str.is_empty (record_of fx fy)) with false.
  change (spindle (record_of fx fy)) with false. cbv iota.
  cbn [scan_tokens].
  rewrite (scan_token_other "G1") by reflexivity. cbn [bind].
  rewrite (scan_token_x (String "X" fx)) by reflexivity.
  cbn [Str.tail]. rewrite Hx. cbn [bind snd].
  rewrite (scan_token_y (String "Y" fy)) by reflexivity.
  cbn [Str.tail]. rewrite Hy. cbn [bind fst]. reflexivity.
Qed.

End Record.

(** The append fails only when the canonical record cannot be built. *)
Lemma add_or_merge_line_raises (xn yn : float) (lines : list string)
      (e : exn) :
  add_or_merge_line xn yn lines = Raise e ->
  e = OverflowError /\ new_text xn yn = Raise OverflowError.
Proof.
  destruct (new_text xn yn) as [t|e'] eqn:Ht.
  - destruct (last_two_cases lines) as [->|[(a & ->)|(pre & a & b & ->)]].
    + rewrite (add_or_merge_line_short _ _ t) by (auto; simpl; lia).
      discriminate.
    + rewrite (add_or_merge_line_short _ _ t) by (auto; simpl; lia).
      discriminate.
    + rewrite (add_or_merge_line_long _ _ t) by exact Ht.
      destruct (merge_test xn yn a b); discriminate.
  - unfold add_or_merge_line. rewrite Ht. cbn [bind]. intros [= <-].
    unfold new_text in Ht.
    destruct (fmt_number (Flt.repr xn)) as [fx|e1] eqn:Ex; cbn [bind] in Ht.
    + destruct (fmt_number (Flt.repr yn)) as [fy|e2] eqn:Ey; cbn [bind] in Ht;
        [discriminate|].
      injection Ht as <-. apply fmt_number_raises in Ey as ->. auto.
    + injection Ht as <-. apply fmt_number_raises in Ex as ->. auto.
Qed.

(* ===================================================================== *)
(** * Further properties of the handlers *)

(** ** The lines that parse *)

Lemma moves_unread_length (lines : list string) :
  (List.length (moves_of lines) + unread lines)%nat = List.length lines.
Proof.
  induction lines as [|l rest IH]; simpl; [reflexivity|].
  destruct (parse_g1_xy l) as [[m|]|e]; simpl; lia.
Qed.


Lemma moves_of_nil (lines : list string) :
  moves_of lines = [] <-> forall l, In l lines -> parse_g1_xy l = Ok None.
Proof.
  induction lines as [|l rest IH]; simpl.
  - split; [intros _ l [] | reflexivity].
  - destruct (parse_g1_xy_ok l) as ([m|] & E); rewrite E.
    + split; [discriminate|]. intros H.
      specialize (H l (or_introl eq_refl)). congruence.
    + rewrite IH. split.
      * intros H l' [<-|Hin]; auto.
      * intros H l' Hin. apply H. now right.
Qed.

Lemma moves_of_app (a b : list string) :
  moves_of (a ++ b) = (moves_of a ++ moves_of b)%list.
Proof.
  induction a as [|l a IH]; simpl; [reflexivity|].
  destruct (parse_g1_xy l) as [[m|]|e]; simpl; now rewrite IH.
Qed.

Lemma unread_app (a b : list string) :
  unread (a ++ b) = (unread a + unread b)%nat.
Proof.
  induction a as [|l a IH]; simpl; [reflexivity|].
  destruct (parse_g1_xy l) as [[m|]|e]; simpl; now rewrite IH.
Qed.

Lemma parse_lines_spec (raw_lines : list string) :
  forall parsed skipped,
    parse_lines raw_lines parsed skipped
    = Ok ((parsed ++ moves_of raw_lines)%list,
          (skipped + unread raw_lines)%nat).
Proof.
  induction raw_lines as [|l rest IH]; intros parsed skipped; simpl.
  - now rewrite app_nil_r, Nat.add_0_r.
  - destruct (parse_g1_xy_ok l) as ([m|] & ->); cbn [bind]; rewrite IH.
    + now rewrite <- app_assoc.
    + now rewrite Nat.add_succ_r.
Qed.


Lemma parse_base_next (lines : list string) :
  forall acc base,
    parse_base lines acc = Ok (Next base) ->
    base = (acc ++ moves_of lines)%list
    /\ List.length (moves_of lines) = List.length lines.
Proof.
  induction lines as [|l rest IH]; intros acc base; simpl.
  - intros [= <-]. now rewrite app_nil_r.
  - destruct (parse_g1_xy_ok l) as ([m|] & ->); cbn [bind]; [|discriminate].
    intros H. apply IH in H as [-> Hlen]. rewrite <- app_assoc.
    simpl. auto.
Qed.

Lemma parse_base_return (lines : list string) :
  forall acc bad,
    parse_base lines acc = Ok (Return bad) ->
    In bad lines /\ parse_g1_xy bad = Ok None.
Proof.
  induction lines as [|l rest IH]; intros acc bad; simpl; [discriminate|].
  destruct (parse_g1_xy_ok l) as ([m|] & E); rewrite E; cbn [bind].
  - intros H. apply IH in H as [Hin Hbad]. auto.
  - intros [= <-]. auto.
Qed.


(** ** Deleting the selected records, highest index first *)

Lemma unselected_none (sel : list nat) (lines : list string) :
  forall i,
    (forall k, In k sel -> (k < i)%nat) -> unselected sel i lines = lines.
Proof.
  induction lines as [|l rest IH]; intros i H; simpl; [reflexivity|].
  replace (existsb (Nat.eqb i) sel) with false.
  - rewrite IH; [reflexivity|]. intros k Hk. specialize (H k Hk). lia.
  - symmetry. apply not_true_is_false. intros E.
    apply existsb_exists in E as (k & Hk & Heq).
    apply Nat.eqb_eq in Heq. specialize (H k Hk). lia.
Qed.

Lemma unselected_same (sel sel' : list nat) (lines : list string) :
  (forall k, In k sel <-> In k sel') ->
  forall i, unselected sel i lines = unselected sel' i lines.
Proof.
  intros H. induction lines as [|l rest IH]; intros i; simpl; [reflexivity|].
  replace (existsb (Nat.eqb i) sel') with (existsb (Nat.eqb i) sel).
  - now rewrite !IH.
  - destruct (existsb (Nat.eqb i) sel) eqn:E; symmetry.
    + apply existsb_exists in E as (k & Hk & Heq).
      apply existsb_exists. exists k. split; [now apply H | exact Heq].
    + apply not_true_is_false. intros E'.
      apply existsb_exists in E' as (k & Hk & Heq).
      assert (existsb (Nat.eqb i) sel = true); [|congruence].
      apply existsb_exists. exists k. split; [now apply H | exact Heq].
Qed.

Lemma unselected_after_del (lines : list string) :
  forall i j d,
    (i <= j)%nat -> (j - i < List.length lines)%nat ->
    (forall k, In k d -> (k < j)%nat) ->
    unselected d i (firstn (j - i) lines ++ skipn (S (j - i)) lines)
    = unselected (j :: d) i lines.
Proof.
  induction lines as [|l rest IH]; intros i j d Hij Hlen Hd;
    [simpl in Hlen; lia|].
  destruct (Nat.eq_dec i j) as [->|Hne].
  - rewrite Nat.sub_diag. cbn [firstn skipn app unselected existsb].
    rewrite Nat.eqb_refl. simpl orb.
    rewrite !unselected_none; [reflexivity| |exact Hd].
    intros k [<-|Hk]; [lia|]. specialize (Hd k Hk). lia.
  - replace (j - i)%nat with (S (j - S i)) by lia.
    rewrite firstn_cons, skipn_cons. cbn [app unselected existsb].
    replace (i =? j)%nat with false by (symmetry; apply Nat.eqb_neq; exact Hne).
    simpl orb. simpl in Hlen.
    rewrite (IH (S i) j d) by (auto; lia). reflexivity.
Qed.

Lemma del_items_decreasing (d : list nat) :
  forall lines,
    decreasing d ->
    (forall k, In k d -> (k < List.length lines)%nat) ->
    del_items d lines = (unselected d 0 lines, None).
Proof.
  induction d as [|j d IH]; intros lines Hdec Hin; simpl.
  - now rewrite unselected_none by (intros k []).
  - destruct Hdec as [Hlt Hdec].
    assert (Hj : (j < List.length lines)%nat) by (apply Hin; now left).
    unfold del_item.
    replace (j <? List.length lines)%nat with true
      by (symmetry; now apply Nat.ltb_lt).
    rewrite IH.
    + pose proof (unselected_after_del lines 0 j d) as H.
      rewrite Nat.sub_0_r in H. rewrite H by (auto; lia). reflexivity.
    + exact Hdec.
    + intros k Hk. specialize (Hlt k Hk).
      rewrite length_app, length_firstn, length_skipn. lia.
Qed.

Lemma decreasing_snoc (d : list nat) (i : nat) :
  decreasing d -> (forall k, In k d -> (i < k)%nat) -> decreasing (d ++ [i]).
Proof.
  induction d as [|j d IH]; simpl; intros Hd Hi.
  - split; [intros k [] | exact I].
  - destruct Hd as [Hlt Hd]. split.
    + intros k Hk. apply in_app_or in Hk as [Hk|[<-|[]]]; auto.
    + apply IH; auto.
Qed.

Lemma increasing_rev (sel : list nat) : increasing sel -> decreasing (rev sel).
Proof.
  induction sel as [|i sel IH]; simpl; [auto|].
  intros [Hlt Hinc]. apply decreasing_snoc; [auto|].
  intros k Hk. apply Hlt. now apply in_rev.
Qed.

Lemma del_items_length (d : list nat) :
  forall lines lines',
    del_items d lines = (lines', None) ->
    (List.length lines' + List.length d)%nat = List.length lines.
Proof.
  induction d as [|j d IH]; intros lines lines'; simpl.
  - intros [= <-]. lia.
  - unfold del_item. destruct (j <? List.length lines)%nat eqn:E;
      [|discriminate].
    apply Nat.ltb_lt in E. intros H. apply IH in H.
    rewrite length_app, length_firstn, length_skipn in H. lia.
Qed.

(** ** The checks of [loop_block] *)

Lemma parse_float_limit (s : string) :
  (unparsable s /\ parse_float Some s None = Ok None)
  \/ (exists v, Flt.of_string s = Ok v /\ parse_float Some s None = Ok (Some v)).
Proof.
  unfold parse_float, unparsable.
  destruct (Flt.of_string s) as [v|e]; simpl; eauto.
Qed.

Lemma parse_base_length (lines : list string) (base : list (float * float)) :
  parse_base lines [] = Ok (Next base) -> List.length base = List.length lines.
Proof.
  intros H. apply parse_base_next in H as [-> H]. exact H.
Qed.

(** [loop_block] step by step: the three checks, then the snapshot and the
    loop. *)
Lemma loop_block_shape (fuel : nat)
      (max_x_var max_y_var dx_var dy_var : string) (st : state) :
  exists max_x max_y dx dy,
    parse_float Some max_x_var None = Ok max_x
    /\ parse_float Some max_y_var None = Ok max_y
    /\ parse_float id dx_var (S754_zero false) = Ok dx
    /\ parse_float id dy_var (S754_zero false) = Ok dy
    /\ loop_block fuel max_x_var max_y_var dx_var dy_var st
       = match gcode_lines st with
         | [] => (st, Warned "Nothing to loop")
         | _ =>
             if negb (is_some max_x || is_some max_y)
             then (st, Warned "No limits")
             else
               match parse_base (gcode_lines st) [] with
               | Ok (Next base) =>
                   (mkState (fst (loop_groups fuel base dx dy max_x max_y
                                              1 0 (gcode_lines st)))
                            (Some (gcode_lines st)),
                    snd (loop_groups fuel base dx dy max_x max_y
                                     1 0 (gcode_lines st)))
               | Ok (Return _) => (st, Failed "Parse error")
               | Raise e => (st, Raised e)
               end
         end.
Proof.
  destruct (parse_float_ok Some max_x_var None) as (max_x & Hmx).
  destruct (parse_float_ok Some max_y_var None) as (max_y & Hmy).
  destruct (parse_float_ok id dx_var (S754_zero false)) as (dx & Hdx).
  destruct (parse_float_ok id dy_var (S754_zero false)) as (dy & Hdy).
  exists max_x, max_y, dx, dy. repeat (split; [assumption|]).
  unfold loop_block. rewrite Hmx, Hmy, Hdx, Hdy. cbn [bind].
  destruct (gcode_lines st) as [|l0 ls] eqn:Hl; [reflexivity|].
  cbn [snapshot gcode_lines last_snapshot]. rewrite Hl.
  destruct max_x, max_y; cbn [is_some orb negb]; cbv iota;
    try reflexivity;
    (destruct (parse_base (l0 :: ls) []) as [[base|bad]|e];
     [|reflexivity|reflexivity];
     now destruct (loop_groups _ _ _ _ _ _ _ _ _)).
Qed.

Lemma loop_groups_no_message (fuel : nat) (base : list (float * float))
      (dx dy : float) (max_x max_y : option float) (k : Z) (a : nat)
      (lines : list string) :
  rejection (snd (loop_groups fuel base dx dy max_x max_y k a lines)) = false.
Proof.
  pose proof (loop_groups_outcome fuel base dx dy max_x max_y k a lines) as H.
  cbv zeta in H. destruct H as [->|[(e & ->)|(r & ->)]]; reflexivity.
Qed.

(** ** The loop stops at the first rejected group *)

Lemma loop_groups_stops (base : list (float * float)) (dx dy : float)
      (max_x max_y : option float) (n : nat) :
  base <> [] ->
  forall fuel k a lines,
    rejected max_x max_y base dx dy (k + Z.of_nat n) ->
    (n < fuel)%nat ->
    let out := snd (loop_groups fuel base dx dy max_x max_y k a lines) in
    out <> OutOfFuel
    /\ (forall r, out = Done r -> (r <= a + n)%nat).
Proof.
  intros Hne. induction n as [|n IH]; intros fuel k a lines Hrej Hlt out;
    subst out; (destruct fuel as [|fuel]; [lia|]).
  - rewrite Z.add_0_r in Hrej.
    rewrite (loop_groups_rejected base dx dy max_x max_y fuel k a lines Hrej).
    simpl. split; [discriminate|]. intros r [= <-]. lia.
  - destruct (candidate_cases base dx dy max_x max_y k)
      as [(e & Hk)|[(g & Hg & Hyes)|Hrej0]].
    + simpl. rewrite (build_group_raise base dx dy max_x max_y Hne k e [] Hk).
      simpl. split; discriminate.
    + rewrite (loop_groups_accepted base dx dy max_x max_y Hne
                 fuel k a lines g Hg Hyes).
      destruct (add_all g lines) as [l1 [e|]]; [simpl; split; discriminate|].
      replace (k + Z.of_nat (S n))%Z with (k + 1 + Z.of_nat n)%Z in Hrej
        by lia.
      destruct (IH fuel (k + 1)%Z (S a) l1 Hrej ltac:(lia)) as [H1 H2].
      split; [exact H1|]. intros r Hr. specialize (H2 r Hr). lia.
    + rewrite (loop_groups_rejected base dx dy max_x max_y fuel k a lines
                 Hrej0).
      simpl. split; [discriminate|]. intros r [= <-]. lia.
Qed.

Lemma unread_zero (lines : list string) :
  List.length (moves_of lines) = List.length lines ->
  forall l, In l lines -> parse_g1_xy l <> Ok None.
Proof.
  induction lines as [|l0 rest IH]; simpl; [intros _ l []|].
  pose proof (moves_unread_length rest) as Hrest.
  destruct (parse_g1_xy l0) as [[m|]|e] eqn:E; simpl; intros H; try lia.
  intros l [<-|Hin]; [congruence|]. apply IH; [lia | exact Hin].
Qed.

(** The four ways through [loop_block]. *)
Lemma loop_block_cases (fuel : nat)
      (max_x_var max_y_var dx_var dy_var : string) (st : state) :
  let r := loop_block fuel max_x_var max_y_var dx_var dy_var st in
  (gcode_lines st = [] /\ r = (st, Warned "Nothing to loop"))
  \/ (gcode_lines st <> []
      /\ unparsable max_x_var /\ unparsable max_y_var
      /\ r = (st, Warned "No limits"))
  \/ (gcode_lines st <> []
      /\ ~ (unparsable max_x_var /\ unparsable max_y_var)
      /\ (exists bad, In bad (gcode_lines st) /\ parse_g1_xy bad = Ok None)
      /\ r = (st, Failed "Parse error"))
  \/ (gcode_lines st <> []
      /\ ~ (unparsable max_x_var /\ unparsable max_y_var)
      /\ (forall l, In l (gcode_lines st) -> parse_g1_xy l <> Ok None)
      /\ exists max_x max_y dx dy base,
          parse_float Some max_x_var None = Ok max_x
          /\ parse_float Some max_y_var None = Ok max_y
          /\ is_some max_x || is_some max_y = true
          /\ parse_float id dx_var (S754_zero false) = Ok dx
          /\ parse_float id dy_var (S754_zero false) = Ok dy
          /\ parse_base (gcode_lines st) [] = Ok (Next base)
          /\ base <> []
          /\ r = (mkState (fst (loop_groups fuel base dx dy max_x max_y
                                            1 0 (gcode_lines st)))
                          (Some (gcode_lines st)),
                  snd (loop_groups fuel base dx dy max_x max_y
                                   1 0 (gcode_lines st)))).
Proof.
  intros r. subst r.
  destruct (loop_block_shape fuel max_x_var max_y_var dx_var dy_var st)
    as (max_x & max_y & dx & dy & Hmx & Hmy & Hdx & Hdy & ->).
  destruct (gcode_lines st) as [|l0 ls] eqn:Hl; [left; auto|].
  right.
  assert (Hne : l0 :: ls <> []) by discriminate.
  assert (Hset : is_some max_x || is_some max_y = false
                 <-> unparsable max_x_var /\ unparsable max_y_var).
  { destruct (parse_float_limit max_x_var) as [[Hu Hp]|(v & Hv & Hp)];
      destruct (parse_float_limit max_y_var) as [[Hu' Hp']|(v' & Hv' & Hp')];
      rewrite Hp in Hmx; rewrite Hp' in Hmy;
      injection Hmx as <-; injection Hmy as <-; simpl;
      (split; [try discriminate; auto|]); try reflexivity;
      intros [(e & He) (e' & He')]; congruence. }
  destruct (is_some max_x || is_some max_y) eqn:Eset; cbn [negb]; cbv iota.
  2:{ left. destruct (proj1 Hset eq_refl) as [H1 H2]. auto. }
  right.
  assert (Hnot : ~ (unparsable max_x_var /\ unparsable max_y_var)).
  { intros H. apply Hset in H. discriminate. }
  destruct (parse_base_ok (l0 :: ls) []) as ([base|bad] & Hb); rewrite Hb.
  - right. repeat (split; [assumption|]).
    pose proof (parse_base_next _ _ _ Hb) as [Hbase Hlen]. split.
    + now apply unread_zero.
    + exists max_x, max_y, dx, dy, base. repeat (split; [assumption|]).
      split; [reflexivity|]. split; [|reflexivity].
      intros ->. apply parse_base_length in Hb. discriminate.
  - left. repeat (split; [assumption|]).
    apply parse_base_return in Hb. split; [eauto | reflexivity].
Qed.

Lemma parse_float_zero_offset (s : string) :
  zero_offset s ->
  exists d, parse_float id s (S754_zero false) = Ok d /\ is_zero d = true.
Proof.
  intros [H|(v & Hv & Hz)].
  - exists (S754_zero false). split; [|reflexivity].
    now apply parse_float_unparsable.
  - exists v. split; [|exact Hz]. unfold parse_float. now rewrite Hv.
Qed.

(** ** Appending keeps the records *)

Lemma keeps_records_refl (l : list string) : keeps_records l l.
Proof. split; [reflexivity | lia]. Qed.

Lemma keeps_records_trans (a b c : list string) :
  keeps_records a b -> keeps_records b c -> keeps_records a c.
Proof.
  intros [Hab Lab] [Hbc Lbc]. split; [|lia].
  rewrite <- Hab.
  replace (List.length a - 1)%nat
    with (Nat.min (List.length a - 1) (List.length b - 1)) by lia.
  rewrite <- !firstn_firstn. now rewrite Hbc.
Qed.

Lemma keeps_records_snoc (l : list string) (t : string) :
  keeps_records l (l ++ [t])%list.
Proof.
  split; [|rewrite length_app; simpl; lia].
  rewrite firstn_app.
  replace (List.length l - 1 - List.length l)%nat with 0%nat by lia.
  simpl. now rewrite app_nil_r.
Qed.

Lemma keeps_records_last (pre : list string) (a b t : string) :
  keeps_records (pre ++ [a; b])%list (pre ++ [a; t])%list.
Proof.
  split; [|rewrite !length_app; simpl; lia].
  rewrite length_app. simpl List.length.
  replace (List.length pre + 2 - 1)%nat with (List.length pre + 1)%nat by lia.
  rewrite !firstn_app.
  replace (List.length pre + 1 - List.length pre)%nat with 1%nat by lia.
  reflexivity.
Qed.

Lemma add_or_merge_line_keeps (xn yn : float) (lines lines' : list string) :
  add_or_merge_line xn yn lines = Ok lines' ->
  keeps_records lines lines'
  /\ (List.length lines' <= S (List.length lines))%nat
  /\ exists t, new_text xn yn = Ok t /\ In t lines'.
Proof.
  intros H.
  destruct (new_text xn yn) as [t|e] eqn:Ht.
  2:{ unfold add_or_merge_line in H. rewrite Ht in H. discriminate. }
  destruct (last_two_cases lines) as [->|[(a & ->)|(pre & a & b & ->)]].
  - rewrite (add_or_merge_line_short xn yn t [] Ht) in H by (simpl; lia).
    injection H as <-. split; [apply (keeps_records_snoc [])|].
    split; [simpl; lia|]. exists t. split; [reflexivity | now left].
  - rewrite (add_or_merge_line_short xn yn t [a] Ht) in H by (simpl; lia).
    injection H as <-. split; [apply (keeps_records_snoc [a])|].
    split; [simpl; lia|]. exists t. split; [reflexivity | right; now left].
  - rewrite (add_or_merge_line_long xn yn t pre a b Ht) in H.
    destruct (merge_test xn yn a b); injection H as <-.
    + split; [apply keeps_records_last|].
      split; [rewrite !length_app; simpl; lia|].
      exists t. split; [reflexivity|].
      apply in_or_app. right. right. now left.
    + split; [apply keeps_records_snoc|].
      split; [rewrite !length_app; simpl; lia|].
      exists t. split; [reflexivity|].
      apply in_or_app. right. now left.
Qed.

Lemma add_all_keeps (moves : list (float * float)) :
  forall lines,
    keeps_records lines (fst (add_all moves lines))
    /\ (List.length (fst (add_all moves lines))
        <= List.length lines + List.length moves)%nat.
Proof.
  induction moves as [|[x y] moves IH]; intros lines; simpl.
  - split; [apply keeps_records_refl | lia].
  - destruct (add_or_merge_line x y lines) as [l1|e] eqn:E; simpl.
    + apply add_or_merge_line_keeps in E as (K & L & _).
      destruct (IH l1) as [K1 L1]. split; [|lia].
      now apply (keeps_records_trans lines l1).
    + split; [apply keeps_records_refl | lia].
Qed.

(** ** The values of a line: the last X token and the last Y token *)

Lemma is_y_not_x (t : string) : is_y_token t = true -> is_x_token t = false.
Proof.
  intros Y. destruct (is_x_token t) eqn:X; [|reflexivity].
  apply is_x_not_y in X. congruence.
Qed.

Lemma scan_tokens_values (ts : list string) :
  forall vals vx vy,
    scan_tokens ts vals = Ok (Next (vx, vy)) ->
    vx = token_value (last_with is_x_token ts) (fst vals)
    /\ vy = token_value (last_with is_y_token ts) (snd vals).
Proof.
  induction ts as [|t rest IH]; intros [x y] vx vy; simpl.
  - intros [= <- <-]. split; reflexivity.
  - destruct (is_x_token t) eqn:X; [|destruct (is_y_token t) eqn:Y].
    + rewrite (scan_token_x _ _ X). pose proof (is_x_not_y _ X) as Y.
      rewrite Y.
      destruct (Flt.of_string (Str.tail t)) as [v|e] eqn:E; simpl;
        [|discriminate].
      intros H. apply IH in H as [Hx Hy]. simpl in Hx, Hy.
      destruct (last_with is_x_token rest) as [u|];
        destruct (last_with is_y_token rest) as [u'|];
        simpl in *; rewrite ?E; auto.
    + rewrite (scan_token_y _ _ Y).
      destruct (Flt.of_string (Str.tail t)) as [v|e] eqn:E; simpl;
        [|discriminate].
      intros H. apply IH in H as [Hx Hy]. simpl in Hx, Hy.
      destruct (last_with is_x_token rest) as [u|];
        destruct (last_with is_y_token rest) as [u'|];
        simpl in *; rewrite ?E; auto.
    + rewrite scan_token_other by (unfold is_xy_token; now rewrite X, Y).
      simpl. intros H. apply IH in H as [Hx Hy]. simpl in Hx, Hy.
      destruct (last_with is_x_token rest) as [u|];
        destruct (last_with is_y_token rest) as [u'|];
        simpl in *; auto.
Qed.

Lemma last_with_in (p : string -> bool) (ts : list string) (t : string) :
  last_with p ts = Some t -> In t ts /\ p t = true.
Proof.
  induction ts as [|u rest IH]; simpl; [discriminate|].
  destruct (last_with p rest) as [w|].
  - intros [= <-]. destruct (IH eq_refl). auto.
  - destruct (p u) eqn:P; [|discriminate]. intros [= <-]. auto.
Qed.

(** ** What the parser ignores *)

Lemma strip_comment_app (a w : string) :
  strip_comment (a ++ w)
  = if all_chars (fun c => negb (comment_start c)) a
    then a ++ strip_comment w
    else strip_comment a.
Proof.
  induction a as [|x a IH]; simpl; [reflexivity|].
  destruct (comment_start x); simpl; [reflexivity|].
  rewrite IH. now destruct (all_chars _ a).
Qed.

Lemma strip_comment_tail (a b : string) (c : ascii) :
  comment_start c = true -> strip_comment (a ++ String c b) = strip_comment a.
Proof.
  intros H. rewrite strip_comment_app. simpl. rewrite H.
  destruct (all_chars _ a) eqn:E; [|reflexivity].
  rewrite append_empty_r. symmetry. now apply strip_comment_plain.
Qed.

Lemma space_not_comment (c : ascii) :
  Str.is_space c = true -> comment_start c = false.
Proof.
  destruct c as [b0 b1 b2 b3 b4 b5 b6 b7];
    destruct b0, b1, b2, b3, b4, b5, b6, b7; simpl; intros H;
    try reflexivity; discriminate H.
Qed.

Lemma space_is_separator (c : ascii) :
  Str.is_space c = true -> is_separator c = true.
Proof. unfold is_separator. now intros ->. Qed.

Lemma lstrip_by_app (p : ascii -> bool) (a w : string) :
  Str.lstrip_by p (a ++ w)
  = if all_chars p a then Str.lstrip_by p w else Str.lstrip_by p a ++ w.
Proof.
  induction a as [|x a IH]; simpl; [reflexivity|].
  destruct (p x); simpl; [exact IH | reflexivity].
Qed.

Lemma lstrip_by_all (p : ascii -> bool) (w : string) :
  all_chars p w = true -> Str.lstrip_by p w = "".
Proof.
  induction w as [|x w IH]; simpl; [reflexivity|].
  destruct (p x); simpl; [exact IH | discriminate].
Qed.

Lemma rstrip_by_all (p : ascii -> bool) (w : string) :
  all_chars p w = true -> Str.rstrip_by p w = "".
Proof.
  induction w as [|x w IH]; simpl; [reflexivity|].
  destruct (p x) eqn:P; simpl; [|discriminate].
  intros H. now rewrite (IH H).
Qed.

Lemma rstrip_by_app_all (p : ascii -> bool) (x w : string) :
  all_chars p w = true -> Str.rstrip_by p (x ++ w) = Str.rstrip_by p x.
Proof.
  intros H. induction x as [|c x IH]; simpl.
  - now apply rstrip_by_all.
  - now rewrite IH.
Qed.

Lemma strip_app_all (a w : string) :
  all_chars Str.is_space w = true -> Str.strip (a ++ w) = Str.strip a.
Proof.
  intros H. unfold Str.strip. rewrite lstrip_by_app.
  destruct (all_chars Str.is_space a) eqn:E.
  - rewrite (lstrip_by_all _ _ H), (lstrip_by_all _ _ E). reflexivity.
  - now apply rstrip_by_app_all.
Qed.

Lemma strip_all_app (w a : string) :
  all_chars Str.is_space w = true -> Str.strip (w ++ a) = Str.strip a.
Proof.
  intros H. unfold Str.strip. rewrite lstrip_by_app, H. reflexivity.
Qed.

Lemma spaces_no_comment (w : string) :
  all_chars Str.is_space w = true ->
  all_chars (fun c => negb (comment_start c)) w = true.
Proof.
  apply all_chars_weaken. intros c H. now rewrite (space_not_comment c H).
Qed.

Lemma body_of_spaces_after (a w : string) :
  all_chars Str.is_space w = true -> body_of (a ++ w) = body_of a.
Proof.
  intros H. unfold body_of. rewrite strip_comment_app.
  rewrite (strip_comment_plain w (spaces_no_comment w H)).
  destruct (all_chars _ a) eqn:E; [|reflexivity].
  rewrite (strip_comment_plain a E). now apply strip_app_all.
Qed.

Lemma body_of_spaces_before (w a : string) :
  all_chars Str.is_space w = true -> body_of (w ++ a) = body_of a.
Proof.
  intros H. unfold body_of. rewrite strip_comment_app.
  rewrite (spaces_no_comment w H). now apply strip_all_app.
Qed.

Lemma parse_g1_xy_same_body (a b : string) :
  body_of a = body_of b -> parse_g1_xy a = parse_g1_xy b.
Proof. intros H. now rewrite !parse_g1_xy_body, H. Qed.

Lemma parse_g1_xy_move_of_body (line : string) :
  parse_g1_xy line = move_of_body (body_of line).
Proof. apply parse_g1_xy_body. Qed.

Lemma scan_tokens_app_inert (ts ws : list string) :
  forallb (fun t => negb (is_xy_token t)) ws = true ->
  forall vals,
    scan_tokens (ts ++ ws)%list vals = scan_tokens ts vals.
Proof.
  intros Hws. induction ts as [|t ts IH]; intros vals.
  - simpl. revert vals. induction ws as [|w ws IHw]; intros vals;
      [reflexivity|].
    simpl in Hws. apply andb_true_iff in Hws as [Hw Hws].
    apply negb_true_iff in Hw. cbn [scan_tokens].
    rewrite (scan_token_other _ _ Hw). cbn [bind]. now apply IHw.
  - cbn [app scan_tokens].
    destruct (scan_token t vals) as [[vals'|r]|e]; cbn [bind];
      [apply IH | reflexivity | reflexivity].
Qed.

Lemma tokens_from_app_sep (c : ascii) (u w : string) :
  is_separator c = true ->
  forall cur,
    tokens_from cur (u ++ String c w)
    = (tokens_from cur u ++ tokens w)%list.
Proof.
  intros Hc. induction u as [|a u IH]; intros cur.
  - cbn [append tokens_from]. rewrite Hc. unfold tokens.
    destruct cur; reflexivity.
  - cbn [append tokens_from]. destruct (is_separator a).
    + destruct cur; rewrite IH; reflexivity.
    + apply IH.
Qed.

Lemma tokens_from_rstrip (s : string) :
  forall cur,
    tokens_from cur (Str.rstrip_by Str.is_space s) = tokens_from cur s.
Proof.
  induction s as [|a s IH]; intros cur; [reflexivity|].
  cbn [Str.rstrip_by].
  destruct (Str.rstrip_by Str.is_space s) as [|b r] eqn:E.
  - destruct (Str.is_space a) eqn:Sa.
    + cbn [tokens_from]. rewrite (space_is_separator a Sa).
      destruct cur; rewrite <- IH; reflexivity.
    + cbn [tokens_from]. destruct (is_separator a).
      * destruct cur; rewrite <- IH; reflexivity.
      * rewrite <- IH. reflexivity.
  - cbn [tokens_from]. destruct (is_separator a).
    + destruct cur; rewrite <- IH; reflexivity.
    + rewrite <- IH. reflexivity.
Qed.

Lemma tokens_word (w : string) :
  all_chars (fun c => negb (is_separator c)) w = true ->
  tokens w = if Str.is_empty w then [] else [w].
Proof.
  intros H. unfold tokens.
  pose proof (tokens_from_word w H "" "") as T.
  rewrite append_empty_r in T. rewrite T. cbn [append tokens_from].
  now destruct w.
Qed.

Lemma rstrip_by_first (p : ascii -> bool) (a : ascii) (s : string) :
  p a = false ->
  exists t, Str.rstrip_by p (String a s) = String a t.
Proof.
  intros H. simpl. destruct (Str.rstrip_by p s); rewrite ?H; eauto.
Qed.

Lemma rstrip_by_head (p : ascii -> bool) (a : ascii) (s : string) :
  Str.rstrip_by p (String a s) = ""
  \/ exists t, Str.rstrip_by p (String a s) = String a t.
Proof.
  simpl. destruct (Str.rstrip_by p s); [destruct (p a)|]; eauto.
Qed.

Lemma space_not_speed (c : ascii) :
  Str.is_space c = true -> Ascii.eqb c "3" || Ascii.eqb c "5" = false.
Proof.
  destruct c as [b0 b1 b2 b3 b4 b5 b6 b7];
    destruct b0, b1, b2, b3, b4, b5, b6, b7; simpl; intros H;
    try reflexivity; discriminate H.
Qed.

(** The spindle test looks at two characters, which a suffix after
    whitespace does not reach. *)
Lemma spindle_rstrip (u w : string) (c : ascii) :
  Str.is_space c = true ->
  match u with EmptyString => False | String x _ => Str.is_space x = false end ->
  spindle (u ++ String c w) = spindle (Str.rstrip_by Str.is_space u).
Proof.
  intros Hc. destruct u as [|x r]; [intros []|]. intros Hx.
  destruct r as [|y r'].
  - simpl. rewrite Hx. simpl. rewrite (space_not_speed c Hc).
    now rewrite andb_false_r.
  - destruct (Str.is_space y) eqn:Sy.
    + cbn [append spindle]. rewrite (space_not_speed y Sy), andb_false_r.
      destruct (rstrip_by_first Str.is_space x (String y r') Hx) as (t & Ht).
      rewrite Ht. cbn [Str.rstrip_by] in Ht.
      destruct (rstrip_by_head Str.is_space y r') as [E|(t' & E)].
      * cbn [Str.rstrip_by] in E. rewrite E, Hx in Ht.
        injection Ht as <-. reflexivity.
      * cbn [Str.rstrip_by] in E. rewrite E in Ht. injection Ht as <-.
        cbn [spindle]. now rewrite (space_not_speed y Sy), andb_false_r.
    + pose proof (rstrip_by_keep Str.is_space (String x (String y "")) r')
        as K.
      cbn [append all_chars] in K. rewrite Hx, Sy in K.
      rewrite (K eq_refl). reflexivity.
Qed.

Lemma move_of_body_inert (u : string) (c : ascii) (w : string) :
  Str.is_space c = true ->
  match u with EmptyString => False | String x _ => Str.is_space x = false end ->
  inert_word w ->
  move_of_body (Str.rstrip_by Str.is_space (u ++ String c w))
  = move_of_body (Str.rstrip_by Str.is_space u).
Proof.
  intros Hc Hu [Hw Hxy].
  assert (Hsep : all_chars (fun c => negb (is_separator c)) w = true).
  { revert Hw. apply all_chars_weaken. intros a H.
    now apply andb_true_iff in H as [H _]. }
  assert (Hsp : all_chars (fun c => negb (Str.is_space c)) w = true).
  { revert Hsep. apply all_chars_weaken. intros a H.
    apply negb_true_iff in H. apply negb_true_iff.
    destruct (Str.is_space a) eqn:S; [|reflexivity].
    now rewrite (space_is_separator a S) in H. }
  destruct u as [|x r]; [destruct Hu|].
  destruct (rstrip_by_first Str.is_space x r Hu) as (t & Ht).
  destruct w as [|d w'].
  - rewrite rstrip_by_app_all by (simpl; now rewrite Hc). reflexivity.
  - assert (Hd : Str.is_space d = false).
    { simpl in Hsp. apply andb_true_iff in Hsp as [Hd _].
      now apply negb_true_iff in Hd. }
    assert (Hfull : Str.rstrip_by Str.is_space
                      (String x r ++ String c (String d w'))
                    = String x r ++ String c (String d w')).
    { replace (String x r ++ String c (String d w'))
        with ((String x r ++ String c "") ++ String d w')
        by (rewrite append_assoc; reflexivity).
      rewrite (rstrip_by_at Str.is_space d _ w' Hd).
      do 2 f_equal.
      pose proof (rstrip_by_keep Str.is_space w' "") as K.
      cbn [Str.rstrip_by] in K. rewrite !append_empty_r in K.
      rewrite K; [reflexivity|].
      simpl in Hsp. now apply andb_true_iff in Hsp as [_ Hsp]. }
    rewrite Hfull. unfold move_of_body.
    rewrite Ht at 1. cbn [append Str.is_empty].
    change (String x (r ++ String c (String d w')))
      with (String x r ++ String c (String d w')).
    rewrite (spindle_rstrip (String x r) (String d w') c Hc Hu).
    destruct (spindle (Str.rstrip_by Str.is_space (String x r)));
      [reflexivity|].
    unfold tokens at 1.
    rewrite (tokens_from_app_sep c (String x r) (String d w')
               (space_is_separator c Hc)).
    rewrite (tokens_word (String d w') Hsep). cbn [Str.is_empty].
    rewrite scan_tokens_app_inert
      by (cbn [forallb]; now rewrite Hxy).
    unfold tokens. now rewrite tokens_from_rstrip.
Qed.

Lemma move_of_body_word (w : string) :
  inert_word w -> move_of_body w = Ok None.
Proof.
  intros [Hw Hxy]. unfold move_of_body.
  destruct (Str.is_empty w) eqn:E; [reflexivity|].
  destruct (spindle w); [reflexivity|].
  rewrite tokens_word, E.
  - cbn [scan_tokens]. rewrite (scan_token_other _ _ Hxy). reflexivity.
  - revert Hw. apply all_chars_weaken. intros a H.
    now apply andb_true_iff in H as [H _].
Qed.

Lemma parse_g1_xy_inert (a : string) (c : ascii) (w : string) :
  Str.is_space c = true -> inert_word w ->
  parse_g1_xy (a ++ String c w) = parse_g1_xy a.
Proof.
  intros Hc Hin. pose proof Hin as [Hw Hxy].
  assert (Hsp : all_chars (fun c => negb (Str.is_space c)) w = true).
  { revert Hw. apply all_chars_weaken. intros b H.
    apply andb_true_iff in H as [H _].
    apply negb_true_iff in H. apply negb_true_iff.
    destruct (Str.is_space b) eqn:S; [|reflexivity].
    now rewrite (space_is_separator b S) in H. }
  assert (Hnc : all_chars (fun c => negb (comment_start c)) (String c w)
                = true).
  { cbn [all_chars]. rewrite (space_not_comment c Hc). simpl.
    revert Hw. apply all_chars_weaken. intros b H.
    now apply andb_true_iff in H as [_ H]. }
  rewrite !parse_g1_xy_move_of_body. unfold body_of.
  rewrite strip_comment_app, (strip_comment_plain _ Hnc).
  destruct (all_chars (fun c0 => negb (comment_start c0)) a) eqn:Ea;
    [|reflexivity].
  rewrite (strip_comment_plain a Ea). unfold Str.strip.
  rewrite lstrip_by_app.
  destruct (all_chars Str.is_space a) eqn:Es.
  - rewrite (lstrip_by_all _ _ Es). cbn [Str.lstrip_by Str.rstrip_by].
    rewrite Hc.
    pose proof (strip_plain w Hsp) as P. unfold Str.strip in P.
    rewrite P. rewrite (move_of_body_word w Hin). reflexivity.
  - apply move_of_body_inert; [exact Hc| |exact Hin].
    pose proof (lstrip_by_head Str.is_space a) as H.
    destruct (Str.lstrip_by Str.is_space a) eqn:E; [|exact H].
    clear H. revert Es E. clear. induction a as [|x a IH]; simpl;
      [discriminate|].
    destruct (Str.is_space x); simpl; [exact IH | discriminate].
Qed.

(** ** Writing the document and reading it back *)

Lemma readlines_from_line (l rest : string) :
  one_line l = true ->
  forall cur,
    readlines_from cur (l ++ String newline rest)
    = (cur ++ with_newline l) :: readlines_from "" rest.
Proof.
  unfold one_line, with_newline.
  induction l as [|a l IH]; intros H cur.
  - reflexivity.
  - cbn [all_chars] in H. apply andb_true_iff in H as [Ha Hl].
    apply negb_true_iff in Ha. unfold is_line_end in Ha.
    apply orb_false_iff in Ha as [Ha1 Ha2].
    cbn [append readlines_from]. unfold newline in Ha1.
    rewrite Ha1, Ha2, (IH Hl). rewrite append_assoc. reflexivity.
Qed.

Lemma readlines_join (out : list string) :
  out <> [] ->
  forallb one_line out = true ->
  readlines (Str.join (String newline "") out ++ String newline "")
  = List.map with_newline out.
Proof.
  unfold readlines. induction out as [|x out IH]; [contradiction|].
  intros _ H. cbn [forallb] in H. apply andb_true_iff in H as [Hx Hout].
  destruct out as [|y out].
  - cbn [Str.join List.map]. now rewrite (readlines_from_line x "" Hx "").
  - change (Str.join (String newline "") (x :: y :: out))
      with (x ++ String newline "" ++ Str.join (String newline "") (y :: out)).
    rewrite append_assoc. cbn [append List.map].
    change (String newline
              (Str.join (String newline "") (y :: out) ++ String newline ""))
      with (String newline
              (Str.join (String newline "") (y :: out) ++ String newline "")).
    rewrite (readlines_from_line x _ Hx ""). cbn [append].
    f_equal. apply IH; [discriminate | exact Hout].
Qed.

Lemma parse_g1_xy_with_newline (l : string) :
  parse_g1_xy (with_newline l) = parse_g1_xy l.
Proof.
  apply parse_g1_xy_same_body. now apply body_of_spaces_after.
Qed.

Lemma moves_of_with_newline (ls : list string) :
  moves_of (List.map with_newline ls) = moves_of ls
  /\ unread (List.map with_newline ls) = unread ls.
Proof.
  induction ls as [|l ls [IH1 IH2]]; [split; reflexivity|].
  cbn [List.map moves_of unread]. rewrite parse_g1_xy_with_newline, IH1, IH2.
  split; reflexivity.
Qed.

Lemma inert_feed : inert_word "F200".
Proof. split; reflexivity. Qed.

Lemma parse_g1_xy_feed (l : string) :
  parse_g1_xy (l ++ " F200") = parse_g1_xy l.
Proof. apply (parse_g1_xy_inert l " " "F200"); [reflexivity | exact inert_feed]. Qed.

Lemma moves_of_lines_to_save (lines : list string) :
  lines <> [] ->
  moves_of (lines_to_save lines) = moves_of lines
  /\ unread (lines_to_save lines) = (unread lines + 2)%nat.
Proof.
  destruct lines as [|first rest]; [contradiction|]. intros _.
  unfold lines_to_save.
  set (f := if no_feed first then first ++ " F200" else first).
  assert (Hf : parse_g1_xy f = parse_g1_xy first).
  { subst f. destruct (no_feed first); [apply parse_g1_xy_feed | reflexivity]. }
  assert (H3 : parse_g1_xy "M3" = Ok None) by (vm_compute; reflexivity).
  assert (H5 : parse_g1_xy "M5" = Ok None) by (vm_compute; reflexivity).
  cbn [app moves_of unread]. rewrite H3, Hf, moves_of_app, unread_app.
  cbn [moves_of unread]. rewrite H5, app_nil_r.
  destruct (parse_g1_xy first) as [[m|]|e]; split; try reflexivity; lia.
Qed.

Lemma one_line_lines_to_save (lines : list string) :
  forallb one_line lines = true ->
  forallb one_line (lines_to_save lines) = true.
Proof.
  destruct lines as [|first rest]; [reflexivity|].
  cbn [forallb]. intros H. apply andb_true_iff in H as [Hf Hr].
  unfold lines_to_save.
  set (f := if no_feed first then first ++ " F200" else first).
  assert (Hf' : one_line f = true).
  { subst f. destruct (no_feed first); [|exact Hf].
    unfold one_line in *. rewrite all_chars_app, Hf. reflexivity. }
  cbn [app forallb]. rewrite forallb_app, Hr, Hf'. reflexivity.
Qed.

(** ** The preview line *)

Lemma contains_char_app (c : ascii) (a b : string) :
  Str.contains_char c (a ++ b)
  = Str.contains_char c a || Str.contains_char c b.
Proof.
  induction a as [|x a IH]; simpl; [reflexivity|].
  now rewrite IH, orb_assoc.
Qed.

Lemma contains_char_none (c : ascii) (s : string) :
  all_chars (fun a => negb (Ascii.eqb a c)) s = true ->
  Str.contains_char c s = false.
Proof.
  induction s as [|x s IH]; simpl; [reflexivity|].
  intros H. apply andb_true_iff in H as [Hx Hs].
  apply negb_true_iff in Hx. now rewrite Hx, (IH Hs).
Qed.

Lemma numeral_char_no_mark (c : ascii) :
  numeral_char c = true -> Ascii.eqb c "?" = false.
Proof.
  destruct c as [b0 b1 b2 b3 b4 b5 b6 b7];
    destruct b0, b1, b2, b3, b4, b5, b6, b7; simpl; intros H;
    try reflexivity; discriminate H.
Qed.

Lemma decimal_text_no_mark (s : string) :
  decimal_text s -> Str.contains_char "?" s = false.
Proof.
  intros H. apply contains_char_none.
  apply (numeral_plain (fun a => Ascii.eqb a "?") s numeral_char_no_mark H).
Qed.

Lemma is_empty_false (s : string) :
  Str.is_empty s = false -> exists a r, s = String a r.
Proof. destruct s as [|a r]; [discriminate | eauto]. Qed.

(** ** Whitespace around an entry *)

Lemma strip_padded (w s w' : string) :
  all_chars Str.is_space w = true -> all_chars Str.is_space w' = true ->
  Str.strip (w ++ s ++ w') = Str.strip s.
Proof.
  intros H H'. rewrite (strip_all_app w _ H). now apply strip_app_all.
Qed.

(** [float] passes over the whitespace of its own at both ends. *)
Lemma float_strip_padded (w s w' : string) :
  all_chars Flt.is_float_space w = true ->
  all_chars Flt.is_float_space w' = true ->
  Flt.float_strip (w ++ s ++ w') = Flt.float_strip s.
Proof.
  intros H H'. unfold Flt.float_strip.
  rewrite lstrip_by_app, H, lstrip_by_app.
  destruct (all_chars Flt.is_float_space s) eqn:E.
  - rewrite (lstrip_by_all _ _ H'), (lstrip_by_all _ _ E). reflexivity.
  - now apply rstrip_by_app_all.
Qed.

Lemma of_string_padded (w s w' : string) :
  all_chars Flt.is_float_space w = true ->
  all_chars Flt.is_float_space w' = true ->
  Flt.of_string (w ++ s ++ w') = Flt.of_string s.
Proof.
  intros H H'. unfold Flt.of_string.
  now rewrite (float_strip_padded w s w' H H').
Qed.

Lemma fmt_number_padded (w s w' : string) :
  all_chars Str.is_space w = true -> all_chars Str.is_space w' = true ->
  fmt_number (w ++ s ++ w') = fmt_number s.
Proof.
  intros H H'. unfold fmt_number. now rewrite (strip_padded w s w' H H').
Qed.

Lemma parse_float_padded {A : Type} (inj : float -> A) (w s w' : string)
      (d : A) :
  all_chars Flt.is_float_space w = true ->
  all_chars Flt.is_float_space w' = true ->
  parse_float inj (w ++ s ++ w') d = parse_float inj s d.
Proof.
  intros H H'. unfold parse_float. now rewrite (of_string_padded w s w' H H').
Qed.

(** The separators 28 to 31 are whitespace for [str.strip], not for
    [float]: a text that begins with one does not read as a float. *)
Lemma of_string_separator (c : ascii) (s : string) :
  Str.is_space c = true -> Flt.is_float_space c = false ->
  Flt.of_string (String c s) = Raise ValueError.
Proof.
  intros Hs Hf. unfold Flt.of_string, Flt.float_strip.
  cbn [Str.lstrip_by]. rewrite Hf.
  destruct (rstrip_by_first Flt.is_float_space c s Hf) as (t & ->).
  destruct (negb (Flt.underscores_ok None (String c t))); [reflexivity|].
  destruct c as [b0 b1 b2 b3 b4 b5 b6 b7];
    destruct b0, b1, b2, b3, b4, b5, b6, b7;
    try discriminate Hs; try discriminate Hf; reflexivity.
Qed.

(** ** Limits that are never exceeded *)

Lemma exceeds_unreachable (bound : option float) (v : float) :
  unreachable bound = true -> exceeds bound v = false.
Proof.
  destruct bound as [[s|[|]| |s m e]|]; try discriminate; intros _;
    [| |reflexivity]; unfold exceeds, Flt.gtb, SFltb; simpl.
  - destruct v as [t|[|]| |t n f]; reflexivity.
  - reflexivity.
Qed.

Lemma within_unreachable (max_x max_y : option float)
      (g : list (float * float)) :
  unreachable max_x = true -> unreachable max_y = true ->
  forallb (within max_x max_y) g = true.
Proof.
  intros Hx Hy. apply forallb_forall. intros p _. unfold within.
  now rewrite (exceeds_unreachable _ _ Hx), (exceeds_unreachable _ _ Hy).
Qed.

(** ** The comparison within the tolerance *)

Lemma abs_binary_round (s : bool) (m : positive) (e : Z) :
  SFabs (binary_round Flt.prec Flt.emax s m e)
  = SFabs (binary_round Flt.prec Flt.emax (negb s) m e).
Proof.
  unfold binary_round.
  destruct (shl_align m e _) as [mz ez].
  unfold binary_round_aux.
  destruct (shr_fexp Flt.prec Flt.emax (Z.pos mz) ez loc_Exact) as [mrs' e'].
  destruct (shr_fexp Flt.prec Flt.emax _ e' loc_Exact) as [mrs'' e''].
  destruct (shr_m mrs'') as [|p|p]; [reflexivity| |reflexivity].
  destruct (e'' <=? Flt.emax - Flt.prec)%Z; reflexivity.
Qed.

Lemma abs_binary_normalize_opp (m : Z) (e : Z) :
  SFabs (binary_normalize Flt.prec Flt.emax (- m) e false)
  = SFabs (binary_normalize Flt.prec Flt.emax m e false).
Proof.
  destruct m as [|p|p]; simpl; [reflexivity| |].
  - apply (abs_binary_round true p e).
  - apply (abs_binary_round false p e).
Qed.

Lemma abs_sub_sym (a b : float) :
  Flt.abs (Flt.sub a b) = Flt.abs (Flt.sub b a).
Proof.
  unfold Flt.abs, Flt.sub.
  destruct a as [s|s| |s m e], b as [t|t| |t n f];
    try reflexivity; try (destruct s, t; reflexivity).
  unfold SFsub. rewrite (Z.min_comm f e).
  rewrite <- abs_binary_normalize_opp. f_equal. f_equal. lia.
Qed.

Lemma sub_diag_finite (a : float) :
  is_finite a = true -> Flt.abs (Flt.sub a a) = S754_zero false.
Proof.
  unfold Flt.abs, Flt.sub.
  destruct a as [s|s| |s m e]; try discriminate; intros _.
  - destruct s; reflexivity.
  - unfold SFsub. now rewrite Z.sub_diag.
Qed.

(* ===================================================================== *)
(** * Trimming and reading numbers, against the words of the specification *)

(** ** [str.strip] trims *)

Lemma lstrip_by_split (p : ascii -> bool) (s : string) :
  exists l, s = l ++ Str.lstrip_by p s /\ all_chars p l = true.
Proof.
  induction s as [|a s (l & Hl & Hp)]; simpl.
  - exists "". split; reflexivity.
  - destruct (p a) eqn:Pa.
    + exists (String a l). simpl. rewrite Pa, Hp. split; [|reflexivity].
      now rewrite <- Hl.
    + exists "". split; reflexivity.
Qed.

Lemma rstrip_by_split (p : ascii -> bool) (s : string) :
  exists r, s = Str.rstrip_by p s ++ r /\ all_chars p r = true.
Proof.
  induction s as [|a s (r & Hr & Hp)]; simpl.
  - exists "". split; reflexivity.
  - destruct (Str.rstrip_by p s) as [|b t] eqn:E.
    + destruct (p a) eqn:Pa.
      * exists (String a r). simpl in *. rewrite Pa, Hp.
        split; [now rewrite <- Hr | reflexivity].
      * exists r. simpl in *. split; [now rewrite <- Hr | exact Hp].
    + exists r. simpl in *. split; [now rewrite <- Hr | exact Hp].
Qed.

Lemma rstrip_by_last (p : ascii -> bool) (s u : string) (c : ascii) :
  Str.rstrip_by p s = u ++ String c "" -> p c = false.
Proof.
  revert u. induction s as [|a s IH]; intros u; simpl.
  - destruct u; discriminate.
  - destruct (Str.rstrip_by p s) as [|b t] eqn:E.
    + destruct (p a) eqn:Pa; [destruct u; discriminate|].
      destruct u as [|x u]; simpl; [now intros [= <-]|].
      intros [= _ H]. destruct u; discriminate.
    + destruct u as [|x u]; simpl; [discriminate|].
      intros [= _ H]. now apply (IH u).
Qed.

Lemma rstrip_by_fixed (p : ascii -> bool) (t : string) :
  (forall u c, t = u ++ String c "" -> p c = false) ->
  Str.rstrip_by p t = t.
Proof.
  induction t as [|a t IH]; intros H; simpl; [reflexivity|].
  destruct t as [|b t].
  - simpl. now rewrite (H "" a eq_refl).
  - rewrite IH.
    + reflexivity.
    + intros u c E. apply (H (String a u) c). simpl. now rewrite E.
Qed.

Lemma strip_head (s : string) (c : ascii) (u : string) :
  Str.strip s = String c u -> Str.is_space c = false.
Proof.
  intros E. pose proof (lstrip_by_head Str.is_space (Str.strip s)) as H.
  unfold Str.strip in H at 1.
  rewrite lstrip_by_rstrip_by in H by apply lstrip_by_head.
  fold (Str.strip s) in H. now rewrite E in H.
Qed.

Lemma strip_padded_both (l t r : string) :
  all_chars Str.is_space l = true -> all_chars Str.is_space r = true ->
  Str.strip (l ++ t ++ r) = Str.strip t.
Proof.
  intros Hl Hr. unfold Str.strip.
  assert (A : forall a w, all_chars Str.is_space a = true ->
                          Str.lstrip_by Str.is_space (a ++ w)
                          = Str.lstrip_by Str.is_space w).
  { intros a w Ha. induction a as [|x a IH]; simpl in *; [reflexivity|].
    apply andb_true_iff in Ha as [Hx Ha]. rewrite Hx. now apply IH. }
  assert (B : forall x w, all_chars Str.is_space w = true ->
                          Str.rstrip_by Str.is_space (x ++ w)
                          = Str.rstrip_by Str.is_space x).
  { intros x w Hw. induction x as [|c x IH]; simpl.
    - induction w as [|y w IHw]; simpl in *; [reflexivity|].
      apply andb_true_iff in Hw as [Hy Hw]. now rewrite (IHw Hw), Hy.
    - now rewrite IH. }
  assert (C : forall a w,
             Str.lstrip_by Str.is_space (a ++ w)
             = if all_chars Str.is_space a
               then Str.lstrip_by Str.is_space w
               else Str.lstrip_by Str.is_space a ++ w).
  { intros a w. induction a as [|x a IH]; simpl; [reflexivity|].
    destruct (Str.is_space x); simpl; [exact IH | reflexivity]. }
  rewrite (A l _ Hl), C.
  destruct (all_chars Str.is_space t) eqn:Et.
  - assert (E : Str.lstrip_by Str.is_space t = "").
    { clear -Et. induction t as [|x t IH]; simpl in *; [reflexivity|].
      apply andb_true_iff in Et as [Hx Et]. rewrite Hx. now apply IH. }
    assert (E' : Str.lstrip_by Str.is_space r = "").
    { clear -Hr. induction r as [|x r IH]; simpl in *; [reflexivity|].
      apply andb_true_iff in Hr as [Hx Hr]. rewrite Hx. now apply IH. }
    now rewrite E, E'.
  - now apply B.
Qed.

(** The text that [str.strip] returns is the trimmed text, and the only
    one. *)
Lemma trimmed_strip (s t : string) : trimmed s t <-> t = Str.strip s.
Proof.
  split.
  - intros (l & r & -> & Hl & Hr & Hhead & Hlast).
    rewrite (strip_padded_both l t r Hl Hr). unfold Str.strip.
    assert (E : Str.lstrip_by Str.is_space t = t).
    { destruct t as [|c u]; [reflexivity|]. simpl.
      now rewrite (Hhead c u eq_refl). }
    rewrite E. symmetry. now apply rstrip_by_fixed.
  - intros ->.
    destruct (lstrip_by_split Str.is_space s) as (l & Hl & Pl).
    destruct (rstrip_by_split Str.is_space (Str.lstrip_by Str.is_space s))
      as (r & Hr & Pr).
    exists l, r. fold (Str.strip s) in Hr.
    split; [now rewrite <- Hr|].
    split; [exact Pl|]. split; [exact Pr|]. split.
    + intros c u E. now apply (strip_head s c u).
    + intros u c E. unfold Str.strip in E.
      now apply (rstrip_by_last _ _ _ _ E).
Qed.

(** ** What [float] reads *)

Lemma digit_is_digit (c : ascii) : digit c = Str.is_digit c.
Proof. by_bits c. Qed.

Lemma digits_all (s : string) : digits s <-> all_chars Str.is_digit s = true.
Proof.
  unfold digits. induction s as [|c s IH]; simpl; [tauto|].
  rewrite digit_is_digit, !andb_true_iff. tauto.
Qed.

Lemma without_underscores_eq (s : string) :
  without_underscores s = Flt.remove_underscores s.
Proof.
  induction s as [|a s IH]; simpl; [reflexivity|].
  unfold Flt.is_underscore. now rewrite IH.
Qed.

Lemma span_spec (p : ascii -> bool) (s : string) :
  forall x y,
    Flt.span p s = (x, y) ->
    s = x ++ y /\ all_chars p x = true /\ head_not p y.
Proof.
  induction s as [|a s IH]; simpl; intros x y.
  - intros [= <- <-]. repeat split.
  - destruct (p a) eqn:Pa.
    + destruct (Flt.span p s) as [x' y'] eqn:E. intros [= <- <-].
      destruct (IH x' y' eq_refl) as (-> & Hx & Hy).
      simpl. rewrite Pa, Hx. repeat split. exact Hy.
    + intros [= <- <-]. simpl. repeat split. exact Pa.
Qed.

Lemma span_app (p : ascii -> bool) (x rest : string) :
  all_chars p x = true -> head_not p rest ->
  Flt.span p (x ++ rest) = (x, rest).
Proof.
  intros Hx Hr. rewrite (span_all p x rest Hx).
  destruct rest as [|c r]; simpl in *.
  - now rewrite append_empty_r.
  - rewrite Hr. simpl. now rewrite append_empty_r.
Qed.

Lemma span_full (p : ascii -> bool) (x : string) :
  all_chars p x = true -> Flt.span p x = (x, "").
Proof.
  intros Hx. pose proof (span_app p x "" Hx I) as H.
  now rewrite append_empty_r in H.
Qed.

(** The two pattern matches on a character of the reader, as tests. *)
Lemma split_sign_eq (s : string) :
  Flt.split_sign s
  = match s with
    | EmptyString => (false, EmptyString)
    | String c r =>
        if Ascii.eqb c "-" then (true, r)
        else if Ascii.eqb c "+" then (false, r)
        else (false, s)
    end.
Proof.
  destruct s as [|c r]; [reflexivity|].
  destruct c as [b0 b1 b2 b3 b4 b5 b6 b7];
    destruct b0, b1, b2, b3, b4, b5, b6, b7; reflexivity.
Qed.

Lemma parse_decimal_eq (s : string) :
  Flt.parse_decimal s
  = let '(ip, r1) := Flt.span Str.is_digit s in
    let '(fp, r2) :=
      match r1 with
      | EmptyString => (EmptyString, r1)
      | String c r =>
          if Ascii.eqb c "." then Flt.span Str.is_digit r
          else (EmptyString, r1)
      end in
    if Str.is_empty ip && Str.is_empty fp then None
    else match Flt.parse_exponent r2 with
         | Some e =>
             Some (Flt.digits_val (ip ++ fp),
                   (e - Z.of_nat (String.length fp))%Z)
         | None => None
         end.
Proof.
  unfold Flt.parse_decimal.
  destruct (Flt.span Str.is_digit s) as [ip r1].
  destruct r1 as [|c r]; [reflexivity|].
  destruct c as [b0 b1 b2 b3 b4 b5 b6 b7];
    destruct b0, b1, b2, b3, b4, b5, b6, b7; reflexivity.
Qed.

Lemma sign_mark_split (s : string) :
  exists sg, s = sg ++ snd (Flt.split_sign s) /\ sign_mark sg.
Proof.
  rewrite split_sign_eq. destruct s as [|c r].
  - exists "". split; [reflexivity | now left].
  - destruct (Ascii.eqb_spec c "-") as [->|N1].
    + exists "-". split; [reflexivity | right; now right].
    + destruct (Ascii.eqb_spec c "+") as [->|N2].
      * exists "+". split; [reflexivity | right; now left].
      * exists "". split; [reflexivity | now left].
Qed.

(** After a sign mark, a text that does not begin with a sign. *)
Lemma split_sign_mark (sg body : string) :
  sign_mark sg ->
  head_not (fun c => Ascii.eqb c "-" || Ascii.eqb c "+") body ->
  snd (Flt.split_sign (sg ++ body)) = body.
Proof.
  intros [->|[->| ->]] H; [|reflexivity|reflexivity].
  rewrite split_sign_eq. destruct body as [|c r]; [reflexivity|].
  simpl in *. apply orb_false_iff in H as [-> ->]. reflexivity.
Qed.

Lemma digit_not_sign (c : ascii) :
  Str.is_digit c = true -> Ascii.eqb c "-" || Ascii.eqb c "+" = false.
Proof.
  destruct c as [b0 b1 b2 b3 b4 b5 b6 b7];
    destruct b0, b1, b2, b3, b4, b5, b6, b7; simpl; intros H;
    try reflexivity; discriminate H.
Qed.

Lemma digits_head_not_sign (ds rest : string) :
  all_chars Str.is_digit ds = true -> ds <> "" ->
  head_not (fun c => Ascii.eqb c "-" || Ascii.eqb c "+") (ds ++ rest).
Proof.
  destruct ds as [|d ds]; [contradiction|]. simpl. intros H _.
  apply andb_true_iff in H as [H _]. now apply digit_not_sign.
Qed.

Lemma is_empty_false_iff (s : string) : Str.is_empty s = false <-> s <> "".
Proof. destruct s; simpl; split; congruence. Qed.

Lemma parse_exponent_spec (r : string) :
  (exists e, Flt.parse_exponent r = Some e) <-> exponent_part r.
Proof.
  unfold Flt.parse_exponent, exponent_part. destruct r as [|c r1].
  - split; [now left | eauto].
  - split.
    + intros (e & H). right.
      destruct (Ascii.eqb c "e" || Ascii.eqb c "E") eqn:Ec; [|discriminate].
      destruct (sign_mark_split r1) as (sg & Hr1 & Hsg).
      destruct (Flt.split_sign r1) as [neg r2]. cbn [snd] in Hr1.
      destruct (Flt.span Str.is_digit r2) as [ds rest] eqn:Es.
      destruct (span_spec _ _ _ _ Es) as (Hr2 & Hds & _).
      destruct (Str.is_empty ds) eqn:E1; [discriminate|].
      destruct rest; [|discriminate].
      rewrite append_empty_r in Hr2. subst r2.
      exists c, sg, ds. split; [now rewrite Hr1|]. split.
      * apply orb_true_iff in Ec as [Ec|Ec];
          apply Ascii.eqb_eq in Ec; auto.
      * split; [exact Hsg|]. split; [now apply digits_all|].
        now apply is_empty_false_iff.
    + intros [H|(c' & sg & ds & [= -> ->] & Hc & Hsg & Hds & Hne)];
        [discriminate|].
      apply digits_all in Hds.
      assert (Ec : Ascii.eqb c' "e" || Ascii.eqb c' "E" = true)
        by (destruct Hc as [->| ->]; reflexivity).
      rewrite Ec.
      assert (Hs : snd (Flt.split_sign (sg ++ ds)) = ds).
      { apply split_sign_mark; [exact Hsg|].
        rewrite <- (append_empty_r ds).
        now apply digits_head_not_sign. }
      destruct (Flt.split_sign (sg ++ ds)) as [neg r2]. cbn [snd] in Hs.
      subst r2.
      rewrite (span_full _ ds Hds).
      apply is_empty_false_iff in Hne. rewrite Hne. simpl. eauto.
Qed.

Lemma exponent_head (ex : string) :
  exponent_part ex ->
  head_not Str.is_digit ex
  /\ head_not (fun c => Ascii.eqb c ".") ex.
Proof.
  intros [->|(c & sg & ds & -> & [->| ->] & _)]; simpl; auto.
Qed.

Lemma parse_decimal_spec (body : string) :
  (exists r, Flt.parse_decimal body = Some r)
  <-> exists m ex, body = m ++ ex /\ mantissa m /\ exponent_part ex.
Proof.
  rewrite parse_decimal_eq. split.
  - intros (res & H).
    destruct (Flt.span Str.is_digit body) as [ip r1] eqn:E1.
    destruct (span_spec _ _ _ _ E1) as (-> & Hip & Hr1).
    destruct r1 as [|c r].
    + destruct (Str.is_empty ip) eqn:Ei; simpl in H; [discriminate|].
      exists ip, "". split; [reflexivity|]. split; [|now left].
      exists ip, "". split; [now apply digits_all|].
      split; [reflexivity|]. left. split; [reflexivity|].
      now apply is_empty_false_iff.
    + destruct (Ascii.eqb_spec c ".") as [->|Nc].
      * destruct (Flt.span Str.is_digit r) as [fp r2] eqn:E2.
        destruct (span_spec _ _ _ _ E2) as (-> & Hfp & _).
        destruct (Str.is_empty ip && Str.is_empty fp) eqn:Ee;
          [discriminate|].
        destruct (Flt.parse_exponent r2) as [e|] eqn:Ex; [|discriminate].
        exists (ip ++ String "." fp), r2.
        split; [now rewrite append_assoc|]. split.
        -- exists ip, fp. split; [now apply digits_all|].
           split; [now apply digits_all|]. right. split; [reflexivity|].
           apply andb_false_iff in Ee as [Ee|Ee];
             apply is_empty_false_iff in Ee; auto.
        -- apply parse_exponent_spec. eauto.
      * destruct (Str.is_empty ip) eqn:Ei; cbn [andb Str.is_empty] in H;
          [discriminate|].
        destruct (Flt.parse_exponent (String c r)) as [e|] eqn:Ex;
          [|discriminate].
        exists ip, (String c r). split; [reflexivity|]. split.
        -- exists ip, "". split; [now apply digits_all|].
           split; [reflexivity|]. left. split; [reflexivity|].
           now apply is_empty_false_iff.
        -- apply parse_exponent_spec. eauto.
  - intros (m & ex & -> & (ip & fp & Hip & Hfp & Hm) & Hex).
    apply digits_all in Hip. apply digits_all in Hfp.
    destruct (exponent_head ex Hex) as [Hd Hp].
    apply parse_exponent_spec in Hex as (e & He).
    destruct Hm as [[-> Hne]|[-> Hne]].
    + rewrite (span_app _ ip ex Hip Hd).
      apply is_empty_false_iff in Hne. rewrite Hne. cbn [andb].
      destruct ex as [|c r]; [rewrite He; eauto|].
      simpl in Hp. rewrite Hp, He. eauto.
    + rewrite append_assoc. cbn [append].
      rewrite (span_app _ ip (String "." (fp ++ ex)) Hip eq_refl).
      cbn [Ascii.eqb Bool.eqb andb]. rewrite (span_app _ fp ex Hfp Hd).
      assert (Ee : Str.is_empty ip && Str.is_empty fp = false).
      { apply andb_false_iff.
        destruct Hne as [H|H]; apply is_empty_false_iff in H; auto. }
      rewrite Ee, He. eauto.
Qed.

(** *** The special values *)

Lemma lower_char_letter (a b : ascii) :
  In a ["i"; "n"; "f"; "t"; "y"; "a"]%char ->
  Ascii.eqb (Str.lower_char b) a
  = Ascii.eqb b a || Ascii.eqb b (capital a).
Proof.
  intros [<-|[<-|[<-|[<-|[<-|[<-|[]]]]]]];
    destruct b as [b0 b1 b2 b3 b4 b5 b6 b7];
    destruct b0, b1, b2, b3, b4, b5, b6, b7; reflexivity.
Qed.

Lemma spells_lower (w : string) :
  (forall a, In a (list_ascii_of_string w) ->
             In a ["i"; "n"; "f"; "t"; "y"; "a"]%char) ->
  forall s, String.eqb (Str.lower s) w = spells w s.
Proof.
  induction w as [|a w IH]; intros Hw s.
  - destruct s; reflexivity.
  - destruct s as [|b s]; [reflexivity|].
    cbn [Str.lower Str.map String.eqb spells].
    fold (Str.lower s).
    rewrite (lower_char_letter a b) by (apply Hw; now left).
    rewrite IH; [reflexivity|].
    intros c Hc. apply Hw. now right.
Qed.

Lemma special_test_spec (body : string) :
  special_test body = true
  <-> (spells "inf" body = true \/ spells "infinity" body = true
       \/ spells "nan" body = true).
Proof.
  unfold special_test.
  rewrite !spells_lower
    by (intros a Ha; simpl in Ha; simpl; intuition congruence).
  rewrite !orb_true_iff. tauto.
Qed.

Lemma spells_head (w s : string) (a : ascii) :
  spells (String a w) s = true ->
  exists b r, s = String b r /\ (b = a \/ b = capital a).
Proof.
  destruct s as [|b r]; [discriminate|]. simpl. intros H.
  apply andb_true_iff in H as [H _]. exists b, r. split; [reflexivity|].
  apply orb_true_iff in H as [H|H]; apply Ascii.eqb_eq in H; auto.
Qed.

Lemma special_head (w : string) :
  spells "inf" w = true \/ spells "infinity" w = true
  \/ spells "nan" w = true ->
  head_not (fun c => Ascii.eqb c "-" || Ascii.eqb c "+") w.
Proof.
  intros [H|[H|H]]; apply spells_head in H as (b & r & -> & [->| ->]);
    reflexivity.
Qed.

Lemma mantissa_head (m rest : string) :
  mantissa m ->
  head_not (fun c => Ascii.eqb c "-" || Ascii.eqb c "+") (m ++ rest).
Proof.
  intros (ip & fp & Hip & Hfp & H). apply digits_all in Hip.
  destruct ip as [|d ip].
  - destruct H as [[-> Hne]|[-> _]]; [contradiction | reflexivity].
  - assert (Hd : Ascii.eqb d "-" || Ascii.eqb d "+" = false).
    { simpl in Hip. apply andb_true_iff in Hip as [Hd _].
      now apply digit_not_sign. }
    destruct H as [[-> _]|[-> _]]; exact Hd.
Qed.

(** *** A numeral without underscores *)

Lemma plain_test_spec (u : string) :
  plain_test u = true <-> real_numeral u \/ special_value u.
Proof.
  unfold plain_test. split.
  - intros H. destruct (sign_mark_split u) as (sg & Hu & Hsg).
    apply orb_true_iff in H as [H|H].
    + right. exists sg, (snd (Flt.split_sign u)).
      split; [exact Hu|]. split; [exact Hsg|].
      now apply special_test_spec.
    + left.
      destruct (Flt.parse_decimal (snd (Flt.split_sign u))) as [r|] eqn:E;
        [|discriminate].
      destruct (proj1 (parse_decimal_spec _) (ex_intro _ r E))
        as (m & ex & Hb & Hm & Hex).
      exists sg, m, ex. split; [now rewrite <- Hb|]. auto.
  - intros [(sg & m & ex & -> & Hsg & Hm & Hex)
           |(sg & w & -> & Hsg & Hw)].
    + rewrite (split_sign_mark sg (m ++ ex) Hsg (mantissa_head m ex Hm)).
      destruct (proj2 (parse_decimal_spec (m ++ ex))) as (r & ->).
      * exists m, ex. auto.
      * apply orb_true_r.
    + rewrite (split_sign_mark sg w Hsg (special_head w Hw)).
      apply orb_true_iff. left. now apply special_test_spec.
Qed.

Lemma of_string_plain_test (s : string) :
  (exists v, Flt.of_string s = Ok v)
  <-> Flt.underscores_ok None (Flt.float_strip s) = true
      /\ plain_test (Flt.remove_underscores (Flt.float_strip s)) = true.
Proof.
  unfold Flt.of_string, plain_test, special_test.
  destruct (Flt.underscores_ok None (Flt.float_strip s)); cbn [negb].
  2:{ split; [intros (v & H); discriminate | intros [H _]; discriminate]. }
  destruct (Flt.split_sign (Flt.remove_underscores (Flt.float_strip s)))
    as [sx body]. cbn [snd].
  destruct (String.eqb (Str.lower body) "inf"
            || String.eqb (Str.lower body) "infinity"); cbn [orb].
  { split; [auto | eauto]. }
  destruct (String.eqb (Str.lower body) "nan"); cbn [orb].
  { split; [auto | eauto]. }
  destruct (Flt.parse_decimal body) as [[m e10]|].
  - split; [auto | eauto].
  - split; [intros (v & H); discriminate | intros [_ H]; discriminate].
Qed.

(** *** Underscores *)

Lemma snoc_cons (x : ascii) (a1 a' : string) (d : ascii) :
  String x a1 = a' ++ String d "" ->
  (a1 = "" /\ a' = "" /\ d = x)
  \/ exists a'', a' = String x a'' /\ a1 = a'' ++ String d "".
Proof.
  destruct a' as [|y a'']; simpl.
  - intros [= -> <-]. left. auto.
  - intros [= -> ->]. right. eauto.
Qed.

Lemma underscores_ok_spec (t : string) :
  forall prev,
    Flt.underscores_ok prev t = true <-> underscores_after prev t.
Proof.
  unfold underscores_after.
  induction t as [|x r IH]; intros prev.
  - simpl. unfold Flt.is_underscore. split.
    + intros H. split.
      * intros ->. discriminate.
      * intros [|y a] b E; discriminate.
    + intros [H1 _]. destruct prev as [p|]; [|reflexivity].
      destruct (Ascii.eqb_spec p "_") as [->|N]; [|reflexivity].
      destruct (H1 eq_refl) as (d & b' & E & _). discriminate.
  - cbn [Flt.underscores_ok]. unfold Flt.is_underscore.
    rewrite andb_true_iff, (IH (Some x)). split.
    + intros [Hc [U1 U2]]. split.
      * intros ->. exists x, r. split; [reflexivity|].
        rewrite digit_is_digit.
        destruct (Ascii.eqb_spec x "_") as [->|N]; [discriminate|].
        exact Hc.
      * intros [|y a1] b E.
        -- injection E as -> <-. simpl in Hc. split.
           ++ destruct prev as [p|]; [|discriminate].
              exists p. split; [reflexivity|]. now rewrite digit_is_digit.
           ++ now apply U1.
        -- simpl in E. injection E as <- ->.
           destruct (U2 a1 b eq_refl) as [Ha Hb]. split; [|exact Hb].
           destruct a1 as [|z a2].
           ++ destruct Ha as (p & [= <-] & Hp). exists "", x. auto.
           ++ destruct Ha as (a' & d & -> & Hd).
              exists (String x a'), d. auto.
    + intros [H1 H2]. split.
      * destruct (Ascii.eqb_spec x "_") as [->|N].
        -- destruct (H2 "" r eq_refl) as [(p & -> & Hp) _].
           now rewrite <- digit_is_digit.
        -- destruct prev as [p|]; [|reflexivity].
           destruct (Ascii.eqb_spec p "_") as [->|Np]; [|reflexivity].
           destruct (H1 eq_refl) as (d & b' & [= <- <-] & Hd).
           now rewrite <- digit_is_digit.
      * split.
        -- intros [= ->]. now destruct (H2 "" r eq_refl) as [_ H].
        -- intros a1 b ->.
           destruct (H2 (String x a1) b eq_refl) as [(a' & d & E & Hd) Hb].
           split; [|exact Hb].
           apply snoc_cons in E as [(-> & -> & ->)|(a'' & -> & ->)].
           ++ exists x. auto.
           ++ destruct a'' as [|z a3]; simpl;
                [exists "", d | exists (String z a3), d]; auto.
Qed.

Lemma underscores_between_digits_spec (t : string) :
  Flt.underscores_ok None t = true <-> underscores_between_digits t.
Proof.
  rewrite underscores_ok_spec.
  unfold underscores_after, underscores_between_digits. split.
  - intros [_ H] a b E. destruct (H a b E) as [Ha Hb]. split; [|exact Hb].
    destruct a; [destruct Ha as (p & Hp & _); discriminate | exact Ha].
  - intros H. split; [discriminate|]. intros a b E.
    destruct (H a b E) as [(a' & d & Ha & Hd) Hb]. split; [|exact Hb].
    destruct a; [destruct a'; discriminate | eauto].
Qed.

(** [float] reads exactly the float literals, between the whitespace that
    it passes over. *)
Lemma of_string_float_literal (s : string) :
  (exists v, Flt.of_string s = Ok v) <-> float_literal (Flt.float_strip s).
Proof.
  rewrite of_string_plain_test. unfold float_literal.
  pose proof (without_underscores_eq (Flt.float_strip s)) as E.
  split; intros [H1 H2]; [rewrite E | rewrite E in H2];
    (split; [now apply underscores_between_digits_spec
            | now apply plain_test_spec]).
Qed.

(** ** The tokens of a line and their remainders *)

Lemma tokens_from_chars (s : string) :
  forall cur,
    all_chars (fun c => negb (is_separator c)) cur = true ->
    forall t, In t (tokens_from cur s) ->
              all_chars (fun c => negb (is_separator c)) t = true.
Proof.
  induction s as [|a r IH]; intros cur Hcur t; cbn [tokens_from].
  - destruct cur; [intros [] | intros [<-|[]]; exact Hcur].
  - destruct (is_separator a) eqn:Sa.
    + destruct cur as [|c cur'].
      * now apply IH.
      * intros [<-|Hin]; [exact Hcur | now apply (IH "")].
    + apply IH. rewrite all_chars_app, Hcur. simpl. now rewrite Sa.
Qed.

Lemma remainder_tail (t : string) : remainder t = Str.tail t.
Proof. now destruct t. Qed.

(** For a token, what [float] reads and what the grammar says agree: a
    token holds no whitespace for [float] to pass over. *)
Lemma token_reads (s t : string) :
  In t (tokens s) -> (reads_as_float t <-> float_literal (remainder t)).
Proof.
  intros Hin. unfold reads_as_float.
  rewrite of_string_float_literal, <- remainder_tail.
  assert (H : all_chars (fun c => negb (Str.is_space c)) (remainder t)
              = true).
  { pose proof (tokens_from_chars s "" eq_refl t Hin) as Ht.
    assert (Hr : all_chars (fun c => negb (is_separator c)) (remainder t)
                 = true).
    { destruct t as [|c r]; [reflexivity|]. simpl in Ht.
      now apply andb_true_iff in Ht as [_ Ht]. }
    revert Hr. apply all_chars_weaken. intros c Hc.
    apply negb_true_iff in Hc. apply negb_true_iff.
    destruct (Str.is_space c) eqn:S; [|reflexivity].
    unfold is_separator in Hc. now rewrite S in Hc. }
  now rewrite (float_strip_plain _ H).
Qed.

(** ** Real numerals are float literals *)

Lemma digit_plain (c : ascii) :
  digit c = true -> Ascii.eqb c "_" = false.
Proof.
  destruct c as [b0 b1 b2 b3 b4 b5 b6 b7];
    destruct b0, b1, b2, b3, b4, b5, b6, b7; simpl; intros H;
    try reflexivity; discriminate H.
Qed.

Lemma digits_plain (s : string) :
  digits s -> all_chars (fun c => negb (Ascii.eqb c "_")) s = true.
Proof.
  unfold digits. apply all_chars_weaken. intros c H.
  now rewrite (digit_plain c H).
Qed.

Lemma sign_mark_plain (s : string) :
  sign_mark s -> all_chars (fun c => negb (Ascii.eqb c "_")) s = true.
Proof. intros [->|[->| ->]]; reflexivity. Qed.

Lemma real_numeral_plain (s : string) :
  real_numeral s -> all_chars (fun c => negb (Ascii.eqb c "_")) s = true.
Proof.
  intros (sg & m & ex & -> & Hsg & (ip & fp & Hip & Hfp & Hm) & Hex).
  rewrite !all_chars_app, (sign_mark_plain sg Hsg). cbn [andb].
  apply andb_true_iff. split.
  - destruct Hm as [[-> _]|[-> _]]; [now apply digits_plain|].
    rewrite all_chars_app, (digits_plain ip Hip). simpl.
    now apply digits_plain.
  - destruct Hex as [->|(c & sg' & ds & -> & Hc & Hsg' & Hds & _)];
      [reflexivity|].
    cbn [all_chars].
    rewrite all_chars_app, (sign_mark_plain sg' Hsg'), (digits_plain ds Hds).
    destruct Hc as [->| ->]; reflexivity.
Qed.

Lemma plain_no_underscore (s a b : string) :
  all_chars (fun c => negb (Ascii.eqb c "_")) s = true ->
  s <> a ++ String "_" b.
Proof.
  intros H ->. rewrite all_chars_app in H. simpl in H.
  now rewrite andb_false_r in H.
Qed.

Lemma without_underscores_plain (s : string) :
  all_chars (fun c => negb (Ascii.eqb c "_")) s = true ->
  without_underscores s = s.
Proof.
  induction s as [|a s IH]; simpl; [reflexivity|]. intros H.
  apply andb_true_iff in H as [Ha Hs]. apply negb_true_iff in Ha.
  now rewrite Ha, IH.
Qed.

Lemma real_numeral_float_literal (s : string) :
  real_numeral s -> float_literal s.
Proof.
  intros H. pose proof (real_numeral_plain s H) as Hp. split.
  - intros a b E. now destruct (plain_no_underscore s a b Hp).
  - left. now rewrite (without_underscores_plain s Hp).
Qed.

Lemma real_numeral_first (s : string) :
  real_numeral s ->
  exists c r,
    s = String c r
    /\ (digit c = true \/ c = "+"%char \/ c = "-"%char \/ c = "."%char).
Proof.
  intros (sg & m & ex & -> & Hsg & (ip & fp & Hip & Hfp & Hm) & Hex).
  destruct Hsg as [->|[->| ->]]; [|simpl; eauto 7|simpl; eauto 7].
  cbn [append].
  destruct ip as [|d ip].
  - destruct Hm as [[-> Hne]|[-> _]]; [contradiction|].
    simpl. eauto 7.
  - unfold digits in Hip. simpl in Hip.
    apply andb_true_iff in Hip as [Hd _].
    destruct Hm as [[-> _]|[-> _]]; simpl; eauto 7.
Qed.

(** ** The parser and the condition of the specification *)

(** The condition in the terms of the code: the body is what [str.strip]
    leaves and a remainder is numeric when [float] reads it. *)
Lemma parse_g1_xy_reads (line : string) :
  (exists m, parse_g1_xy line = Ok (Some m))
  <-> (spindle (body_of line) = false
       /\ (forall t, In t (tokens (body_of line)) -> is_xy_token t = true ->
                     reads_as_float t)
       /\ (exists t, In t (tokens (body_of line)) /\ is_x_token t = true)
       /\ (exists t, In t (tokens (body_of line)) /\ is_y_token t = true)).
Proof.
  rewrite parse_g1_xy_body. cbv zeta.
  set (s := body_of line).
  destruct (Str.is_empty s) eqn:Hempty.
  { split; [intros (m & H); discriminate|].
    destruct s; [|discriminate].
    intros (_ & _ & (t & [] & _) & _). }
  destruct (spindle s).
  { split; [intros (m & H); discriminate | intros (H & _); discriminate]. }
  destruct (scan_tokens_ok (tokens s) (None, None)) as (step & Hstep).
  rewrite Hstep. cbn [bind].
  destruct step as [[vx vy]|r].
  - apply scan_tokens_next in Hstep as (Hall & Hx & Hy). simpl in Hx, Hy.
    split.
    + intros (m & H). split; [reflexivity|]. split; [exact Hall|].
      destruct vx as [x|]; [|destruct vy; discriminate].
      destruct vy as [y|]; [|discriminate].
      simpl in Hx, Hy. symmetry in Hx, Hy.
      apply existsb_exists in Hx, Hy. auto.
    + intros (_ & _ & Hex & Hey).
      apply existsb_exists in Hex, Hey. rewrite Hex in Hx. rewrite Hey in Hy.
      destruct vx as [x|]; [|discriminate].
      destruct vy as [y|]; [|discriminate]. eauto.
  - apply scan_tokens_return in Hstep as (-> & t & Hin & Hxy & Hbad).
    split; [intros (m & H); discriminate|].
    intros (_ & Hall & _). destruct Hbad. now apply Hall.
Qed.

Lemma trimmed_body (line s : string) :
  trimmed (strip_comment line) s <-> s = body_of line.
Proof. apply trimmed_strip. Qed.

Lemma parse_g1_xy_condition (line : string) :
  (exists m, parse_g1_xy line = Ok (Some m)) <-> yields_move line.
Proof.
  rewrite parse_g1_xy_reads. unfold yields_move, yields_move_with. split.
  - intros (Hs & Hall & Hx & Hy). exists (body_of line).
    split; [now apply trimmed_body|]. split; [exact Hs|].
    split; [|auto].
    intros t Hin Hxy. apply (token_reads _ _ Hin). now apply Hall.
  - intros (s & Ht & Hs & Hall & Hx & Hy).
    apply trimmed_body in Ht. subst s.
    split; [exact Hs|]. split; [|auto].
    intros t Hin Hxy. apply (token_reads _ _ Hin). now apply Hall.
Qed.

Lemma yields_move_with_weaken (p q : string -> Prop) (line : string) :
  (forall r, p r -> q r) ->
  yields_move_with p line -> yields_move_with q line.
Proof.
  intros Hpq (s & Ht & Hs & Hall & Hx & Hy). exists s.
  split; [exact Ht|]. split; [exact Hs|]. split; [|auto].
  intros t Hin Hxy. apply Hpq. now apply Hall.
Qed.

(* ===================================================================== *)
(** * The statements of the specification *)

(** C1. Merge-on-append rule: when the document holds at least two records
    and its last two both have Y equal to the new y within the tolerance,
    or both have X equal to the new x, appending the move overwrites the
    last record with the new canonical record and the sequence does not
    grow; in every other case the new record is appended at the end.  The
    append fails only when the canonical record cannot be built, on an
    infinite coordinate, and then with [OverflowError].  Appending (0,0),
    (5,0), (10,0) to the empty document gives the two records [G1 X0 Y0]
    and [G1 X10 Y0]; appending (0,0), (5,0), (5,5) gives three distinct
    records. *)
Theorem merge_on_append :
  (forall (xn yn : float) (lines : list string) (t : string),
      new_text xn yn = Ok t ->
      (horizontal_run lines yn \/ vertical_run lines xn ->
       exists pre a b,
         lines = (pre ++ [a; b])%list
         /\ add_or_merge_line xn yn lines = Ok (pre ++ [a; t])%list)
      /\ (~ (horizontal_run lines yn \/ vertical_run lines xn) ->
          add_or_merge_line xn yn lines = Ok (lines ++ [t])%list))
  /\ (forall (xn yn : float) (lines : list string) (e : exn),
         add_or_merge_line xn yn lines = Raise e ->
         e = OverflowError /\ new_text xn yn = Raise OverflowError)
  /\ add_all [(num 0, num 0); (num 5, num 0); (num 10, num 0)] []
     = (["G1 X0 Y0"; "G1 X10 Y0"], None)
  /\ (add_all [(num 0, num 0); (num 5, num 0); (num 5, num 5)] []
      = (["G1 X0 Y0"; "G1 X5 Y0"; "G1 X5 Y5"], None)
      /\ NoDup ["G1 X0 Y0"; "G1 X5 Y0"; "G1 X5 Y5"]).
Proof.
  split; [|split; [exact add_or_merge_line_raises|
                   split; [vm_compute; reflexivity|
                           split; [vm_compute; reflexivity|]]]].
  - intros xn yn lines t Ht. split.
    + intros Hrun.
      assert (Hshape : exists pre a b,
                 lines = (pre ++ [a; b])%list /\ merge_test xn yn a b = true).
      { destruct Hrun as [(pre & a & b & -> & H)|(pre & a & b & -> & H)];
          exists pre, a, b; (split; [reflexivity|]);
          apply merge_test_true; auto. }
      destruct Hshape as (pre & a & b & -> & Htest).
      exists pre, a, b. split; [reflexivity|].
      now rewrite (add_or_merge_line_long _ _ _ _ _ _ Ht), Htest.
    + intros Hno.
      destruct (last_two_cases lines) as [->|[(a & ->)|(pre & a & b & ->)]].
      * apply add_or_merge_line_short; [exact Ht | simpl; lia].
      * apply add_or_merge_line_short; [exact Ht | simpl; lia].
      * rewrite (add_or_merge_line_long _ _ _ _ _ _ Ht).
        destruct (merge_test xn yn a b) eqn:Htest; [|reflexivity].
        destruct Hno. apply merge_test_true in Htest.
        destruct Htest as [[Ha Hb]|[Ha Hb]]; [left|right];
          exists pre, a, b; auto.
  - repeat constructor; simpl; intuition discriminate.
Qed.

Lemma merge_on_append_witness :
  new_text (num 10) (num 0) = Ok "G1 X10 Y0"
  /\ exists pre a b,
      ["G1 X0 Y0"; "G1 X5 Y0"] = (pre ++ [a; b])%list
      /\ add_or_merge_line (num 10) (num 0) ["G1 X0 Y0"; "G1 X5 Y0"]
         = Ok (pre ++ [a; "G1 X10 Y0"])%list.
Proof.
  split; [vm_compute; reflexivity|].
  apply (proj1 (proj1 merge_on_append (num 10) (num 0)
                      ["G1 X0 Y0"; "G1 X5 Y0"] "G1 X10 Y0"
                      ltac:(vm_compute; reflexivity))).
  left. exists [], "G1 X0 Y0", "G1 X5 Y0".
  split; [reflexivity|].
  split; eexists _, _; (split; [vm_compute; reflexivity | vm_compute; reflexivity]).
Defined.

(** C2, at the input where the code departs from it: the records (0, 0)
    and (1e308, 1), as two submits leave them, no Max X, Max Y 5, the
    offsets 1e308 and 0.  The first candidate group is the base shifted
    once, (1e308, 0) and (infinity, 1); no limit is set on X and both Y
    are below 5, so the whole group is accepted.  Its first move is
    appended; for the second, [fmt_number] meets an infinite value: the
    conversion to an integer raises [OverflowError], which it does not
    catch, and the exception ends the handler.  The document is left with
    the first move of the group and without the second: a partial group,
    where the specification says that none is ever appended. *)
Theorem loop_overflow_leaves_a_partial_group :
  let st := fst (submit_line "1e308" "1"
                   (fst (submit_line "0" "0" (mkState [] None)))) in
  let big := Flt.of_decimal false 1 308 in
  let base := [(num 0, num 0); (big, num 1)] in
  parse_base (gcode_lines st) [] = Ok (Next base)
  /\ candidate base big (S754_zero false) 1
     = Ok [(big, num 0); (S754_infinity false, num 1)]
  /\ accepted None (Some (num 5)) base big (S754_zero false) 1
  /\ forall fuel,
      let r := loop_block (S fuel) "" "5" "1e308" "0" st in
      snd r = Raised OverflowError
      /\ last_snapshot (fst r) = Some (gcode_lines st)
      /\ exists t,
          gcode_lines (fst r) = (gcode_lines st ++ [t])%list
          /\ parse_g1_xy t = Ok (Some (big, num 0)).
Proof.
  cbv zeta. split; [vm_compute; reflexivity|].
  split; [vm_compute; reflexivity|].
  split; [eexists; split; vm_compute; reflexivity|].
  intros fuel.
  assert (H : exists t,
             loop_block (S fuel) "" "5" "1e308" "0"
               (fst (submit_line "1e308" "1"
                       (fst (submit_line "0" "0" (mkState [] None)))))
             = (mkState
                  (gcode_lines
                     (fst (submit_line "1e308" "1"
                             (fst (submit_line "0" "0" (mkState [] None)))))
                   ++ [t])%list
                  (Some (gcode_lines
                           (fst (submit_line "1e308" "1"
                                   (fst (submit_line "0" "0"
                                           (mkState [] None))))))),
                Raised OverflowError)
             /\ parse_g1_xy t
                = Ok (Some (Flt.of_decimal false 1 308, num 0))).
  { eexists. split; vm_compute; reflexivity. }
  destruct H as (t & -> & Ht). cbn [fst snd gcode_lines last_snapshot].
  split; [reflexivity|]. split; [reflexivity|].
  exists t. split; [reflexivity | exact Ht].
Qed.

(** C3. Loop termination, at the input where the code departs from it: one
    record [G1 X0 Y0], Max X 5, both offsets 0.  The specification asks for
    an immediate rejection; the code has no such check: it takes its
    snapshot and enters the loop, every candidate group equals the base and
    passes the bound, and whatever the fuel the handler does not return:
    it is still looping when the fuel runs out (or an exception has ended
    it).  After 500 turns it is still looping, and so it is with the
    offset -1 on the bounded axis, which moves away from the bound. *)
Theorem loop_zero_offsets_never_ends :
  (forall fuel,
      let r := loop_block fuel "5" "" "0" "0" (mkState ["G1 X0 Y0"] None) in
      last_snapshot (fst r) = Some ["G1 X0 Y0"]
      /\ (snd r = OutOfFuel \/ exists e, snd r = Raised e))
  /\ loop_block 500 "5" "" "0" "0" (mkState ["G1 X0 Y0"] None)
     = (mkState ["G1 X0 Y0"; "G1 X0 Y0"] (Some ["G1 X0 Y0"]), OutOfFuel)
  /\ loop_block 500 "5" "" "-1" "0" (mkState ["G1 X0 Y0"] None)
     = (mkState ["G1 X0 Y0"; "G1 X-500 Y0"] (Some ["G1 X0 Y0"]), OutOfFuel).
Proof.
  split; [|split; vm_compute; reflexivity].
  intros fuel r. subst r.
  rewrite (loop_block_runs fuel "5" "" "0" "0" (mkState ["G1 X0 Y0"] None)
             [(num 0, num 0)] (Some (num 5)) None
             (S754_zero false) (S754_zero false))
    by (try discriminate; vm_compute; reflexivity).
  cbn [fst snd last_snapshot gcode_lines]. split; [reflexivity|].
  pose proof (loop_groups_outcome fuel [(num 0, num 0)] (S754_zero false)
                (S754_zero false) (Some (num 5)) None 1 0 ["G1 X0 Y0"]) as H.
  cbv zeta in H. destruct H as [H|[H|(n & H)]]; auto.
  exfalso.
  destruct (loop_groups fuel [(num 0, num 0)] (S754_zero false)
              (S754_zero false) (Some (num 5)) None 1 0 ["G1 X0 Y0"])
    as [lines out] eqn:E.
  simpl in H. subst out.
  revert E. apply loop_groups_zero_offsets;
    try reflexivity; discriminate.
Qed.

(** C4, as the specification states it, fails: the handlers do not take
    the snapshot first.  After one accepted submit, a submit with an
    unparsable X is rejected without a snapshot: the snapshot is still the
    older one, not the current records, and undo goes back to the empty
    document. *)
Lemma rejected_submit_keeps_old_snapshot :
  let st := fst (submit_line "1" "1" (mkState [] None)) in
  let r := submit_line "abc" "1" st in
  gcode_lines st = ["G1 X1 Y1"]
  /\ r = (st, Warned "Missing values")
  /\ last_snapshot (fst r) <> Some (gcode_lines st)
  /\ gcode_lines (undo_last (fst r)) = [].
Proof.
  vm_compute. repeat split; try reflexivity. discriminate.
Qed.

(** C4, amended. Error atomicity: a submit whose X or Y text is unparsable
    (once trimmed of the whitespace at its ends it does not read as a
    float; so it is with a blank text), and a loop with neither bound set
    (neither limit text reads as a float) or on an empty document, return
    before any change: the records and the snapshot are exactly as before.
    Every handler (submit, remove, clear, import, loop) validates first and
    takes its snapshot only then: when it returns early nothing has
    changed, and when it runs to its end the snapshot holds the records it
    started from. *)
Theorem rejections_change_nothing :
  (forall (st : state) (x_var y_var : string),
      (exists t, trimmed x_var t /\ unparsable t)
      \/ (exists t, trimmed y_var t /\ unparsable t) ->
      let r := submit_line x_var y_var st in
      fst r = st
      /\ (snd r = Warned "Missing values" \/ snd r = Raised OverflowError))
  /\ (forall (fuel : nat) (max_x_var max_y_var dx_var dy_var : string)
             (st : state),
         (unparsable max_x_var /\ unparsable max_y_var)
         \/ gcode_lines st = [] ->
         let r := loop_block fuel max_x_var max_y_var dx_var dy_var st in
         fst r = st
         /\ (snd r = Warned "No limits" \/ snd r = Warned "Nothing to loop"))
  /\ (forall st x_var y_var,
         validates_then_snapshots st (submit_line x_var y_var st))
  /\ (forall st sel, validates_then_snapshots st (remove_selected sel st))
  /\ (forall st confirm,
         validates_then_snapshots st (clear_all_lines confirm st))
  /\ (forall st raw_lines do_replace,
         validates_then_snapshots st (load_gcode raw_lines do_replace st))
  /\ (forall st fuel max_x_var max_y_var dx_var dy_var,
         validates_then_snapshots
           st (loop_block fuel max_x_var max_y_var dx_var dy_var st)).
Proof.
  split; [|split].
  - intros st x_var y_var H r. subst r. unfold submit_line.
    destruct H as [(t & Ht & H)|(t & Ht & H)];
      apply trimmed_strip in Ht; subst t.
    + rewrite (fmt_number_unparsable _ H).
      destruct (fmt_number y_var) as [y_txt|e] eqn:E; simpl; [auto|].
      apply fmt_number_raises in E as ->. auto.
    + rewrite (fmt_number_unparsable _ H).
      destruct (fmt_number x_var) as [x_txt|e] eqn:E; simpl.
      * rewrite orb_true_r. auto.
      * apply fmt_number_raises in E as ->. auto.
  - intros fuel mxs mys dxs dys st H r. subst r. unfold loop_block.
    destruct (gcode_lines st) as [|l0 ls] eqn:Hl; [simpl; auto|].
    destruct H as [[H1 H2]|H]; [|discriminate].
    rewrite (parse_float_unparsable Some _ None H1).
    rewrite (parse_float_unparsable Some _ None H2).
    destruct (parse_float_ok id dxs (S754_zero false)) as (dx & ->).
    destruct (parse_float_ok id dys (S754_zero false)) as (dy & ->).
    simpl. auto.
  - split; [intros; apply submit_line_order|].
    split; [intros; apply remove_selected_order|].
    split; [intros; apply clear_all_lines_order|].
    split; [intros; apply load_gcode_order|].
    intros; apply loop_block_order.
Qed.

Lemma rejections_change_nothing_witness :
  trimmed " abc " "abc" /\ unparsable "abc"
  /\ fst (submit_line " abc " "1" (mkState ["G1 X1 Y1"] (Some [])))
     = mkState ["G1 X1 Y1"] (Some []).
Proof.
  assert (Ht : trimmed " abc " "abc") by (now apply trimmed_strip).
  assert (H : unparsable "abc") by (exists ValueError; reflexivity).
  split; [exact Ht|]. split; [exact H|].
  apply (proj1 rejections_change_nothing
               (mkState ["G1 X1 Y1"] (Some [])) " abc " "1"
               (or_introl (ex_intro _ "abc" (conj Ht H)))).
Defined.

(** C5, as the specification states it, fails: the remainder of an X or Y
    token need not be a real number.  The parser hands it to [float], which
    also reads [nan], [inf] and [infinity], and digits with underscores
    between them: the line [Xnan Y1] yields a move whose X is NaN, and
    [X1_0 Y2] the move (10, 2), though neither [nan] nor [1_0] is a real
    number written in decimal. *)
Lemma nan_remainder_yields_a_move :
  parse_g1_xy "Xnan Y1" = Ok (Some (S754_nan, num 1))
  /\ ~ real_numeral "nan"
  /\ ~ ((exists m, parse_g1_xy "Xnan Y1" = Ok (Some m))
        <-> claimed_move "Xnan Y1")
  /\ parse_g1_xy "X1_0 Y2" = Ok (Some (num 10, num 2))
  /\ ~ real_numeral "1_0"
  /\ ~ ((exists m, parse_g1_xy "X1_0 Y2" = Ok (Some m))
        <-> claimed_move "X1_0 Y2").
Proof.
  assert (Hnan : ~ real_numeral "nan").
  { intros H. apply real_numeral_first in H
      as (c & r & [= <- <-] & [H|[H|[H|H]]]); discriminate. }
  assert (Hund : ~ real_numeral "1_0").
  { intros H. apply real_numeral_plain in H. discriminate. }
  assert (H1 : parse_g1_xy "Xnan Y1" = Ok (Some (S754_nan, num 1)))
    by (vm_compute; reflexivity).
  assert (H2 : parse_g1_xy "X1_0 Y2" = Ok (Some (num 10, num 2)))
    by (vm_compute; reflexivity).
  split; [exact H1|]. split; [exact Hnan|]. split.
  { intros [H _].
    destruct (H (ex_intro _ _ H1)) as (s & Ht & _ & Hall & _).
    apply trimmed_strip in Ht. subst s.
    apply Hnan. apply (Hall "Xnan"); [now left | reflexivity]. }
  split; [exact H2|]. split; [exact Hund|].
  intros [H _].
  destruct (H (ex_intro _ _ H2)) as (s & Ht & _ & Hall & _).
  apply trimmed_strip in Ht. subst s.
  apply Hund. apply (Hall "X1_0"); [now left | reflexivity].
Qed.

(** C5, amended. Parser behaviour: a line yields a move exactly when, once
    the comment (everything from the first [;] or [#]) is removed and the
    rest trimmed, it does not begin with [M3] or [M5] in either case and,
    among its tokens separated by whitespace and commas, there is at least
    one X token and one Y token and the remainder of every token that
    starts with X or Y is a float literal: a real number written in
    decimal (a sign mark, digits with at most one point, an exponent
    part) or, after a sign mark, one of the words [inf], [infinity] and
    [nan] in any case, with single underscores allowed between digits.  A
    single X or Y token whose remainder is not a float literal makes the
    whole line yield no move.  In particular a line whose X and Y
    remainders are real numbers, as the specification has them, yields a
    move. *)
Theorem parse_g1_xy_yields_move (line : string) :
  ((exists m, parse_g1_xy line = Ok (Some m)) <-> yields_move line)
  /\ (forall s t,
         trimmed (strip_comment line) s ->
         In t (tokens s) -> is_xy_token t = true ->
         ~ float_literal (remainder t) ->
         parse_g1_xy line = Ok None)
  /\ (claimed_move line -> exists m, parse_g1_xy line = Ok (Some m)).
Proof.
  split; [apply parse_g1_xy_condition|]. split.
  - intros s t Ht Hin Hxy Hbad.
    destruct (parse_g1_xy_ok line) as ([m|] & Hr); [|exact Hr].
    assert (Hy : yields_move line)
      by (apply parse_g1_xy_condition; eauto).
    destruct Hy as (s' & Ht' & _ & Hall & _).
    apply trimmed_strip in Ht, Ht'. subst s s'.
    destruct Hbad. now apply Hall.
  - intros H. apply parse_g1_xy_condition.
    revert H. apply yields_move_with_weaken.
    apply real_numeral_float_literal.
Qed.

Lemma parse_g1_xy_yields_move_witness :
  claimed_move "  g1 x1.5,Y-2e1 ; to the corner"
  /\ exists m, parse_g1_xy "  g1 x1.5,Y-2e1 ; to the corner" = Ok (Some m).
Proof.
  assert (H : claimed_move "  g1 x1.5,Y-2e1 ; to the corner").
  { exists "g1 x1.5,Y-2e1". split; [now apply trimmed_strip|].
    split; [reflexivity|]. split.
    - intros t [<-|[<-|[<-|[]]]] Hxy; try discriminate Hxy.
      + exists "", "1.5", "". split; [reflexivity|].
        split; [now left|]. split; [|now left].
        exists "1", "5". split; [reflexivity|]. split; [reflexivity|].
        right. split; [reflexivity | left; discriminate].
      + exists "-", "2", "e1". split; [reflexivity|].
        split; [right; now right|]. split.
        * exists "2", "". split; [reflexivity|]. split; [reflexivity|].
          left. split; [reflexivity | discriminate].
        * right. exists "e"%char, "", "1". split; [reflexivity|].
          split; [now left|]. split; [now left|].
          split; [reflexivity | discriminate].
    - split; [exists "x1.5" | exists "Y-2e1"];
        (split; [simpl; auto | reflexivity]). }
  split; [exact H|].
  exact (proj2 (proj2 (parse_g1_xy_yields_move _)) H).
Defined.

(** C6. Parser totality: on every line [parse_g1_xy] returns, either a
    move or none; no exception reaches the caller. *)
Theorem parse_g1_xy_total (line : string) :
  parse_g1_xy line = Ok None \/ exists m, parse_g1_xy line = Ok (Some m).
Proof.
  destruct (parse_g1_xy_ok line) as ([m|] & H); eauto.
Qed.




(** C8. Export: with no record the handler stops on the "Nothing to save"
    warning and writes nothing; otherwise the lines written are [M3], the
    first record, followed by [ F200] exactly when it has no feed field (no
    [F] preceded by a blank or a tab), the other records unchanged, and
    [M5], each line ended by a newline.  A single record [G1 X1 Y2] gives
    [M3], [G1 X1 Y2 F200], [M5]. *)
Theorem export_lines :
  (forall st path writable,
      gcode_lines st = [] ->
      save_gcode path writable st = Warned "Nothing to save")
  /\ (forall first rest,
         has_feed_field first ->
         lines_to_save (first :: rest)
         = (["M3"; first] ++ rest ++ ["M5"])%list)
  /\ (forall first rest,
         ~ has_feed_field first ->
         lines_to_save (first :: rest)
         = (["M3"; (first ++ " F200")%string] ++ rest ++ ["M5"])%list)
  /\ (forall st path,
         gcode_lines st <> [] -> path <> "" ->
         save_gcode path true st
         = Done (path,
                 Str.join (String newline "") (lines_to_save (gcode_lines st))
                 ++ String newline ""))
  /\ lines_to_save ["G1 X1 Y2"] = ["M3"; "G1 X1 Y2 F200"; "M5"].
Proof.
  split; [|split; [|split; [|split]]].
  - intros st path writable H. unfold save_gcode. now rewrite H.
  - intros first rest H. apply no_feed_spec in H.
    unfold lines_to_save. now rewrite H.
  - intros first rest H. unfold lines_to_save.
    destruct (no_feed first) eqn:E; [reflexivity|].
    apply no_feed_spec in E. contradiction.
  - intros st path Hl Hp. unfold save_gcode.
    destruct (gcode_lines st); [contradiction|].
    destruct path; [contradiction | reflexivity].
  - reflexivity.
Qed.

Lemma export_lines_witness :
  ~ has_feed_field "G1 X1 Y2"
  /\ lines_to_save ["G1 X1 Y2"; "G1 X3 Y4"]
     = ["M3"; "G1 X1 Y2 F200"; "G1 X3 Y4"; "M5"].
Proof.
  assert (H : ~ has_feed_field "G1 X1 Y2").
  { intros H. apply no_feed_spec in H. discriminate. }
  split; [exact H|].
  apply (proj1 (proj2 (proj2 export_lines)) "G1 X1 Y2" ["G1 X3 Y4"] H).
Defined.

(** C9, as the specification states it, fails: a restore does not discard
    the snapshot.  After one submit on the empty document and an undo, the
    snapshot is still there. *)
Lemma restore_keeps_the_snapshot :
  let st := fst (submit_line "1" "1" (mkState [] None)) in
  st = mkState ["G1 X1 Y1"] (Some [])
  /\ undo_last st = mkState [] (Some [])
  /\ last_snapshot (undo_last st) <> None.
Proof.
  vm_compute. repeat split; discriminate.
Qed.

(** C9, amended. Undo and snapshot: one snapshot at most is kept, a single
    level; every handler that changes the document (submit, remove, clear,
    import, loop) has first stored in it the records it started from, after
    its checks; a restore copies the snapshot into the document and keeps
    it, so that a second restore changes nothing; a restore without a
    snapshot changes nothing.  Undo after clear brings back the records as
    they were, in their order, and a second undo is a no-op; after two
    submits, undo goes back one submit and a second undo no further. *)
Theorem snapshot_and_undo :
  (forall st, last_snapshot st = None -> restore_snapshot st = st)
  /\ (forall st saved,
         last_snapshot st = Some saved ->
         restore_snapshot st = mkState saved (Some saved))
  /\ (forall st, restore_snapshot (restore_snapshot st) = restore_snapshot st)
  /\ (forall st x_var y_var,
         validates_then_snapshots st (submit_line x_var y_var st))
  /\ (forall st sel, validates_then_snapshots st (remove_selected sel st))
  /\ (forall st confirm,
         validates_then_snapshots st (clear_all_lines confirm st))
  /\ (forall st raw_lines do_replace,
         validates_then_snapshots st (load_gcode raw_lines do_replace st))
  /\ (forall st fuel max_x_var max_y_var dx_var dy_var,
         validates_then_snapshots
           st (loop_block fuel max_x_var max_y_var dx_var dy_var st))
  /\ (forall lines snap,
         lines <> [] ->
         let cleared := fst (clear_all_lines true (mkState lines snap)) in
         gcode_lines cleared = []
         /\ gcode_lines (undo_last cleared) = lines
         /\ undo_last (undo_last cleared) = undo_last cleared)
  /\ (let five := ["G1 X0 Y0"; "G1 X1 Y2"; "G1 X3 Y4"; "G1 X5 Y6"; "G1 X7 Y8"] in
      let cleared := fst (clear_all_lines true (mkState five None)) in
      gcode_lines (undo_last cleared) = five
      /\ undo_last (undo_last cleared) = undo_last cleared)
  /\ (let two := fst (submit_line "2" "2"
                        (fst (submit_line "1" "1" (mkState [] None)))) in
      gcode_lines two = ["G1 X1 Y1"; "G1 X2 Y2"]
      /\ gcode_lines (undo_last two) = ["G1 X1 Y1"]
      /\ gcode_lines (undo_last (undo_last two)) = ["G1 X1 Y1"]).
Proof.
  split; [|split; [|split]].
  - intros [lines snap] H. simpl in H. subst snap. reflexivity.
  - intros [lines snap] saved H. simpl in H. subst snap. reflexivity.
  - intros [lines [saved|]]; reflexivity.
  - split; [intros; apply submit_line_order|].
    split; [intros; apply remove_selected_order|].
    split; [intros; apply clear_all_lines_order|].
    split; [intros; apply load_gcode_order|].
    split; [intros; apply loop_block_order|].
    split; [|split; [repeat split | vm_compute; repeat split]].
    intros lines snap Hne. destruct lines; [contradiction|].
    repeat split.
Qed.

Lemma snapshot_and_undo_witness :
  last_snapshot (mkState ["G1 X1 Y1"] None) = None
  /\ restore_snapshot (mkState ["G1 X1 Y1"] None) = mkState ["G1 X1 Y1"] None.
Proof.
  split; [reflexivity|].
  apply (proj1 snapshot_and_undo (mkState ["G1 X1 Y1"] None) eq_refl).
Defined.

(** C10, at the input where the code departs from it: importing the single
    line [Xnan Y1] into the empty document stores the record [G1 X Y1],
    which is not of the shape [G1 X<num> Y<num>] and does not parse; the
    loop started next stops on its "Parse error" branch.  A loop whose
    offset text is [nan] stores such records as well. *)
Theorem nan_move_stores_unparsable_record :
  let r := load_gcode ["Xnan Y1"] true (mkState [] None) in
  r = (mkState ["G1 X Y1"] (Some []), Done (1%nat, 0%nat))
  /\ parse_g1_xy "G1 X Y1" = Ok None
  /\ (forall fuel,
         loop_block fuel "5" "" "1" "0" (fst r) = (fst r, Failed "Parse error"))
  /\ loop_block 1 "5" "" "nan" "0" (mkState ["G1 X0 Y0"] None)
     = (mkState ["G1 X0 Y0"; "G1 X Y0"] (Some ["G1 X0 Y0"]), OutOfFuel).
Proof.
  cbv zeta. split; [vm_compute; reflexivity|].
  split; [vm_compute; reflexivity|].
  split; [|vm_compute; reflexivity].
  intros fuel.
  replace (fst (load_gcode ["Xnan Y1"] true (mkState [] None)))
    with (mkState ["G1 X Y1"] (Some [])) by (vm_compute; reflexivity).
  unfold loop_block. cbn [gcode_lines].
  replace (parse_float Some "5" None) with (Ok (Some (num 5)))
    by (vm_compute; reflexivity).
  replace (parse_float Some "" None) with (@Ok (option float) None)
    by (vm_compute; reflexivity).
  replace (parse_float id "1" (S754_zero false)) with (Ok (num 1))
    by (vm_compute; reflexivity).
  replace (parse_float id "0" (S754_zero false)) with (Ok (S754_zero false))
    by (vm_compute; reflexivity).
  cbn [bind].
  replace (parse_base ["G1 X Y1"] [])
    with (@Ok (flow (list (float * float)) string) (Return "G1 X Y1"))
    by (vm_compute; reflexivity).
  reflexivity.
Qed.

(* ===================================================================== *)
(** * Further properties, read off the code *)

(** X1. The checks of [loop_block], in their order: the handler warns
    "Nothing to loop" exactly when the document is empty; "No limits"
    exactly when the document is not empty and neither limit text reads as
    a float; it fails with "Parse error" exactly when the document is not
    empty, a limit is set and some record does not parse.  In all three
    cases the state is left as it was. *)
Theorem loop_block_checks (fuel : nat)
        (max_x_var max_y_var dx_var dy_var : string) (st : state) :
  let r := loop_block fuel max_x_var max_y_var dx_var dy_var st in
  (snd r = Warned "Nothing to loop" <-> gcode_lines st = [])
  /\ (snd r = Warned "No limits" <->
      gcode_lines st <> []
      /\ unparsable max_x_var /\ unparsable max_y_var)
  /\ (snd r = Failed "Parse error" <->
      gcode_lines st <> []
      /\ ~ (unparsable max_x_var /\ unparsable max_y_var)
      /\ exists bad, In bad (gcode_lines st) /\ parse_g1_xy bad = Ok None)
  /\ (rejection (snd r) = true -> fst r = st).
Proof.
  intros r. subst r.
  destruct (loop_block_cases fuel max_x_var max_y_var dx_var dy_var st)
    as [(Hl & ->)|[(Hl & H1 & H2 & ->)|[(Hl & Hnot & Hbad & ->)
       |(Hl & Hnot & Hall & mx & my & dx & dy & base & _ & _ & _ & _ & _ & _
         & _ & ->)]]];
    cbn [fst snd].
  - split; [tauto|]. split; [|split]; [| |reflexivity];
      (split; [discriminate|tauto]).
  - split; [|split; [|split]]; [| | |reflexivity].
    + split; [discriminate|contradiction].
    + tauto.
    + split; [discriminate|tauto].
  - split; [|split; [|split]]; [| | |reflexivity].
    + split; [discriminate|contradiction].
    + split; [discriminate|tauto].
    + tauto.
  - pose proof (loop_groups_no_message fuel base dx dy mx my 1 0
                  (gcode_lines st)) as Hno.
    split; [|split; [|split]].
    + split; [|contradiction].
      intros H. rewrite H in Hno. discriminate.
    + split; [|tauto].
      intros H. rewrite H in Hno. discriminate.
    + split.
      * intros H. rewrite H in Hno. discriminate.
      * intros (_ & _ & (bad & Hin & Hb)). now destruct (Hall bad Hin).
    + intros H. rewrite H in Hno. discriminate.
Qed.

Lemma loop_block_checks_witness :
  unparsable "" /\ unparsable "abc"
  /\ snd (loop_block 5 "" "abc" "1" "1" (mkState ["G1 X0 Y0"] None))
     = Warned "No limits"
  /\ fst (loop_block 5 "" "abc" "1" "1" (mkState ["G1 X0 Y0"] None))
     = mkState ["G1 X0 Y0"] None.
Proof.
  assert (H1 : unparsable "") by (exists ValueError; reflexivity).
  assert (H2 : unparsable "abc") by (exists ValueError; reflexivity).
  pose proof (loop_block_checks 5 "" "abc" "1" "1"
                (mkState ["G1 X0 Y0"] None)) as (_ & Hno & _ & Hst).
  assert (H : snd (loop_block 5 "" "abc" "1" "1"
                              (mkState ["G1 X0 Y0"] None))
              = Warned "No limits").
  { apply Hno. split; [discriminate|]. split; assumption. }
  split; [exact H1|]. split; [exact H2|]. split; [exact H|].
  apply Hst. rewrite H. reflexivity.
Defined.

(** X2. The loop of [loop_block] ends at the first group that leaves the
    limits: when the document parses to the base block, a limit is set and
    the candidate group number [n + 1] exceeds it, the handler needs no
    more than [n + 1] turns of its [while True] loop: it does not run on,
    and the number of groups it reports is at most [n]. *)
Theorem loop_block_stops (fuel : nat)
        (max_x_var max_y_var dx_var dy_var : string) (st : state)
        (base : list (float * float)) (max_x max_y : option float)
        (dx dy : float) (n : nat) :
  gcode_lines st <> [] ->
  parse_float Some max_x_var None = Ok max_x ->
  parse_float Some max_y_var None = Ok max_y ->
  is_some max_x || is_some max_y = true ->
  parse_float id dx_var (S754_zero false) = Ok dx ->
  parse_float id dy_var (S754_zero false) = Ok dy ->
  parse_base (gcode_lines st) [] = Ok (Next base) ->
  rejected max_x max_y base dx dy (1 + Z.of_nat n) ->
  (n < fuel)%nat ->
  let out := snd (loop_block fuel max_x_var max_y_var dx_var dy_var st) in
  out <> OutOfFuel /\ (forall r, out = Done r -> (r <= n)%nat).
Proof.
  intros Hne Hmx Hmy Hset Hdx Hdy Hbase Hrej Hlt out. subst out.
  rewrite (loop_block_runs fuel max_x_var max_y_var dx_var dy_var st base
             max_x max_y dx dy Hne Hmx Hmy Hset Hdx Hdy Hbase).
  cbn [snd].
  assert (Hb : base <> []).
  { intros ->. apply parse_base_length in Hbase.
    destruct (gcode_lines st); [contradiction | discriminate]. }
  exact (loop_groups_stops base dx dy max_x max_y n Hb fuel 1 0
           (gcode_lines st) Hrej Hlt).
Qed.

Lemma loop_block_stops_witness :
  rejected (Some (num 5)) None [(num 0, num 0); (num 1, num 1)]
           (num 2) (num 0) (1 + Z.of_nat 2)
  /\ snd (loop_block 3 "5" "" "2" "0"
                     (mkState ["G1 X0 Y0"; "G1 X1 Y1"] None)) <> OutOfFuel
  /\ (forall r,
         snd (loop_block 3 "5" "" "2" "0"
                         (mkState ["G1 X0 Y0"; "G1 X1 Y1"] None)) = Done r ->
         (r <= 2)%nat).
Proof.
  assert (H : rejected (Some (num 5)) None [(num 0, num 0); (num 1, num 1)]
                       (num 2) (num 0) (1 + Z.of_nat 2)).
  { eexists. split; vm_compute; reflexivity. }
  split; [exact H|].
  apply (loop_block_stops 3 "5" "" "2" "0"
           (mkState ["G1 X0 Y0"; "G1 X1 Y1"] None)
           [(num 0, num 0); (num 1, num 1)] (Some (num 5)) None
           (num 2) (num 0) 2);
    [discriminate | vm_compute; reflexivity | vm_compute; reflexivity
    | reflexivity | vm_compute; reflexivity | vm_compute; reflexivity
    | vm_compute; reflexivity | exact H | lia].
Defined.

(** X3. [loop_block] has no guard on the offsets.  Whatever the document,
    when it lies within the limits that are set and each offset text
    either does not read as a float (so that it counts as 0) or reads as a
    zero, every candidate group passes the limits: the handler takes its
    snapshot and never returns a count; whatever the number of turns it is
    allowed, it is still looping or has been ended by an exception. *)
Theorem loop_block_zero_offsets
        (max_x_var max_y_var dx_var dy_var : string) (st : state)
        (base : list (float * float)) (max_x max_y : option float) :
  gcode_lines st <> [] ->
  parse_float Some max_x_var None = Ok max_x ->
  parse_float Some max_y_var None = Ok max_y ->
  is_some max_x || is_some max_y = true ->
  zero_offset dx_var -> zero_offset dy_var ->
  parse_base (gcode_lines st) [] = Ok (Next base) ->
  forallb (within max_x max_y) base = true ->
  forall fuel,
    let r := loop_block fuel max_x_var max_y_var dx_var dy_var st in
    last_snapshot (fst r) = Some (gcode_lines st)
    /\ (snd r = OutOfFuel \/ exists e, snd r = Raised e).
Proof.
  intros Hne Hmx Hmy Hset Hzx Hzy Hbase Hin fuel r. subst r.
  destruct (parse_float_zero_offset dx_var Hzx) as (dx & Hdx & Zx).
  destruct (parse_float_zero_offset dy_var Hzy) as (dy & Hdy & Zy).
  rewrite (loop_block_runs fuel max_x_var max_y_var dx_var dy_var st base
             max_x max_y dx dy Hne Hmx Hmy Hset Hdx Hdy Hbase).
  cbn [fst snd last_snapshot]. split; [reflexivity|].
  assert (Hb : base <> []).
  { intros ->. apply parse_base_length in Hbase.
    destruct (gcode_lines st); [contradiction | discriminate]. }
  pose proof (loop_groups_outcome fuel base dx dy max_x max_y 1 0
                (gcode_lines st)) as H.
  cbv zeta in H. destruct H as [H|[H|(n & H)]]; auto.
  exfalso.
  destruct (loop_groups fuel base dx dy max_x max_y 1 0 (gcode_lines st))
    as [lines out] eqn:E.
  simpl in H. subst out. revert E.
  now apply loop_groups_zero_offsets.
Qed.

Lemma loop_block_zero_offsets_witness :
  zero_offset "abc" /\ zero_offset "-0.0"
  /\ last_snapshot
       (fst (loop_block 7 "10" "4" "abc" "-0.0"
                        (mkState ["G1 X1 Y2"; "G1 X3 Y4"] (Some []))))
     = Some ["G1 X1 Y2"; "G1 X3 Y4"]
  /\ (snd (loop_block 7 "10" "4" "abc" "-0.0"
                      (mkState ["G1 X1 Y2"; "G1 X3 Y4"] (Some [])))
      = OutOfFuel
      \/ exists e,
          snd (loop_block 7 "10" "4" "abc" "-0.0"
                          (mkState ["G1 X1 Y2"; "G1 X3 Y4"] (Some [])))
          = Raised e).
Proof.
  assert (Hx : zero_offset "abc").
  { left. eexists. vm_compute. reflexivity. }
  assert (Hy : zero_offset "-0.0").
  { right. eexists. split; vm_compute; reflexivity. }
  split; [exact Hx|]. split; [exact Hy|].
  apply (loop_block_zero_offsets "10" "4" "abc" "-0.0"
           (mkState ["G1 X1 Y2"; "G1 X3 Y4"] (Some []))
           [(num 1, num 2); (num 3, num 4)] (Some (num 10)) (Some (num 4))
           ltac:(discriminate) ltac:(vm_compute; reflexivity)
           ltac:(vm_compute; reflexivity) ltac:(reflexivity) Hx Hy
           ltac:(vm_compute; reflexivity) ltac:(vm_compute; reflexivity)
           7%nat).
Defined.

(** X4. A loop that appends nothing still costs the undo step: when
    [loop_block] returns with no group appended, the records are those it
    started with, but the snapshot has been replaced by a copy of them, so
    that the undo that follows restores nothing older. *)
Theorem loop_block_nothing_appended (fuel : nat)
        (max_x_var max_y_var dx_var dy_var : string) (st st' : state) :
  loop_block fuel max_x_var max_y_var dx_var dy_var st = (st', Done 0%nat) ->
  gcode_lines st' = gcode_lines st
  /\ last_snapshot st' = Some (gcode_lines st)
  /\ undo_last st' = st'.
Proof.
  intros H.
  destruct (loop_block_cases fuel max_x_var max_y_var dx_var dy_var st)
    as [(_ & E)|[(_ & _ & _ & E)|[(_ & _ & _ & E)
       |(Hl & _ & _ & mx & my & dx & dy & base & _ & _ & _ & _ & _ & _
         & Hb & E)]]];
    rewrite E in H; try discriminate.
  destruct (loop_groups fuel base dx dy mx my 1 0 (gcode_lines st))
    as [lines out] eqn:Eg.
  cbn [fst snd] in H. injection H as <- ->.
  apply (loop_groups_done base dx dy mx my Hb) in Eg
    as (n & Hn & _ & _ & _ & Happ).
  assert (n = 0%nat) as -> by lia.
  simpl in Happ. injection Happ as <-.
  cbn [gcode_lines last_snapshot]. repeat split.
Qed.

Lemma loop_block_nothing_appended_witness :
  loop_block 1 "5" "" "2" "2"
             (mkState ["G1 X0 Y0"; "G1 X4 Y1"] (Some ["G1 X0 Y0"]))
  = (mkState ["G1 X0 Y0"; "G1 X4 Y1"] (Some ["G1 X0 Y0"; "G1 X4 Y1"]),
     Done 0%nat)
  /\ last_snapshot (mkState ["G1 X0 Y0"; "G1 X4 Y1"]
                            (Some ["G1 X0 Y0"; "G1 X4 Y1"]))
     = Some ["G1 X0 Y0"; "G1 X4 Y1"]
  /\ undo_last (mkState ["G1 X0 Y0"; "G1 X4 Y1"]
                        (Some ["G1 X0 Y0"; "G1 X4 Y1"]))
     = mkState ["G1 X0 Y0"; "G1 X4 Y1"] (Some ["G1 X0 Y0"; "G1 X4 Y1"]).
Proof.
  assert (H : loop_block 1 "5" "" "2" "2"
                (mkState ["G1 X0 Y0"; "G1 X4 Y1"] (Some ["G1 X0 Y0"]))
              = (mkState ["G1 X0 Y0"; "G1 X4 Y1"]
                         (Some ["G1 X0 Y0"; "G1 X4 Y1"]), Done 0%nat))
    by (vm_compute; reflexivity).
  split; [exact H|].
  exact (proj2 (loop_block_nothing_appended 1 "5" "" "2" "2" _ _ H)).
Defined.

(** X5. [remove_selected] deletes from the highest index down, so that the
    indices still to be deleted stay valid: for a selection that is not
    empty, in increasing order and inside the list, it ends normally, the
    document is left with exactly the records at the positions not
    selected, in their order, it is shorter by the size of the selection,
    and the snapshot holds the records as they were. *)
Theorem remove_selected_removes (sel : list nat) (st : state) :
  sel <> [] ->
  increasing sel ->
  (forall k, In k sel -> (k < List.length (gcode_lines st))%nat) ->
  remove_selected sel st
  = (mkState (unselected sel 0 (gcode_lines st)) (Some (gcode_lines st)),
     Done tt)
  /\ (List.length (unselected sel 0 (gcode_lines st)) + List.length sel)%nat
     = List.length (gcode_lines st).
Proof.
  intros Hne Hinc Hin.
  assert (Hdel : del_items (rev sel) (gcode_lines st)
                 = (unselected sel 0 (gcode_lines st), None)).
  { rewrite del_items_decreasing.
    - f_equal. apply unselected_same. intros k. symmetry. apply in_rev.
    - now apply increasing_rev.
    - intros k Hk. apply Hin. now apply in_rev. }
  split.
  - unfold remove_selected. destruct sel as [|i sel]; [contradiction|].
    cbn [snapshot gcode_lines last_snapshot]. now rewrite Hdel.
  - apply del_items_length in Hdel. now rewrite length_rev in Hdel.
Qed.

Lemma remove_selected_removes_witness :
  increasing [1; 3]%nat
  /\ remove_selected [1; 3]%nat
       (mkState ["G1 X0 Y0"; "G1 X1 Y0"; "G1 X1 Y1"; "G1 X2 Y1"; "G1 X2 Y2"]
                None)
     = (mkState ["G1 X0 Y0"; "G1 X1 Y1"; "G1 X2 Y2"]
                (Some ["G1 X0 Y0"; "G1 X1 Y0"; "G1 X1 Y1"; "G1 X2 Y1";
                       "G1 X2 Y2"]),
        Done tt).
Proof.
  assert (H : increasing [1; 3]%nat).
  { simpl. repeat split; intros k Hk; simpl in Hk; intuition lia. }
  split; [exact H|].
  apply (proj1 (remove_selected_removes [1; 3]%nat
                  (mkState ["G1 X0 Y0"; "G1 X1 Y0"; "G1 X1 Y1"; "G1 X2 Y1";
                            "G1 X2 Y2"] None)
                  ltac:(discriminate) H
                  ltac:(simpl; intros k Hk; intuition lia))).
Defined.

(** X6. What [load_gcode] reports.  It warns "No X/Y found" exactly when no
    line of the file holds a move, and then changes nothing.  When it ends
    normally, the number of lines it reports as imported is the number of
    lines that hold a move, at least one; imported and skipped add up to
    the number of lines read; the snapshot holds the records it started
    from; and the document is the old one (the empty one, on Replace)
    with those moves appended one by one, in the order of the file. *)
Theorem load_gcode_counts (raw_lines : list string) (do_replace : bool)
        (st : state) :
  let r := load_gcode raw_lines do_replace st in
  (snd r = Warned "No X/Y found" <->
   forall l, In l raw_lines -> parse_g1_xy l = Ok None)
  /\ (snd r = Warned "No X/Y found" -> fst r = st)
  /\ (forall imported skipped,
         snd r = Done (imported, skipped) ->
         imported = List.length (moves_of raw_lines)
         /\ (0 < imported)%nat
         /\ (imported + skipped)%nat = List.length raw_lines
         /\ last_snapshot (fst r) = Some (gcode_lines st)
         /\ gcode_lines (fst r)
            = fst (add_all (moves_of raw_lines)
                           (if do_replace then [] else gcode_lines st))).
Proof.
  intros r. subst r. unfold load_gcode.
  rewrite parse_lines_spec. cbn [app Nat.add].
  pose proof (moves_unread_length raw_lines) as Hlen.
  pose proof (moves_of_nil raw_lines) as Hnil.
  destruct (moves_of raw_lines) as [|m ms] eqn:Hm.
  - cbn [fst snd]. split; [|split].
    + split; [intros _; now apply Hnil | reflexivity].
    + reflexivity.
    + discriminate.
  - cbn [snapshot gcode_lines last_snapshot].
    destruct (add_all (m :: ms) (if do_replace then [] else gcode_lines st))
      as [lines' [e|]] eqn:Hadd; cbn [fst snd].
    + split; [|split]; try discriminate.
      split; [discriminate|]. intros H. apply Hnil in H. discriminate.
    + split; [|split]; try discriminate.
      * split; [discriminate|]. intros H. apply Hnil in H. discriminate.
      * intros imported skipped [= <- <-].
        cbn [gcode_lines last_snapshot List.length] in *.
        repeat split; lia.
Qed.

Lemma load_gcode_counts_witness :
  snd (load_gcode ["; header"; "G1 X1 Y2"; "M5"; "g1 x3 y4"] true
                  (mkState ["G1 X9 Y9"] None))
  = Done (2%nat, 2%nat)
  /\ 2%nat = List.length (moves_of ["; header"; "G1 X1 Y2"; "M5"; "g1 x3 y4"])
  /\ (2 + 2)%nat = List.length ["; header"; "G1 X1 Y2"; "M5"; "g1 x3 y4"]
  /\ last_snapshot
       (fst (load_gcode ["; header"; "G1 X1 Y2"; "M5"; "g1 x3 y4"] true
                        (mkState ["G1 X9 Y9"] None)))
     = Some ["G1 X9 Y9"].
Proof.
  assert (H : snd (load_gcode ["; header"; "G1 X1 Y2"; "M5"; "g1 x3 y4"] true
                              (mkState ["G1 X9 Y9"] None))
              = Done (2%nat, 2%nat)) by (vm_compute; reflexivity).
  split; [exact H|].
  pose proof (proj2 (proj2 (load_gcode_counts
                              ["; header"; "G1 X1 Y2"; "M5"; "g1 x3 y4"] true
                              (mkState ["G1 X9 Y9"] None))) 2%nat 2%nat H)
    as (Hi & _ & Hsum & Hsnap & _).
  split; [exact Hi|]. split; [exact Hsum | exact Hsnap].
Defined.



(** X8. No handler loses the document to an exception.  Whatever way a
    handler ends, also when an exception stops it part-way or the loop is
    cut short, either the state is exactly as it was or the snapshot holds
    the records the handler started from, so that the undo that follows
    brings them back. *)
Theorem handlers_can_be_undone (st : state) :
  let safe (st' : state) :=
    st' = st \/ gcode_lines (undo_last st') = gcode_lines st in
  (forall x_var y_var, safe (fst (submit_line x_var y_var st)))
  /\ (forall sel, safe (fst (remove_selected sel st)))
  /\ (forall confirm, safe (fst (clear_all_lines confirm st)))
  /\ (forall raw_lines do_replace,
         safe (fst (load_gcode raw_lines do_replace st)))
  /\ (forall fuel max_x_var max_y_var dx_var dy_var,
         safe (fst (loop_block fuel max_x_var max_y_var dx_var dy_var st))).
Proof.
  intros safe. subst safe. cbv beta.
  split; [|split; [|split; [|split]]].
  - intros x_var y_var. unfold submit_line.
    destruct (fmt_number x_var) as [x_txt|e]; [|now left].
    destruct (fmt_number y_var) as [y_txt|e]; [|now left].
    destruct (Str.is_empty x_txt || Str.is_empty y_txt); [now left|].
    cbv zeta.
    destruct (bind _ _) as [lines|e]; right; reflexivity.
  - intros sel. unfold remove_selected.
    destruct sel as [|i sel]; [now left|]. cbv zeta.
    destruct (del_items _ _) as [lines [e|]]; right; reflexivity.
  - intros confirm. unfold clear_all_lines.
    destruct (gcode_lines st) as [|l0 ls] eqn:Hl; [now left|].
    destruct confirm; [right | now left]. cbn. now rewrite Hl.
  - intros raw_lines do_replace. unfold load_gcode.
    destruct (parse_lines raw_lines [] 0) as [[parsed skipped]|e];
      [|now left].
    destruct parsed as [|m ms]; [now left|]. cbv zeta.
    destruct (add_all _ _) as [lines' [e|]]; right; reflexivity.
  - intros fuel max_x_var max_y_var dx_var dy_var.
    destruct (loop_block_cases fuel max_x_var max_y_var dx_var dy_var st)
      as [(_ & ->)|[(_ & _ & _ & ->)|[(_ & _ & _ & ->)
         |(_ & _ & _ & mx & my & dx & dy & base & _ & _ & _ & _ & _ & _
           & _ & ->)]]];
      [now left | now left | now left | right; reflexivity].
Qed.

(** X9. Appending never touches the records before the last one.  A call
    of [add_or_merge_line] that returns has left every record but the last
    where it was, has removed none and has added one at most, and the new
    canonical text is in the document.  So it is with the handlers built
    on it, however they end: after a submit, an import in append mode or a
    loop, every record but the last of the old document is still in its
    place; an import makes the document longer by the number of moves read
    at most. *)
Theorem appends_keep_the_records (st : state) :
  (forall xn yn lines',
      add_or_merge_line xn yn (gcode_lines st) = Ok lines' ->
      keeps_records (gcode_lines st) lines'
      /\ (List.length lines' <= S (List.length (gcode_lines st)))%nat
      /\ exists t, new_text xn yn = Ok t /\ In t lines')
  /\ (forall x_var y_var,
         keeps_records (gcode_lines st)
                       (gcode_lines (fst (submit_line x_var y_var st))))
  /\ (forall raw_lines,
         keeps_records (gcode_lines st)
                       (gcode_lines (fst (load_gcode raw_lines false st)))
         /\ (List.length (gcode_lines (fst (load_gcode raw_lines false st)))
             <= List.length (gcode_lines st)
                + List.length (moves_of raw_lines))%nat)
  /\ (forall fuel max_x_var max_y_var dx_var dy_var,
         keeps_records
           (gcode_lines st)
           (gcode_lines
              (fst (loop_block fuel max_x_var max_y_var dx_var dy_var st)))).
Proof.
  split; [|split; [|split]].
  - intros xn yn lines'. apply add_or_merge_line_keeps.
  - intros x_var y_var. unfold submit_line.
    destruct (fmt_number x_var) as [x_txt|e]; [|apply keeps_records_refl].
    destruct (fmt_number y_var) as [y_txt|e]; [|apply keeps_records_refl].
    destruct (Str.is_empty x_txt || Str.is_empty y_txt);
      [apply keeps_records_refl|].
    cbv zeta. cbn [snapshot gcode_lines last_snapshot].
    destruct (Flt.of_string x_txt) as [xn|e]; cbn [bind];
      [|apply keeps_records_refl].
    destruct (Flt.of_string y_txt) as [yn|e]; cbn [bind];
      [|apply keeps_records_refl].
    destruct (add_or_merge_line xn yn (gcode_lines st)) as [lines|e] eqn:E;
      cbn [fst gcode_lines]; [|apply keeps_records_refl].
    now apply add_or_merge_line_keeps in E.
  - intros raw_lines. unfold load_gcode.
    rewrite parse_lines_spec. cbn [app Nat.add].
    destruct (moves_of raw_lines) as [|m ms] eqn:Hm.
    + cbn [fst]. split; [apply keeps_records_refl | lia].
    + cbv zeta. cbn [snapshot gcode_lines last_snapshot].
      pose proof (add_all_keeps (m :: ms) (gcode_lines st)) as [K L].
      destruct (add_all (m :: ms) (gcode_lines st)) as [lines' [e|]];
        cbn [fst gcode_lines] in *; split; assumption.
  - intros fuel max_x_var max_y_var dx_var dy_var.
    destruct (loop_block_cases fuel max_x_var max_y_var dx_var dy_var st)
      as [(_ & ->)|[(_ & _ & _ & ->)|[(_ & _ & _ & ->)
         |(_ & _ & _ & mx & my & dx & dy & base & _ & _ & _ & _ & _ & _
           & _ & ->)]]];
      try apply keeps_records_refl.
    cbn [fst gcode_lines].
    destruct (loop_groups_within base dx dy mx my fuel 1 0 (gcode_lines st))
      as (moves & _ & ->).
    apply add_all_keeps.
Qed.

Lemma appends_keep_the_records_witness :
  add_or_merge_line (num 2) (num 0) ["G1 X0 Y0"; "G1 X1 Y0"]
  = Ok ["G1 X0 Y0"; "G1 X2 Y0"]
  /\ keeps_records ["G1 X0 Y0"; "G1 X1 Y0"] ["G1 X0 Y0"; "G1 X2 Y0"].
Proof.
  assert (H : add_or_merge_line (num 2) (num 0) ["G1 X0 Y0"; "G1 X1 Y0"]
              = Ok ["G1 X0 Y0"; "G1 X2 Y0"]) by (vm_compute; reflexivity).
  split; [exact H|].
  exact (proj1 (proj1 (appends_keep_the_records
                         (mkState ["G1 X0 Y0"; "G1 X1 Y0"] None))
                      (num 2) (num 0) _ H)).
Defined.

(** X10. When a line repeats the X word or the Y word, the last one
    counts: the move read from a line has for X the number after the
    letter of the last token that begins with [X] or [x], and for Y the
    number after the letter of the last token that begins with [Y] or
    [y], among the tokens of the line once its comment is removed. *)
Theorem parse_g1_xy_last_tokens (line : string) (x y : float) :
  parse_g1_xy line = Ok (Some (x, y)) ->
  exists tx ty,
    last_with is_x_token (tokens (body_of line)) = Some tx
    /\ Flt.of_string (Str.tail tx) = Ok x
    /\ last_with is_y_token (tokens (body_of line)) = Some ty
    /\ Flt.of_string (Str.tail ty) = Ok y.
Proof.
  rewrite parse_g1_xy_body. cbv zeta.
  destruct (Str.is_empty (body_of line)); [discriminate|].
  destruct (spindle (body_of line)); [discriminate|].
  destruct (scan_tokens (tokens (body_of line)) (None, None))
    as [[[vx vy]|r]|e] eqn:E; cbn [bind]; [| |discriminate].
  - apply scan_tokens_values in E as [Hx Hy]. cbn [fst snd] in Hx, Hy.
    destruct vx as [x'|]; [|discriminate].
    destruct vy as [y'|]; [|discriminate].
    intros [= -> ->].
    destruct (last_with is_x_token (tokens (body_of line))) as [tx|];
      [|discriminate].
    destruct (last_with is_y_token (tokens (body_of line))) as [ty|];
      [|discriminate].
    exists tx, ty. unfold token_value in Hx, Hy.
    destruct (Flt.of_string (Str.tail tx)) as [v|]; [|discriminate].
    destruct (Flt.of_string (Str.tail ty)) as [v'|]; [|discriminate].
    injection Hx as ->. injection Hy as ->. repeat split.
  - apply scan_tokens_return in E as [-> _]. discriminate.
Qed.

Lemma parse_g1_xy_last_tokens_witness :
  parse_g1_xy "G1 X1 Y2 x3.5 ; X9"
  = Ok (Some (Flt.of_decimal false 35 (-1), num 2))
  /\ exists tx ty,
      last_with is_x_token (tokens (body_of "G1 X1 Y2 x3.5 ; X9")) = Some tx
      /\ Flt.of_string (Str.tail tx) = Ok (Flt.of_decimal false 35 (-1))
      /\ last_with is_y_token (tokens (body_of "G1 X1 Y2 x3.5 ; X9"))
         = Some ty
      /\ Flt.of_string (Str.tail ty) = Ok (num 2).
Proof.
  assert (H : parse_g1_xy "G1 X1 Y2 x3.5 ; X9"
              = Ok (Some (Flt.of_decimal false 35 (-1), num 2)))
    by (vm_compute; reflexivity).
  split; [exact H|].
  exact (parse_g1_xy_last_tokens "G1 X1 Y2 x3.5 ; X9" _ _ H).
Defined.

(** X11. What the parser passes over.  The move read from a line, or the
    absence of one, is the same when a comment is added at its end (a [;]
    or a [#] and any text), when whitespace is added before or after it,
    such as the line feed that [readlines] leaves at the end of a line, and
    when a word that holds no separator, no comment sign and no leading
    [X] or [Y] is added after whitespace at its end, such as the feed
    [F200] that [save_gcode] adds to the first record. *)
Theorem parse_g1_xy_ignores (line : string) :
  (forall c note,
      comment_start c = true ->
      parse_g1_xy (line ++ String c note) = parse_g1_xy line)
  /\ (forall w,
         all_chars Str.is_space w = true ->
         parse_g1_xy (w ++ line) = parse_g1_xy line
         /\ parse_g1_xy (line ++ w) = parse_g1_xy line)
  /\ (forall c w,
         Str.is_space c = true -> inert_word w ->
         parse_g1_xy (line ++ String c w) = parse_g1_xy line)
  /\ parse_g1_xy (line ++ " F200") = parse_g1_xy line
  /\ parse_g1_xy (with_newline line) = parse_g1_xy line.
Proof.
  split; [|split; [|split; [|split]]].
  - intros c note Hc. apply parse_g1_xy_same_body. unfold body_of.
    now rewrite strip_comment_tail.
  - intros w Hw. split; apply parse_g1_xy_same_body.
    + now apply body_of_spaces_before.
    + now apply body_of_spaces_after.
  - intros c w. apply parse_g1_xy_inert.
  - apply parse_g1_xy_feed.
  - apply parse_g1_xy_with_newline.
Qed.

Lemma parse_g1_xy_ignores_witness :
  comment_start ";" = true
  /\ inert_word "Z0.5"
  /\ parse_g1_xy ("G1 X1 Y2" ++ "; X7") = parse_g1_xy "G1 X1 Y2"
  /\ parse_g1_xy ("G1 X1 Y2" ++ " Z0.5") = parse_g1_xy "G1 X1 Y2".
Proof.
  assert (Hc : comment_start ";" = true) by reflexivity.
  assert (Hw : inert_word "Z0.5") by (split; reflexivity).
  split; [exact Hc|]. split; [exact Hw|]. split.
  - exact (proj1 (parse_g1_xy_ignores "G1 X1 Y2") ";"%char " X7" Hc).
  - exact (proj1 (proj2 (proj2 (parse_g1_xy_ignores "G1 X1 Y2")))
                 " "%char "Z0.5" eq_refl Hw).
Defined.

(** X12. A saved file reads back to the moves of the document.  When the
    document is not empty, a path is chosen and no record holds a line
    end, [save_gcode] writes a text which [readlines] cuts into the lines
    saved, and from which the first loop of [load_gcode] reads the moves
    of the records that parse, in their order, skipping two lines more
    than the document has records that do not parse: [M3] and [M5].  The
    feed added to the first record changes nothing to its move.  So an
    import of that file that ends normally reports these two numbers. *)
Theorem saved_file_reads_back (path : string) (st : state) :
  gcode_lines st <> [] ->
  Str.is_empty path = false ->
  forallb one_line (gcode_lines st) = true ->
  exists text,
    save_gcode path true st = Done (path, text)
    /\ readlines text = List.map with_newline (lines_to_save (gcode_lines st))
    /\ parse_lines (readlines text) [] 0
       = Ok (moves_of (gcode_lines st), (unread (gcode_lines st) + 2)%nat)
    /\ (forall do_replace st2 imported skipped,
           snd (load_gcode (readlines text) do_replace st2)
           = Done (imported, skipped) ->
           imported = List.length (moves_of (gcode_lines st))
           /\ skipped = (unread (gcode_lines st) + 2)%nat).
Proof.
  intros Hne Hpath Hone.
  assert (Hread :
            readlines (Str.join (String newline "")
                                (lines_to_save (gcode_lines st))
                       ++ String newline "")
            = List.map with_newline (lines_to_save (gcode_lines st))).
  { apply readlines_join; [|now apply one_line_lines_to_save].
    destruct (gcode_lines st); [contradiction | discriminate]. }
  destruct (moves_of_with_newline (lines_to_save (gcode_lines st)))
    as [Hm Hu].
  destruct (moves_of_lines_to_save (gcode_lines st) Hne) as [Hm' Hu'].
  assert (Hparse :
            parse_lines (List.map with_newline
                                  (lines_to_save (gcode_lines st))) [] 0
            = Ok (moves_of (gcode_lines st),
                  (unread (gcode_lines st) + 2)%nat)).
  { rewrite parse_lines_spec. cbn [app Nat.add].
    now rewrite Hm, Hu, Hm', Hu'. }
  exists (Str.join (String newline "") (lines_to_save (gcode_lines st))
          ++ String newline "").
  split; [|split; [|split]].
  - unfold save_gcode. destruct (gcode_lines st); [contradiction|].
    rewrite Hpath. reflexivity.
  - exact Hread.
  - rewrite Hread. exact Hparse.
  - intros do_replace st2 imported skipped. rewrite Hread.
    unfold load_gcode. rewrite Hparse.
    destruct (moves_of (gcode_lines st)) as [|m ms]; [discriminate|].
    cbv zeta.
    destruct (add_all _ _) as [lines' [e|]]; cbn [snd]; [discriminate|].
    intros [= <- <-]. split; reflexivity.
Qed.

Lemma saved_file_reads_back_witness :
  forallb one_line ["G1 X0 Y0"; "note"; "G1 X1 Y2"] = true
  /\ exists text,
      save_gcode "out.txt" true
                 (mkState ["G1 X0 Y0"; "note"; "G1 X1 Y2"] None)
      = Done ("out.txt", text)
      /\ readlines text
         = List.map with_newline
                    (lines_to_save ["G1 X0 Y0"; "note"; "G1 X1 Y2"])
      /\ parse_lines (readlines text) [] 0
         = Ok (moves_of ["G1 X0 Y0"; "note"; "G1 X1 Y2"],
               (unread ["G1 X0 Y0"; "note"; "G1 X1 Y2"] + 2)%nat)
      /\ (forall do_replace st2 imported skipped,
             snd (load_gcode (readlines text) do_replace st2)
             = Done (imported, skipped) ->
             imported
             = List.length (moves_of ["G1 X0 Y0"; "note"; "G1 X1 Y2"])
             /\ skipped
                = (unread ["G1 X0 Y0"; "note"; "G1 X1 Y2"] + 2)%nat).
Proof.
  split; [reflexivity|].
  apply (saved_file_reads_back "out.txt"
           (mkState ["G1 X0 Y0"; "note"; "G1 X1 Y2"] None));
    [discriminate | reflexivity | reflexivity].
Defined.

(** X13. The preview tells what a submit will do.  When the preview line
    cannot be built, the submit fails in the same way and changes
    nothing.  Otherwise the preview shows a question mark exactly when the
    submit is refused with "Missing values"; and a preview without a
    question mark is a line that parses, to the very move that the submit
    hands to [add_or_merge_line], after the snapshot. *)
Theorem preview_and_submit (x_var y_var : string) (st : state) :
  (forall e,
      build_preview_line x_var y_var = Raise e ->
      submit_line x_var y_var st = (st, Raised e))
  /\ (forall p,
         build_preview_line x_var y_var = Ok p ->
         (Str.contains_char "?" p = true <->
          submit_line x_var y_var st = (st, Warned "Missing values"))
         /\ (Str.contains_char "?" p = false ->
             exists xn yn,
               parse_g1_xy p = Ok (Some (xn, yn))
               /\ submit_line x_var y_var st
                  = match add_or_merge_line xn yn (gcode_lines st) with
                    | Ok lines =>
                        (mkState lines (Some (gcode_lines st)), Done tt)
                    | Raise e => (snapshot st, Raised e)
                    end)).
Proof.
  unfold build_preview_line, submit_line.
  destruct (fmt_number x_var) as [fx|ex] eqn:Ex; cbn [bind].
  2:{ split; [now intros e [= <-] | discriminate]. }
  destruct (fmt_number y_var) as [fy|ey] eqn:Ey; cbn [bind].
  2:{ split; [now intros e [= <-] | discriminate]. }
  destruct (Str.is_empty fx) eqn:Zx; destruct (Str.is_empty fy) eqn:Zy;
    cbn [negb andb orb]; cbv iota; (split; [discriminate|]);
    intros p [= <-].
  - split; [split; reflexivity | discriminate].
  - split; [split; reflexivity | discriminate].
  - pose proof (fmt_number_text _ _ Ex Zx) as Tx.
    split.
    + split; [reflexivity|]. intros _.
      cbn [Str.contains_char]. rewrite contains_char_app.
      cbn. now rewrite !orb_true_r.
    + cbn [Str.contains_char]. rewrite contains_char_app.
      cbn. rewrite !orb_true_r. discriminate.
  - pose proof (fmt_number_text _ _ Ex Zx) as Tx.
    pose proof (fmt_number_text _ _ Ey Zy) as Ty.
    assert (Hno : Str.contains_char "?" ("G1 X" ++ fx ++ " Y" ++ fy) = false).
    { rewrite !contains_char_app.
      rewrite (decimal_text_no_mark fx Tx), (decimal_text_no_mark fy Ty).
      reflexivity. }
    destruct (record_parses fx fy Tx Ty) as (xn & yn & Hx & Hy & Hp).
    unfold record_of in Hp. cbn [append] in Hno, Hp |- *.
    rewrite Hno, Hx, Hy. cbn [bind].
    cbn [snapshot gcode_lines last_snapshot].
    split.
    + split; [discriminate|].
      destruct (add_or_merge_line xn yn (gcode_lines st)); discriminate.
    + intros _. exists xn, yn. split; [exact Hp|].
      destruct (add_or_merge_line xn yn (gcode_lines st)); reflexivity.
Qed.

Lemma preview_and_submit_witness :
  build_preview_line "1.50" "" = Ok "G1 X1.5 Y?"
  /\ (Str.contains_char "?" "G1 X1.5 Y?" = true <->
      submit_line "1.50" "" (mkState ["G1 X0 Y0"] None)
      = (mkState ["G1 X0 Y0"] None, Warned "Missing values")).
Proof.
  assert (H : build_preview_line "1.50" "" = Ok "G1 X1.5 Y?")
    by (vm_compute; reflexivity).
  split; [exact H|].
  exact (proj1 (proj2 (preview_and_submit "1.50" ""
                         (mkState ["G1 X0 Y0"] None)) _ H)).
Defined.

(** X14. Whitespace around what is typed in an entry.  [fmt_number]
    trims its text with [str.strip] before reading it, so the canonical
    text, the preview line and the submit are the same whatever whitespace
    stands before and after the texts of the X and Y entries.
    [parse_float] hands its text to [float] as it is, which passes over
    less: the value or the default it gives, and so what the loop does,
    are the same with the limits and offsets padded by tabs, line ends,
    blanks, next-line or no-break spaces.  The separators of code 28 to
    31, which [str.strip] removes, are not passed over by [float]: a text
    that begins with one reads with [fmt_number] as without it, but
    [parse_float] falls back on its default. *)
Theorem entries_ignore_whitespace :
  (forall w w',
      all_chars Str.is_space w = true ->
      all_chars Str.is_space w' = true ->
      (forall s, fmt_number (w ++ s ++ w') = fmt_number s)
      /\ (forall x y,
             build_preview_line (w ++ x ++ w') (w ++ y ++ w')
             = build_preview_line x y)
      /\ (forall x y st,
             submit_line (w ++ x ++ w') (w ++ y ++ w') st
             = submit_line x y st))
  /\ (forall w w',
         all_chars Flt.is_float_space w = true ->
         all_chars Flt.is_float_space w' = true ->
         (forall s (default : option float),
             parse_float Some (w ++ s ++ w') default
             = parse_float Some s default)
         /\ (forall fuel max_x max_y dx dy st,
                loop_block fuel (w ++ max_x ++ w') (w ++ max_y ++ w')
                           (w ++ dx ++ w') (w ++ dy ++ w') st
                = loop_block fuel max_x max_y dx dy st))
  /\ (forall c s (default : option float),
         Str.is_space c = true -> Flt.is_float_space c = false ->
         fmt_number (String c s) = fmt_number s
         /\ unparsable (String c s)
         /\ parse_float Some (String c s) default = Ok default).
Proof.
  split; [|split].
  - intros w w' H H'. split; [|split].
    + intros s. now apply fmt_number_padded.
    + intros x y. unfold build_preview_line.
      now rewrite !(fmt_number_padded w _ w' H H').
    + intros x y st. unfold submit_line.
      now rewrite !(fmt_number_padded w _ w' H H').
  - intros w w' H H'. split.
    + intros s default. now apply parse_float_padded.
    + intros fuel max_x max_y dx dy st. unfold loop_block.
      now rewrite !(parse_float_padded _ w _ w' _ H H').
  - intros c s default Hs Hf.
    pose proof (of_string_separator c s Hs Hf) as E.
    split; [|split].
    + pose proof (fmt_number_padded (String c "") s "") as P.
      simpl in P. rewrite Hs, append_empty_r in P. now apply P.
    + now exists ValueError.
    + unfold parse_float. now rewrite E.
Qed.

Lemma entries_ignore_whitespace_witness :
  all_chars Str.is_space (String (ascii_of_nat 31) " ") = true
  /\ fmt_number (String (ascii_of_nat 31) " " ++ "2.50" ++ " ")
     = fmt_number "2.50"
  /\ Flt.is_float_space (ascii_of_nat 31) = false
  /\ parse_float Some (String (ascii_of_nat 31) "5") None = Ok None.
Proof.
  split; [reflexivity|]. split.
  - exact (proj1 (proj1 entries_ignore_whitespace
                        (String (ascii_of_nat 31) " ") " "
                        eq_refl eq_refl) "2.50").
  - split; [reflexivity|].
    exact (proj2 (proj2 (proj2 (proj2 entries_ignore_whitespace)
                               (ascii_of_nat 31) "5" None
                               eq_refl eq_refl))).
Defined.

(** X15. The comparison [_eq] within the tolerance does not depend on the
    order of its arguments; a number that is neither infinite nor NaN is
    equal to itself; and nothing is equal to NaN, nor an infinity to
    itself, since their difference is NaN. *)
Theorem eq_tolerance_properties (a b : float) :
  _eq a b = _eq b a
  /\ (is_finite a = true -> _eq a a = true)
  /\ (Flt.is_nan a = true -> _eq a b = false)
  /\ (Flt.is_inf a = true -> _eq a a = false).
Proof.
  unfold _eq. split; [|split; [|split]].
  - now rewrite abs_sub_sym.
  - intros H. now rewrite (sub_diag_finite a H).
  - destruct a; try discriminate. reflexivity.
  - destruct a as [s|[|]| |s m e]; try discriminate; reflexivity.
Qed.

Lemma eq_tolerance_properties_witness :
  is_finite (num 3) = true /\ _eq (num 3) (num 3) = true.
Proof.
  split; [reflexivity|].
  exact (proj1 (proj2 (eq_tolerance_properties (num 3) (num 5))) eq_refl).
Defined.

(** X16. A limit that nothing exceeds does not stop the loop.  The test of
    [loop_block] is a strict comparison, which is false against NaN and
    against plus infinity; such a text passes the "No limits" check,
    since it reads as a float.  When every limit that is set is of this
    kind and the document parses, whatever the offsets, no candidate group
    is rejected: the handler never returns a count; whatever the number of
    turns it is allowed, it is still looping or has been ended by an
    exception. *)
Theorem loop_block_unreachable_limits
        (max_x_var max_y_var dx_var dy_var : string) (st : state)
        (base : list (float * float)) (max_x max_y : option float) :
  gcode_lines st <> [] ->
  parse_float Some max_x_var None = Ok max_x ->
  parse_float Some max_y_var None = Ok max_y ->
  is_some max_x || is_some max_y = true ->
  unreachable max_x = true -> unreachable max_y = true ->
  parse_base (gcode_lines st) [] = Ok (Next base) ->
  forall fuel,
    let r := loop_block fuel max_x_var max_y_var dx_var dy_var st in
    last_snapshot (fst r) = Some (gcode_lines st)
    /\ (snd r = OutOfFuel \/ exists e, snd r = Raised e).
Proof.
  intros Hne Hmx Hmy Hset Ux Uy Hbase fuel r. subst r.
  destruct (parse_float_ok id dx_var (S754_zero false)) as (dx & Hdx).
  destruct (parse_float_ok id dy_var (S754_zero false)) as (dy & Hdy).
  rewrite (loop_block_runs fuel max_x_var max_y_var dx_var dy_var st base
             max_x max_y dx dy Hne Hmx Hmy Hset Hdx Hdy Hbase).
  cbn [fst snd last_snapshot]. split; [reflexivity|].
  assert (Hb : base <> []).
  { intros ->. apply parse_base_length in Hbase.
    destruct (gcode_lines st); [contradiction | discriminate]. }
  pose proof (loop_groups_outcome fuel base dx dy max_x max_y 1 0
                (gcode_lines st)) as H.
  cbv zeta in H. destruct H as [H|[H|(n & H)]]; auto.
  exfalso.
  destruct (loop_groups fuel base dx dy max_x max_y 1 0 (gcode_lines st))
    as [lines out] eqn:E.
  simpl in H. subst out.
  apply (loop_groups_done base dx dy max_x max_y Hb) in E
    as (k & _ & _ & _ & (g & _ & Hno) & _).
  now rewrite (within_unreachable max_x max_y g Ux Uy) in Hno.
Qed.

Lemma loop_block_unreachable_limits_witness :
  parse_float Some "inf" None = Ok (Some (S754_infinity false))
  /\ parse_float Some "nan" None = Ok (Some S754_nan)
  /\ last_snapshot
       (fst (loop_block 9 "inf" "nan" "1" "1"
                        (mkState ["G1 X0 Y0"; "G1 X1 Y2"] None)))
     = Some ["G1 X0 Y0"; "G1 X1 Y2"]
  /\ (snd (loop_block 9 "inf" "nan" "1" "1"
                      (mkState ["G1 X0 Y0"; "G1 X1 Y2"] None)) = OutOfFuel
      \/ exists e,
          snd (loop_block 9 "inf" "nan" "1" "1"
                          (mkState ["G1 X0 Y0"; "G1 X1 Y2"] None))
          = Raised e).
Proof.
  assert (Hx : parse_float Some "inf" None = Ok (Some (S754_infinity false)))
    by (vm_compute; reflexivity).
  assert (Hy : parse_float Some "nan" None = Ok (Some S754_nan))
    by (vm_compute; reflexivity).
  split; [exact Hx|]. split; [exact Hy|].
  apply (loop_block_unreachable_limits "inf" "nan" "1" "1"
           (mkState ["G1 X0 Y0"; "G1 X1 Y2"] None)
           [(num 0, num 0); (num 1, num 2)]
           (Some (S754_infinity false)) (Some S754_nan)
           ltac:(discriminate) Hx Hy eq_refl eq_refl eq_refl
           ltac:(vm_compute; reflexivity) 9%nat).
Defined.

(** X17. Loop expansion, for the runs that return: with a non-empty base, offsets dx and dy and at
    least one bound set, the loop ends with the count [n] exactly when the
    candidate groups 1 to [n], each the base shifted by (dx k, dy k) in its
    order, exceed no set bound, the candidate group [n + 1] has a move with
    x > max_x or y > max_y, and the fuel covers [n + 1] turns; the document
    is then the old one with the whole groups 1 to [n] appended move by
    move through [add_or_merge_line], nothing of the rejected group, and
    the snapshot is the old document.  The count is 0 when the first
    candidate group is rejected.  However the loop ends, every move it has
    appended exceeds no set bound.  For the base (0,0), (1,0) with dx = 2,
    dy = 0, max_x = 5 and no max_y, the groups 1 and 2 are appended and the
    count is 2. *)
Theorem loop_expansion :
  (forall (fuel : nat) (max_x_var max_y_var dx_var dy_var : string)
          (st : state) (base : list (float * float))
          (max_x max_y : option float) (dx dy : float),
      parse_base (gcode_lines st) [] = Ok (Next base) ->
      base <> [] ->
      parse_float Some max_x_var None = Ok max_x ->
      parse_float Some max_y_var None = Ok max_y ->
      is_some max_x || is_some max_y = true ->
      parse_float id dx_var (S754_zero false) = Ok dx ->
      parse_float id dy_var (S754_zero false) = Ok dy ->
      forall (st' : state) (n : nat),
        loop_block fuel max_x_var max_y_var dx_var dy_var st = (st', Done n)
        <-> ((n < fuel)%nat
             /\ (forall k, (1 <= k <= Z.of_nat n)%Z ->
                           accepted max_x max_y base dx dy k)
             /\ rejected max_x max_y base dx dy (Z.of_nat n + 1)
             /\ exists lines',
                 append_groups base dx dy n 1 (gcode_lines st) = Some lines'
                 /\ st' = mkState lines' (Some (gcode_lines st))))
  /\ (forall (fuel : nat) (base : list (float * float)) (dx dy : float)
             (max_x max_y : option float) (lines : list string),
         exists moves,
           forallb (within max_x max_y) moves = true
           /\ fst (loop_groups fuel base dx dy max_x max_y 1 0 lines)
              = fst (add_all moves lines))
  /\ (forall fuel,
         (3 <= fuel)%nat ->
         loop_block fuel "5" "" "2" "0"
                    (mkState ["G1 X0 Y0"; "G1 X1 Y0"] None)
         = (mkState ["G1 X0 Y0"; "G1 X5 Y0"]
                    (Some ["G1 X0 Y0"; "G1 X1 Y0"]), Done 2%nat)).
Proof.
  assert (Hmain :
    forall (fuel : nat) (max_x_var max_y_var dx_var dy_var : string)
           (st : state) (base : list (float * float))
           (max_x max_y : option float) (dx dy : float),
      parse_base (gcode_lines st) [] = Ok (Next base) ->
      base <> [] ->
      parse_float Some max_x_var None = Ok max_x ->
      parse_float Some max_y_var None = Ok max_y ->
      is_some max_x || is_some max_y = true ->
      parse_float id dx_var (S754_zero false) = Ok dx ->
      parse_float id dy_var (S754_zero false) = Ok dy ->
      forall (st' : state) (n : nat),
        loop_block fuel max_x_var max_y_var dx_var dy_var st = (st', Done n)
        <-> ((n < fuel)%nat
             /\ (forall k, (1 <= k <= Z.of_nat n)%Z ->
                           accepted max_x max_y base dx dy k)
             /\ rejected max_x max_y base dx dy (Z.of_nat n + 1)
             /\ exists lines',
                 append_groups base dx dy n 1 (gcode_lines st) = Some lines'
                 /\ st' = mkState lines' (Some (gcode_lines st)))).
  { intros fuel mxs mys dxs dys st base max_x max_y dx dy
           Hbase Hne Hmx Hmy Hset Hdx Hdy st' n.
    assert (Hlines : gcode_lines st <> []).
    { intros E. rewrite E in Hbase. simpl in Hbase.
      injection Hbase as <-. now apply Hne. }
    rewrite (loop_block_runs fuel mxs mys dxs dys st base max_x max_y dx dy)
      by assumption.
    destruct (loop_groups fuel base dx dy max_x max_y 1 0 (gcode_lines st))
      as [lines out] eqn:Hloop. cbn [fst snd]. split.
    - intros [= <- ->].
      apply (loop_groups_done base dx dy max_x max_y Hne) in Hloop
        as (m & -> & Hlt & Hall & Hrej & Happ).
      simpl. repeat split; [exact Hlt| | |eauto].
      + intros k Hk.
        replace k with (1 + Z.of_nat (Z.to_nat (k - 1)))%Z by lia.
        apply Hall. lia.
      + now rewrite Z.add_comm.
    - intros (Hlt & Hall & Hrej & lines' & Happ & ->).
      rewrite (loop_groups_enough_fuel base dx dy max_x max_y Hne n
                 fuel 1 0 (gcode_lines st) lines') in Hloop;
        [injection Hloop as <- <-; reflexivity |exact Hlt| | |exact Happ].
      + intros i Hi. apply Hall. lia.
      + now rewrite Z.add_comm. }
  split; [exact Hmain|].
  split; [intros; apply loop_groups_within|].
  intros fuel Hfuel.
  apply (Hmain fuel "5" "" "2" "0" (mkState ["G1 X0 Y0"; "G1 X1 Y0"] None)
               [(num 0, num 0); (num 1, num 0)]
               (Some (num 5)) None (num 2) (S754_zero false));
    try (vm_compute; reflexivity); [discriminate|].
  split; [lia|]. split; [|split].
  - intros k Hk. assert (Hc : k = 1%Z \/ k = 2%Z) by lia.
    destruct Hc as [-> | ->]; eexists; (split; vm_compute; reflexivity).
  - eexists. split; vm_compute; reflexivity.
  - eexists. split; vm_compute; reflexivity.
Qed.

Lemma loop_expansion_witness :
  loop_block 3 "5" "" "2" "1" (mkState ["G1 X0 Y0"; "G1 X1 Y0"] None)
  = (mkState ["G1 X0 Y0"; "G1 X1 Y0"; "G1 X2 Y1"; "G1 X3 Y1";
              "G1 X4 Y2"; "G1 X5 Y2"]
             (Some ["G1 X0 Y0"; "G1 X1 Y0"]), Done 2%nat)
  /\ (2 < 3)%nat
  /\ rejected (Some (num 5)) None [(num 0, num 0); (num 1, num 0)]
              (num 2) (num 1) 3.
Proof.
  pose proof (proj1 (proj1 loop_expansion
    3%nat "5" "" "2" "1" (mkState ["G1 X0 Y0"; "G1 X1 Y0"] None)
    [(num 0, num 0); (num 1, num 0)] (Some (num 5)) None (num 2) (num 1)
    ltac:(vm_compute; reflexivity) ltac:(discriminate)
    ltac:(vm_compute; reflexivity) ltac:(vm_compute; reflexivity)
    ltac:(reflexivity)
    ltac:(vm_compute; reflexivity) ltac:(vm_compute; reflexivity)
    _ 2%nat) ltac:(vm_compute; reflexivity)) as (Hlt & _ & Hrej & _).
  split; [vm_compute; reflexivity|]. split; [exact Hlt | exact Hrej].
Defined.
